(** * gtd-agent: the chat command handler and its task store

    A shallow embedding of the three revisions of [chat.go] that the
    repository carries:

    - [Plain]  : [src/chat/chat.go], text replies, commands add/list/done;
    - [Cards]  : the first file of [src/unnamed/part_000], card replies and
                 card actions (markDone, deleteTask, editTask, list);
    - [Text]   : the second file of [src/unnamed/part_000], text replies,
                 commands add/list/done/edit/test and the same card actions.

    Go strings are byte sequences and are modelled by [string]; Go [int] is
    the 64-bit integer of the platforms the service runs on and is modelled
    by [Z] inside its range.  The library functions the handlers call
    ([strconv.Atoi], [strconv.Itoa], [strings.TrimSpace], [regexp] on the
    anchored patterns of the handler, and [sqldb]) are modelled in the
    modules [Strconv], [Strings], [Regexp] and [Sqldb]. *)

From Stdlib Require Import ZArith Ascii Lia.
From stdpp Require Import base option list sorting gmap strings.

Local Open Scope Z_scope.

(** Go's [(T, error)] return pair where exactly one side is meaningful. *)
Inductive result (A : Type) : Type :=
| Ok (a : A)
| Err (e : string).
Arguments Ok {A} a.
Arguments Err {A} e.

(** ** Bytes *)

Definition code (c : ascii) : Z := Z.of_N (N_of_ascii c).

Definition is_digit (c : ascii) : bool := (48 <=? code c) && (code c <=? 57).

Fixpoint all_chars (p : ascii → bool) (s : string) : bool :=
  match s with
  | EmptyString => true
  | String c s' => p c && all_chars p s'
  end.

(** ** package strconv *)
Module Strconv.

Inductive NumError := ErrSyntax | ErrRange.

Definition intSize : Z := 64.
Definition maxUint64 : Z := 2 ^ 64 - 1.

(** The digit loop of [ParseUint(s, 10, 64)]: [n] is the accumulator, a
    [uint64]; the additions wrap modulo [2^64] as they do in Go. *)
Fixpoint parseUintLoop (s : string) (n : Z) : Z * option NumError :=
  match s with
  | EmptyString => (n, None)
  | String c s' =>
    if negb (is_digit c) then (0, Some ErrSyntax)
    else
      let d := code c - 48 in
      let cutoff := maxUint64 / 10 + 1 in
      if cutoff <=? n then (maxUint64, Some ErrRange)
      else
        let n10 := n * 10 in
        let n1 := (n10 + d) mod 2 ^ 64 in
        if (n1 <? n10) || (maxUint64 <? n1) then (maxUint64, Some ErrRange)
        else parseUintLoop s' n1
  end.

Definition ParseUint (s : string) : Z * option NumError :=
  match s with
  | EmptyString => (0, Some ErrSyntax)
  | _ => parseUintLoop s 0
  end.

(** [ParseInt(s, 10, 0)]: an optional sign, then [ParseUint]; a value out
    of the [int64] range is clamped and reported as [ErrRange]. *)
Definition ParseInt (s : string) : Z * option NumError :=
  match s with
  | EmptyString => (0, Some ErrSyntax)
  | String c s' =>
    let neg := bool_decide (c = "-"%char) in
    let body := if bool_decide (c = "+"%char) || neg then s' else s in
    let '(un, err) := ParseUint body in
    match err with
    | Some ErrSyntax => (0, Some ErrSyntax)
    | _ =>
      let cutoff := 2 ^ (intSize - 1) in
      if negb neg && (cutoff <=? un) then (cutoff - 1, Some ErrRange)
      else if neg && (cutoff <? un) then (- cutoff, Some ErrRange)
      else (if neg then - un else un, None)
    end
  end.

(** [Atoi] is [ParseInt(s, 10, 0)]; its fast path for short inputs returns
    the same pairs. *)
Definition Atoi (s : string) : Z * option NumError := ParseInt s.

Definition digit_char (d : Z) : ascii := ascii_of_N (Z.to_N (48 + d)).

(** Decimal digits of a non-negative number, most significant first. *)
Fixpoint formatBits (fuel : nat) (n : Z) (acc : string) : string :=
  let acc' := String (digit_char (n mod 10)) acc in
  match fuel with
  | O => acc'
  | S fuel' => if n <? 10 then acc' else formatBits fuel' (n / 10) acc'
  end.

Definition Itoa (i : Z) : string :=
  if i <? 0 then String "-"%char (formatBits (Z.to_nat (Z.log2 (- i))) (- i) "")
  else formatBits (Z.to_nat (Z.log2 i)) i "".

End Strconv.

(** ** package strings *)
Module Strings.

(** The six ASCII members of [unicode.IsSpace]: tab, LF, VT, FF, CR, space. *)
Definition asciiSpace (c : ascii) : bool :=
  ((9 <=? code c) && (code c <=? 13)) || (code c =? 32).

(** The two-byte UTF-8 encodings of white space: U+0085 and U+00A0. *)
Definition space2 (c d : ascii) : bool :=
  (code c =? 194) && ((code d =? 133) || (code d =? 160)).

(** The three-byte ones: U+1680, U+2000..U+200A, U+2028, U+2029, U+202F,
    U+205F and U+3000. *)
Definition space3 (c d e : ascii) : bool :=
  ((code c =? 225) && (code d =? 154) && (code e =? 128))
  || ((code c =? 226) && (code d =? 128)
      && (((128 <=? code e) && (code e <=? 138))
          || (code e =? 168) || (code e =? 169) || (code e =? 175)))
  || ((code c =? 226) && (code d =? 129) && (code e =? 159))
  || ((code c =? 227) && (code d =? 128) && (code e =? 128)).

(** Drop leading white-space runes.  [p2] and [p3] recognise the multi-byte
    encodings in the order the bytes are met, so the same loop serves the
    reversed string. *)
Fixpoint trimWith (p2 : ascii → ascii → bool)
    (p3 : ascii → ascii → ascii → bool) (s : string) : string :=
  match s with
  | EmptyString => s
  | String c s1 =>
    if asciiSpace c then trimWith p2 p3 s1
    else
      match s1 with
      | EmptyString => s
      | String d s2 =>
        if p2 c d then trimWith p2 p3 s2
        else
          match s2 with
          | EmptyString => s
          | String e s3 => if p3 c d e then trimWith p2 p3 s3 else s
          end
      end
  end.

Definition TrimLeftSpace (s : string) : string := trimWith space2 space3 s.

Definition TrimRightSpace (s : string) : string :=
  String.rev
    (trimWith (λ c d, space2 d c) (λ c d e, space3 e d c) (String.rev s)).

Definition TrimSpace (s : string) : string := TrimRightSpace (TrimLeftSpace s).

Fixpoint Join (elems : list string) (sep : string) : string :=
  match elems with
  | [] => ""
  | [x] => x
  | x :: rest => x +:+ sep +:+ Join rest sep
  end.

End Strings.

(** ** package regexp

    The handler only compiles patterns of the shape [^ ... $] built from
    literals, one-or-more repetitions of a character class and capture
    groups.  [exec] is a backtracking matcher for that fragment with Go's
    leftmost-first, greedy discipline; it is started at offset 0 and accepts
    only at the end of the text, which is what the two anchors demand.  The
    classes used ([\s], [\d], [.]) tell apart only ASCII bytes, so matching
    bytes and matching runes split the text at the same places. *)
Module Regexp.

Inductive Regexp :=
| Lit (s : string)
| Plus (cls : ascii → bool)
| Group (r : Regexp)
| Concat (r1 r2 : Regexp).

(** [\s] is [\t\n\f\r ] (no vertical tab), [\d] is [0-9], and [.] is any
    character but the line feed. *)
Definition cls_s (c : ascii) : bool :=
  (code c =? 9) || (code c =? 10) || (code c =? 12) || (code c =? 13)
  || (code c =? 32).
Definition cls_d (c : ascii) : bool := is_digit c.
Definition cls_dot (c : ascii) : bool := negb (code c =? 10).

Fixpoint strip_prefix (p s : string) : option string :=
  match p, s with
  | EmptyString, _ => Some s
  | String a p', String b s' => if bool_decide (a = b) then strip_prefix p' s' else None
  | String _ _, EmptyString => None
  end.

(** Greedy repetition: take one more character when the class allows it
    and the rest of the pattern still matches, otherwise stop here. *)
Fixpoint more {A} (cls : ascii → bool) (s acc : string)
    (k : string → string → option A) : option A :=
  match s with
  | EmptyString => k acc s
  | String c s' =>
    if cls c then
      match more cls s' (acc +:+ String c "") k with
      | Some r => Some r
      | None => k acc s
      end
    else k acc s
  end.

(** [exec r s caps k]: match [r] at the front of [s]; [k] receives the
    matched text, the remaining text and the captures closed so far. *)
Fixpoint exec {A} (r : Regexp) (s : string) (caps : list string)
    (k : string → string → list string → option A) : option A :=
  match r with
  | Lit p =>
    match strip_prefix p s with
    | Some rest => k p rest caps
    | None => None
    end
  | Plus cls =>
    match s with
    | String c s' =>
      if cls c then more cls s' (String c "") (λ m rest, k m rest caps) else None
    | EmptyString => None
    end
  | Group r1 => exec r1 s caps (λ m rest caps1, k m rest (caps1 ++ [m]))
  | Concat r1 r2 =>
    exec r1 s caps (λ m1 rest caps1,
      exec r2 rest caps1 (λ m2 rest' caps2, k (m1 +:+ m2) rest' caps2))
  end.

Definition find (r : Regexp) (s : string) : option (list string) :=
  exec r s [] (λ m rest caps,
    match rest with EmptyString => Some (m :: caps) | _ => None end).

(** [re.FindStringSubmatch(s)]: the whole match followed by the groups,
    [nil] when there is no match. *)
Definition FindStringSubmatch (r : Regexp) (s : string) : list string :=
  default [] (find r s).

Definition MatchString (r : Regexp) (s : string) : bool :=
  bool_decide (is_Some (find r s)).

End Regexp.

(** The command patterns of [HandleChat]. *)
Import Regexp.

(** [^add\s+(.+)$] *)
Definition addCmd : Regexp :=
  Concat (Lit "add") (Concat (Plus cls_s) (Group (Plus cls_dot))).
(** [^list$] *)
Definition listCmd : Regexp := Lit "list".
(** [^done\s+(\d+)$] *)
Definition doneCmd : Regexp :=
  Concat (Lit "done") (Concat (Plus cls_s) (Group (Plus cls_d))).
(** [^edit\s+(\d+)\s+(.+)$] *)
Definition editCmd : Regexp :=
  Concat (Lit "edit")
    (Concat (Plus cls_s)
      (Concat (Group (Plus cls_d)) (Concat (Plus cls_s) (Group (Plus cls_dot))))).
(** [^test$] *)
Definition testCmd : Regexp := Lit "test".


(** ** package sqldb and the [tasks] table

    The table is [tasks(id, content, done, user_id)] with [id] the primary
    key drawn from a sequence, so it is a finite map from [id] to the other
    three columns.  A statement is one round trip to the database: it is
    written to the journal, and it fails as a whole with the error the
    environment holds for it ([faults], one entry per statement, none left
    means no failure), leaving the table as it was. *)
Module Sqldb.

Record Task := { content : string; done : bool; user_id : string }.

Inductive ExecStmt :=
| UpdateDone (taskID : Z) (userID : string)
| DeleteTask (taskID : Z) (userID : string)
| UpdateContent (newContent : string) (taskID : Z) (userID : string).

Inductive Stmt :=
| SExec (q : ExecStmt)
| SInsert (newContent userID : string)
| SSelectTasks (userID : string)
| SSelectContent (taskID : Z) (userID : string).

Record DB := {
  tasks : gmap Z Task;
  serial : Z;
  faults : list (option string);
  journal : list Stmt
}.

Definition with_tasks (t : gmap Z Task) (db : DB) : DB :=
  {| tasks := t; serial := serial db; faults := faults db; journal := journal db |}.

(** Send a statement: journal it and take the environment's verdict. *)
Definition send (q : Stmt) (db : DB) : option string * DB :=
  (mjoin (head (faults db)),
   {| tasks := tasks db; serial := serial db;
      faults := tail (faults db); journal := journal db ++ [q] |}).

(** [WHERE id = $1 AND user_id = $2] *)
Definition where_id_user (taskID : Z) (userID : string) (row : Z * Task) : Prop :=
  row.1 = taskID ∧ user_id row.2 = userID.

(** [WHERE user_id = $1] *)
Definition where_user (userID : string) (row : Z * Task) : Prop :=
  user_id row.2 = userID.

Global Instance where_id_user_dec taskID userID row :
  Decision (where_id_user taskID userID row).
Proof. unfold where_id_user. apply _. Defined.

Global Instance where_user_dec userID row : Decision (where_user userID row).
Proof. unfold where_user. apply _. Defined.

(** [ORDER BY id] *)
Definition by_id (a b : Z * Task) : Prop := a.1 ≤ b.1.

Global Instance by_id_dec a b : Decision (by_id a b).
Proof. unfold by_id. apply _. Defined.

Section statements.
Context (P : Z * Task → Prop) `{!∀ row, Decision (P row)}.

(** [UPDATE tasks SET ... WHERE P]: the new table and the rows matched. *)
Definition sql_update (set : Task → Task) (t : gmap Z Task) : gmap Z Task * Z :=
  (map_imap (λ i r, Some (if decide (P (i, r)) then set r else r)) t,
   Z.of_nat (size (filter P t))).

(** [DELETE FROM tasks WHERE P] *)
Definition sql_delete (t : gmap Z Task) : gmap Z Task * Z :=
  (filter (λ row, ¬ P row) t, Z.of_nat (size (filter P t))).

(** [SELECT ... FROM tasks WHERE P ORDER BY id] *)
Definition sql_select (t : gmap Z Task) : list (Z * Task) :=
  merge_sort by_id (map_to_list (filter P t)).

End statements.

Definition set_done (r : Task) : Task :=
  {| content := content r; done := true; user_id := user_id r |}.

Definition set_content (c : string) (r : Task) : Task :=
  {| content := c; done := done r; user_id := user_id r |}.

Definition run_exec (q : ExecStmt) (t : gmap Z Task) : gmap Z Task * Z :=
  match q with
  | UpdateDone taskID userID => sql_update (where_id_user taskID userID) set_done t
  | DeleteTask taskID userID => sql_delete (where_id_user taskID userID) t
  | UpdateContent c taskID userID =>
      sql_update (where_id_user taskID userID) (set_content c) t
  end.

(** [sqldb.Exec]: the result carries [RowsAffected]. *)
Definition Exec (q : ExecStmt) (db : DB) : result Z * DB :=
  let '(fault, db1) := send (SExec q) db in
  match fault with
  | Some e => (Err e, db1)
  | None =>
    let '(t, n) := run_exec q (tasks db1) in
    (Ok n, with_tasks t db1)
  end.

(** [sqldb.QueryRow(INSERT ... RETURNING id).Scan(&id)]: the id comes from
    the sequence, which advances whether or not the row can be stored. *)
Definition QueryRowInsert (newContent userID : string) (db : DB) : result Z * DB :=
  let '(fault, db1) := send (SInsert newContent userID) db in
  match fault with
  | Some e => (Err e, db1)
  | None =>
    let id := serial db1 in
    let db2 := {| tasks := tasks db1; serial := id + 1;
                  faults := faults db1; journal := journal db1 |} in
    match tasks db1 !! id with
    | Some _ => (Err "pq: duplicate key value violates unique constraint", db2)
    | None =>
      (Ok id,
       with_tasks (<[id := {| content := newContent; done := false;
                              user_id := userID |}]> (tasks db1)) db2)
    end
  end.

(** [sqldb.QueryRow(SELECT content ...).Scan(&content)]: no row is the
    error [sql.ErrNoRows]. *)
Definition QueryRowContent (taskID : Z) (userID : string) (db : DB) : result string * DB :=
  let '(fault, db1) := send (SSelectContent taskID userID) db in
  match fault with
  | Some e => (Err e, db1)
  | None =>
    match sql_select (where_id_user taskID userID) (tasks db1) with
    | row :: _ => (Ok (content row.2), db1)
    | [] => (Err "sql: no rows in result set", db1)
    end
  end.

(** [sqldb.Query(SELECT id, content, done ...)] with the rows scanned. *)
Definition Query (userID : string) (db : DB) : result (list (Z * Task)) * DB :=
  let '(fault, db1) := send (SSelectTasks userID) db in
  match fault with
  | Some e => (Err e, db1)
  | None => (Ok (sql_select (where_user userID) (tasks db1)), db1)
  end.

End Sqldb.
Import Sqldb.

(** ** Requests *)

Record Sender := { Sender_Name : string; Sender_Email : string }.

Record Message := { Message_Text : string; Message_Sender : Sender }.

(** The user identifier block that [HandleChat] and [handleCardAction]
    both open with: prefer the email, fall back to the name, then to the
    literal [default]. *)
Definition resolveUserID (s : Sender) : string :=
  if negb (bool_decide (Sender_Email s = "")) then Sender_Email s
  else if negb (bool_decide (Sender_Name s = "")) then Sender_Name s
  else "default".

(** The reply shared by every variant of [markTaskDone], [deleteTask],
    [editTask] and [showEditForm] when no row matched. *)
Definition notFoundText (taskID : Z) : string :=
  "❌ Task with ID " +:+ Strconv.Itoa taskID +:+ " not found or doesn't belong to you".

Definition noTasksText : string :=
  "📝 No tasks found. Use 'add <task>' to create your first task!".

(** One line of the plain task list: [fmt.Sprintf("%d. %s %s", id, status, content)]. *)
Definition taskLine (row : Z * Task) : string :=
  let status := if done row.2 then "✅" else "❌" in
  Strconv.Itoa row.1 +:+ ". " +:+ status +:+ " " +:+ content row.2.

(** * [src/chat/chat.go] *)
Module Plain.

Record ChatRequest := { Request_Message : Message }.

Record ChatResponse := { Response_Text : string }.

Definition addTask (newContent userID : string) (db : DB) : result string * DB :=
  let '(r, db) := QueryRowInsert newContent userID db in
  match r with
  | Err e => (Err e, db)
  | Ok id => (Ok ("✅ Task added with ID: " +:+ Strconv.Itoa id), db)
  end.

Definition listTasks (userID : string) (db : DB) : result string * DB :=
  let '(r, db) := Query userID db in
  match r with
  | Err e => (Err e, db)
  | Ok rows =>
    let tasks := taskLine <$> rows in
    if bool_decide (length tasks = 0%nat) then (Ok noTasksText, db)
    else (Ok ("📋 Your tasks:" +:+ String "010" (Strings.Join tasks (String "010" ""))), db)
  end.

Definition markTaskDone (taskID : Z) (userID : string) (db : DB) : result string * DB :=
  let '(r, db) := Exec (UpdateDone taskID userID) db in
  match r with
  | Err e => (Err e, db)
  | Ok rowsAffected =>
    if rowsAffected =? 0 then (Ok (notFoundText taskID), db)
    else (Ok ("✅ Task " +:+ Strconv.Itoa taskID +:+ " marked as done!"), db)
  end.

Definition usage : string :=
  "Available commands:
• add <task> - Add a new task
• list - List all tasks
• done <id> - Mark task as done".

(** [fmt.Errorf(prefix + ": %w", err)] *)
Definition wrap (prefix : string) (r : result string * DB) : result ChatResponse * DB :=
  match r.1 with
  | Err e => (Err (prefix +:+ ": " +:+ e), r.2)
  | Ok response => (Ok {| Response_Text := response |}, r.2)
  end.

Definition HandleChat (req : ChatRequest) (db : DB) : result ChatResponse * DB :=
  let text := Strings.TrimSpace (Message_Text (Request_Message req)) in
  let userID := resolveUserID (Message_Sender (Request_Message req)) in
  if MatchString addCmd text then
    let matches := FindStringSubmatch addCmd text in
    let taskContent := Strings.TrimSpace (matches !!! 1%nat) in
    wrap "failed to add task" (addTask taskContent userID db)
  else if MatchString listCmd text then
    wrap "failed to list tasks" (listTasks userID db)
  else if MatchString doneCmd text then
    let matches := FindStringSubmatch doneCmd text in
    let taskID := (Strconv.Atoi (matches !!! 1%nat)).1 in
    wrap "failed to mark task as done" (markTaskDone taskID userID db)
  else (Ok {| Response_Text := usage |}, db).

End Plain.

(** ** Card actions and cards (both files of [src/unnamed/part_000]) *)

Record Param := { Param_Key : string; Param_Value : string }.

Record Action := {
  Action_MethodName : string;
  Action_Parameters : list Param
}.

Record ChatRequest := {
  Request_Message : Message;
  Request_Action : option Action
}.

Record CardAction := {
  CardAction_MethodName : string;
  CardAction_Parameters : gmap string string
}.

Record OnClick := { OnClick_Action : CardAction }.

Record TextButton := { TextButton_Text : string; TextButton_OnClick : OnClick }.

Record Button := { Button_TextButton : option TextButton }.

Record ButtonList := { ButtonList_Buttons : list Button }.

Record TextParagraph := { TextParagraph_Text : string }.

Record TextInput := {
  TextInput_Name : string;
  TextInput_Label : string;
  TextInput_Type : string;
  TextInput_Value : string;
  TextInput_OnChangeAction : OnClick
}.

Inductive Divider := MkDivider.

Record Widget := {
  Widget_TextParagraph : option TextParagraph;
  Widget_ButtonList : option ButtonList;
  Widget_Divider : option Divider;
  Widget_TextInput : option TextInput
}.

Record CardSection := { CardSection_Widgets : list Widget }.

Record CardHeader := { CardHeader_Title : string; CardHeader_Subtitle : string }.

Record Card := { Card_Header : option CardHeader; Card_Sections : list CardSection }.

Record ChatResponse := { Response_Text : string; Response_Cards : list Card }.

Definition textResponse (s : string) : ChatResponse :=
  {| Response_Text := s; Response_Cards := [] |}.

Definition cardsResponse (cs : list Card) : ChatResponse :=
  {| Response_Text := ""; Response_Cards := cs |}.

Definition paragraphWidget (s : string) : Widget :=
  {| Widget_TextParagraph := Some {| TextParagraph_Text := s |};
     Widget_ButtonList := None; Widget_Divider := None; Widget_TextInput := None |}.

Definition dividerWidget : Widget :=
  {| Widget_TextParagraph := None; Widget_ButtonList := None;
     Widget_Divider := Some MkDivider; Widget_TextInput := None |}.

Definition buttonsWidget (bs : list Button) : Widget :=
  {| Widget_TextParagraph := None;
     Widget_ButtonList := Some {| ButtonList_Buttons := bs |};
     Widget_Divider := None; Widget_TextInput := None |}.

Definition inputWidget (i : TextInput) : Widget :=
  {| Widget_TextParagraph := None; Widget_ButtonList := None;
     Widget_Divider := None; Widget_TextInput := Some i |}.

Definition onClick (method : string) (params : gmap string string) : OnClick :=
  {| OnClick_Action :=
       {| CardAction_MethodName := method; CardAction_Parameters := params |} |}.

Definition textButton (label method : string) (params : gmap string string) : Button :=
  {| Button_TextButton :=
       Some {| TextButton_Text := label;
               TextButton_OnClick := onClick method params |} |}.

(** [map[string]string{"taskId": strconv.Itoa(taskID)}] *)
Definition taskIdParams (taskID : Z) : gmap string string :=
  {[ "taskId" := Strconv.Itoa taskID ]}.

(** The parameter loop of [handleCardAction]: a later entry with the same
    key overwrites an earlier one. *)
Definition collectParams (ps : list Param) : gmap string string :=
  foldl (λ params param, <[Param_Key param := Param_Value param]> params) ∅ ps.

(** [params[key]]: the zero value for a missing key. *)
Definition param (params : gmap string string) (key : string) : string :=
  default "" (params !! key).

Definition invalidActionText : string := "❌ Invalid action".
Definition invalidTaskIDText : string := "❌ Invalid task ID".
Definition unknownActionText : string := "❌ Unknown action".
Definition emptyContentText : string := "❌ Task content cannot be empty".

(** [return nil, fmt.Errorf(prefix + ": %w", err)] on failure, the response
    itself otherwise. *)
Definition wrapErr (prefix : string) (r : result ChatResponse * DB) : result ChatResponse * DB :=
  match r.1 with
  | Err e => (Err (prefix +:+ ": " +:+ e), r.2)
  | Ok response => (Ok response, r.2)
  end.

(** * [src/unnamed/part_000], first file: replies as cards *)
Module Cards.

Definition createTaskButtons (taskID : Z) (isDone : bool) : list Button :=
  let buttons := [] in
  let buttons :=
    if negb isDone
    then buttons ++ [textButton "Mark as Done" "markDone" (taskIdParams taskID)]
    else buttons in
  let buttons := buttons ++ [textButton "Edit" "editTask" (taskIdParams taskID)] in
  let buttons := buttons ++ [textButton "Delete" "deleteTask" (taskIdParams taskID)] in
  buttons.

(** The body of the loop of [listTasks] that builds one card per task. *)
Definition taskCard (row : Z * Task) : Card :=
  let status := if done row.2 then "✅" else "❌" in
  {| Card_Header :=
       Some {| CardHeader_Title := status +:+ " Task #" +:+ Strconv.Itoa row.1;
               CardHeader_Subtitle := "" |};
     Card_Sections :=
       [ {| CardSection_Widgets :=
              [ paragraphWidget (content row.2);
                dividerWidget;
                buttonsWidget (createTaskButtons row.1 (done row.2)) ] |} ] |}.

Definition listTasks (userID : string) (db : DB) : result ChatResponse * DB :=
  let '(r, db) := Query userID db in
  match r with
  | Err e => (Err e, db)
  | Ok tasks =>
    if bool_decide (length tasks = 0%nat) then (Ok (textResponse noTasksText), db)
    else (Ok (cardsResponse (taskCard <$> tasks)), db)
  end.

Definition markTaskDone (taskID : Z) (userID : string) (db : DB) : result ChatResponse * DB :=
  let '(r, db) := Exec (UpdateDone taskID userID) db in
  match r with
  | Err e => (Err e, db)
  | Ok rowsAffected =>
    if rowsAffected =? 0 then (Ok (textResponse (notFoundText taskID)), db)
    else listTasks userID db
  end.

Definition deleteTask (taskID : Z) (userID : string) (db : DB) : result ChatResponse * DB :=
  let '(r, db) := Exec (DeleteTask taskID userID) db in
  match r with
  | Err e => (Err e, db)
  | Ok rowsAffected =>
    if rowsAffected =? 0 then (Ok (textResponse (notFoundText taskID)), db)
    else listTasks userID db
  end.

Definition editTask (taskID : Z) (newContent userID : string) (db : DB) : result ChatResponse * DB :=
  if bool_decide (newContent = "") then (Ok (textResponse emptyContentText), db)
  else
    let '(r, db) := Exec (UpdateContent newContent taskID userID) db in
    match r with
    | Err e => (Err e, db)
    | Ok rowsAffected =>
      if rowsAffected =? 0 then (Ok (textResponse (notFoundText taskID)), db)
      else listTasks userID db
    end.

Definition editFormCard (taskID : Z) (current : string) : Card :=
  {| Card_Header :=
       Some {| CardHeader_Title := "✏️ Edit Task #" +:+ Strconv.Itoa taskID;
               CardHeader_Subtitle := "" |};
     Card_Sections :=
       [ {| CardSection_Widgets :=
              [ inputWidget
                  {| TextInput_Name := "content";
                     TextInput_Label := "Task content:";
                     TextInput_Type := "SINGLE_LINE";
                     TextInput_Value := current;
                     TextInput_OnChangeAction := onClick "editTask" (taskIdParams taskID) |};
                dividerWidget;
                buttonsWidget
                  [ textButton "Save" "editTask" (taskIdParams taskID);
                    textButton "Cancel" "list" ∅ ] ] |} ] |}.

(** Any error of the row query, a failed round trip included, is answered
    with the not-found text. *)
Definition showEditForm (taskID : Z) (userID : string) (db : DB) : result ChatResponse * DB :=
  let '(r, db) := QueryRowContent taskID userID db in
  match r with
  | Err _ => (Ok (textResponse (notFoundText taskID)), db)
  | Ok current => (Ok (cardsResponse [editFormCard taskID current]), db)
  end.

Definition addedCard (id : Z) (newContent : string) : Card :=
  {| Card_Header :=
       Some {| CardHeader_Title := "✅ Task Added";
               CardHeader_Subtitle := "Task ID: " +:+ Strconv.Itoa id |};
     Card_Sections :=
       [ {| CardSection_Widgets :=
              [ paragraphWidget newContent;
                dividerWidget;
                buttonsWidget
                  [ textButton "Mark as Done" "markDone" (taskIdParams id);
                    textButton "Delete" "deleteTask" (taskIdParams id) ] ] |} ] |}.

Definition addTask (newContent userID : string) (db : DB) : result ChatResponse * DB :=
  let '(r, db) := QueryRowInsert newContent userID db in
  match r with
  | Err e => (Err e, db)
  | Ok id => (Ok (cardsResponse [addedCard id newContent]), db)
  end.

Definition handleCardAction (req : ChatRequest) (db : DB) : result ChatResponse * DB :=
  match Request_Action req with
  | None => (Ok (textResponse invalidActionText), db)
  | Some action =>
    let userID := resolveUserID (Message_Sender (Request_Message req)) in
    let params := collectParams (Action_Parameters action) in
    let method := Action_MethodName action in
    if bool_decide (method = "markDone") then
      let taskIDStr := param params "taskId" in
      let '(taskID, err) := Strconv.Atoi taskIDStr in
      match err with
      | Some _ => (Ok (textResponse invalidTaskIDText), db)
      | None => markTaskDone taskID userID db
      end
    else if bool_decide (method = "deleteTask") then
      let taskIDStr := param params "taskId" in
      let '(taskID, err) := Strconv.Atoi taskIDStr in
      match err with
      | Some _ => (Ok (textResponse invalidTaskIDText), db)
      | None => deleteTask taskID userID db
      end
    else if bool_decide (method = "editTask") then
      let taskIDStr := param params "taskId" in
      let '(taskID, err) := Strconv.Atoi taskIDStr in
      match err with
      | Some _ => (Ok (textResponse invalidTaskIDText), db)
      | None =>
        let newContent := param params "content" in
        if negb (bool_decide (newContent = "")) then editTask taskID newContent userID db
        else showEditForm taskID userID db
      end
    else if bool_decide (method = "list") then listTasks userID db
    else (Ok (textResponse unknownActionText), db)
  end.

Definition HandleCardAction (req : ChatRequest) (db : DB) : result ChatResponse * DB :=
  handleCardAction req db.

Definition usage : string :=
  "Available commands:
• add <task> - Add a new task
• list - List all tasks
• done <id> - Mark task as done".

Definition HandleChat (req : ChatRequest) (db : DB) : result ChatResponse * DB :=
  match Request_Action req with
  | Some _ => handleCardAction req db
  | None =>
    let text := Strings.TrimSpace (Message_Text (Request_Message req)) in
    let userID := resolveUserID (Message_Sender (Request_Message req)) in
    if MatchString addCmd text then
      let matches := FindStringSubmatch addCmd text in
      let taskContent := Strings.TrimSpace (matches !!! 1%nat) in
      wrapErr "failed to add task" (addTask taskContent userID db)
    else if MatchString listCmd text then
      wrapErr "failed to list tasks" (listTasks userID db)
    else if MatchString doneCmd text then
      let matches := FindStringSubmatch doneCmd text in
      let taskID := (Strconv.Atoi (matches !!! 1%nat)).1 in
      wrapErr "failed to mark task as done" (markTaskDone taskID userID db)
    else (Ok (textResponse usage), db)
  end.

End Cards.

(** * [src/unnamed/part_000], second file: text replies, [edit] and [test] *)
Module Text.

Definition listTasks (userID : string) (db : DB) : result ChatResponse * DB :=
  let '(r, db) := Query userID db in
  match r with
  | Err e => (Err e, db)
  | Ok rows =>
    let tasks := taskLine <$> rows in
    if bool_decide (length tasks = 0%nat) then (Ok (textResponse noTasksText), db)
    else
      (Ok (textResponse
             ("📋 Your tasks:" +:+ String "010" (Strings.Join tasks (String "010" "")))),
       db)
  end.

Definition markTaskDone (taskID : Z) (userID : string) (db : DB) : result ChatResponse * DB :=
  let '(r, db) := Exec (UpdateDone taskID userID) db in
  match r with
  | Err e => (Err e, db)
  | Ok rowsAffected =>
    if rowsAffected =? 0 then (Ok (textResponse (notFoundText taskID)), db)
    else
      (Ok (textResponse ("✅ Task " +:+ Strconv.Itoa taskID +:+ " marked as done!")), db)
  end.

Definition deleteTask (taskID : Z) (userID : string) (db : DB) : result ChatResponse * DB :=
  let '(r, db) := Exec (DeleteTask taskID userID) db in
  match r with
  | Err e => (Err e, db)
  | Ok rowsAffected =>
    if rowsAffected =? 0 then (Ok (textResponse (notFoundText taskID)), db)
    else (Ok (textResponse ("🗑️ Task " +:+ Strconv.Itoa taskID +:+ " deleted!")), db)
  end.

Definition editTask (taskID : Z) (newContent userID : string) (db : DB) : result ChatResponse * DB :=
  if bool_decide (newContent = "") then (Ok (textResponse emptyContentText), db)
  else
    let '(r, db) := Exec (UpdateContent newContent taskID userID) db in
    match r with
    | Err e => (Err e, db)
    | Ok rowsAffected =>
      if rowsAffected =? 0 then (Ok (textResponse (notFoundText taskID)), db)
      else
        (Ok (textResponse
               ("✏️ Task " +:+ Strconv.Itoa taskID +:+ " updated to: " +:+ newContent)),
         db)
    end.

Definition editFormText (taskID : Z) (current : string) : string :=
  "✏️ Edit Task #" +:+ Strconv.Itoa taskID +:+ String "010" "Current content: "
  +:+ current +:+ String "010" (String "010" "To edit this task, use the command:")
  +:+ String "010" "edit " +:+ Strconv.Itoa taskID +:+ " <new content>".

Definition showEditForm (taskID : Z) (userID : string) (db : DB) : result ChatResponse * DB :=
  let '(r, db) := QueryRowContent taskID userID db in
  match r with
  | Err _ => (Ok (textResponse (notFoundText taskID)), db)
  | Ok current => (Ok (textResponse (editFormText taskID current)), db)
  end.

Definition addTask (newContent userID : string) (db : DB) : result ChatResponse * DB :=
  let '(r, db) := QueryRowInsert newContent userID db in
  match r with
  | Err e => (Err e, db)
  | Ok id =>
    (Ok (textResponse
           ("✅ Task added with ID: " +:+ Strconv.Itoa id +:+ String "010" "Content: "
            +:+ newContent)),
     db)
  end.

Definition handleCardAction (req : ChatRequest) (db : DB) : result ChatResponse * DB :=
  match Request_Action req with
  | None => (Ok (textResponse invalidActionText), db)
  | Some action =>
    let userID := resolveUserID (Message_Sender (Request_Message req)) in
    let params := collectParams (Action_Parameters action) in
    let method := Action_MethodName action in
    if bool_decide (method = "markDone") then
      let taskIDStr := param params "taskId" in
      let '(taskID, err) := Strconv.Atoi taskIDStr in
      match err with
      | Some _ => (Ok (textResponse invalidTaskIDText), db)
      | None => markTaskDone taskID userID db
      end
    else if bool_decide (method = "deleteTask") then
      let taskIDStr := param params "taskId" in
      let '(taskID, err) := Strconv.Atoi taskIDStr in
      match err with
      | Some _ => (Ok (textResponse invalidTaskIDText), db)
      | None => deleteTask taskID userID db
      end
    else if bool_decide (method = "editTask") then
      let taskIDStr := param params "taskId" in
      let '(taskID, err) := Strconv.Atoi taskIDStr in
      match err with
      | Some _ => (Ok (textResponse invalidTaskIDText), db)
      | None =>
        let newContent := param params "content" in
        if negb (bool_decide (newContent = "")) then editTask taskID newContent userID db
        else showEditForm taskID userID db
      end
    else if bool_decide (method = "list") then listTasks userID db
    else (Ok (textResponse unknownActionText), db)
  end.

Definition HandleCardAction (req : ChatRequest) (db : DB) : result ChatResponse * DB :=
  handleCardAction req db.

Definition testText : string :=
  "🧪 Test command working! The bot is responding correctly.".

Definition usage : string :=
  "Available commands:
• add <task> - Add a new task
• list - List all tasks
• done <id> - Mark task as done
• edit <id> <new content> - Edit a task
• test - Test bot functionality".

Definition HandleChat (req : ChatRequest) (db : DB) : result ChatResponse * DB :=
  match Request_Action req with
  | Some _ => handleCardAction req db
  | None =>
    let text := Strings.TrimSpace (Message_Text (Request_Message req)) in
    let userID := resolveUserID (Message_Sender (Request_Message req)) in
    if MatchString addCmd text then
      let matches := FindStringSubmatch addCmd text in
      let taskContent := Strings.TrimSpace (matches !!! 1%nat) in
      wrapErr "failed to add task" (addTask taskContent userID db)
    else if MatchString listCmd text then
      wrapErr "failed to list tasks" (listTasks userID db)
    else if MatchString doneCmd text then
      let matches := FindStringSubmatch doneCmd text in
      let taskID := (Strconv.Atoi (matches !!! 1%nat)).1 in
      wrapErr "failed to mark task as done" (markTaskDone taskID userID db)
    else if MatchString editCmd text then
      let matches := FindStringSubmatch editCmd text in
      let taskID := (Strconv.Atoi (matches !!! 1%nat)).1 in
      let newContent := Strings.TrimSpace (matches !!! 2%nat) in
      wrapErr "failed to edit task" (editTask taskID newContent userID db)
    else if MatchString testCmd text then (Ok (textResponse testText), db)
    else (Ok (textResponse usage), db)
  end.

(** The classification [HandleChat] performs on the trimmed text, as a
    value: which branch of the [switch] is taken and with which arguments. *)
Inductive Intent :=
| Add (taskContent : string)
| List
| Done (taskID : Z)
| Edit (taskID : Z) (newContent : string)
| Test
| Help.

Definition classify (text : string) : Intent :=
  if MatchString addCmd text then
    Add (Strings.TrimSpace (FindStringSubmatch addCmd text !!! 1%nat))
  else if MatchString listCmd text then List
  else if MatchString doneCmd text then
    Done (Strconv.Atoi (FindStringSubmatch doneCmd text !!! 1%nat)).1
  else if MatchString editCmd text then
    Edit (Strconv.Atoi (FindStringSubmatch editCmd text !!! 1%nat)).1
         (Strings.TrimSpace (FindStringSubmatch editCmd text !!! 2%nat))
  else if MatchString testCmd text then Test
  else Help.

(** What [HandleChat] does once the branch is chosen. *)
Definition perform (i : Intent) (userID : string) (db : DB) : result ChatResponse * DB :=
  match i with
  | Add taskContent => wrapErr "failed to add task" (addTask taskContent userID db)
  | List => wrapErr "failed to list tasks" (listTasks userID db)
  | Done taskID => wrapErr "failed to mark task as done" (markTaskDone taskID userID db)
  | Edit taskID newContent =>
      wrapErr "failed to edit task" (editTask taskID newContent userID db)
  | Test => (Ok (textResponse testText), db)
  | Help => (Ok (textResponse usage), db)
  end.

End Text.

(** * Vocabulary of the statements below *)

(** The owner-scoped store operations of section 4.3 of the design, as the
    handlers of each revision implement them. *)
Inductive StoreCall :=
| CallList
| CallSetDone (taskID : Z)
| CallDelete (taskID : Z)
| CallEdit (taskID : Z) (newContent : string)
| CallReadContent (taskID : Z).

Definition callCards (c : StoreCall) (userID : string) (db : DB) : result ChatResponse * DB :=
  match c with
  | CallList => Cards.listTasks userID db
  | CallSetDone taskID => Cards.markTaskDone taskID userID db
  | CallDelete taskID => Cards.deleteTask taskID userID db
  | CallEdit taskID newContent => Cards.editTask taskID newContent userID db
  | CallReadContent taskID => Cards.showEditForm taskID userID db
  end.

Definition callText (c : StoreCall) (userID : string) (db : DB) : result ChatResponse * DB :=
  match c with
  | CallList => Text.listTasks userID db
  | CallSetDone taskID => Text.markTaskDone taskID userID db
  | CallDelete taskID => Text.deleteTask taskID userID db
  | CallEdit taskID newContent => Text.editTask taskID newContent userID db
  | CallReadContent taskID => Text.showEditForm taskID userID db
  end.

(** The verdict of the environment on the next statement. *)
Definition next_fault (db : DB) : option string := mjoin (head (faults db)).

(** The row [taskID] exists and belongs to [userID]. *)
Definition owned (db : DB) (taskID : Z) (userID : string) : Prop :=
  ∃ r, tasks db !! taskID = Some r ∧ user_id r = userID.

(** The rows of one owner. *)
Definition own (userID : string) (t : gmap Z Task) : gmap Z Task :=
  filter (where_user userID) t.

(** Two databases that differ at most in the rows of other owners and in
    what was journalled. *)
Definition agree (userID : string) (db1 db2 : DB) : Prop :=
  own userID (tasks db1) = own userID (tasks db2)
  ∧ faults db1 = faults db2.

(** The row and the owner a statement of [Exec] names, and what it does to
    a row it matches ([None]: the row is removed). *)
Definition target (q : ExecStmt) : Z * string :=
  match q with
  | UpdateDone taskID userID => (taskID, userID)
  | DeleteTask taskID userID => (taskID, userID)
  | UpdateContent _ taskID userID => (taskID, userID)
  end.

Definition effect (q : ExecStmt) (r : Task) : option Task :=
  match q with
  | UpdateDone _ _ => Some (set_done r)
  | DeleteTask _ _ => None
  | UpdateContent c _ _ => Some (set_content c r)
  end.

(** The number a string of decimal digits denotes, read left to right
    from the accumulator [n]. *)
Fixpoint decimal (s : string) (n : Z) : Z :=
  match s with
  | EmptyString => n
  | String c s' => decimal s' (n * 10 + (code c - 48))
  end.

(** The three ways a call can end that section 7 of the design tells
    apart, read off a result given the not-found reply [nf]. *)
Inductive Outcome := Success | NotFound | Failure.

Definition reports {R : Type} (nf : R) (r : result R) (o : Outcome) : Prop :=
  match o with
  | Success => ∃ resp, r = Ok resp ∧ resp ≠ nf
  | NotFound => r = Ok nf
  | Failure => ∃ e, r = Err e
  end.

(** A database for the examples: task 1 of alice, task 2 of bob (done). *)
Definition sampleDB : DB :=
  {| tasks := {[ 1 := {| content := "Buy milk"; done := false; user_id := "alice" |};
                 2 := {| content := "Call mum"; done := true; user_id := "bob" |} ]};
     serial := 3; faults := []; journal := [] |}.

(** A database in which bob owns the task with the largest id an [int]
    can hold. *)
Definition maxIdDB : DB :=
  {| tasks := {[ 9223372036854775807 :=
                   {| content := "Water plants"; done := false; user_id := "bob" |} ]};
     serial := 1; faults := []; journal := [] |}.

Definition sender (name email : string) : Sender :=
  {| Sender_Name := name; Sender_Email := email |}.

Definition textRequest (text : string) (s : Sender) : ChatRequest :=
  {| Request_Message := {| Message_Text := text; Message_Sender := s |};
     Request_Action := None |}.

Definition actionRequest (method : string) (ps : list (string * string)) (s : Sender) : ChatRequest :=
  {| Request_Message := {| Message_Text := ""; Message_Sender := s |};
     Request_Action :=
       Some {| Action_MethodName := method;
               Action_Parameters :=
                 (λ kv, {| Param_Key := kv.1; Param_Value := kv.2 |}) <$> ps |} |}.

(** The shape every variant of [markTaskDone], [deleteTask] and (after its
    guard) [editTask] has: run the statement, hand a failure on, answer
    [nf] when no row was affected, and continue with [k] otherwise. *)
Definition guarded {R : Type} (q : ExecStmt) (nf : R) (k : DB → result R * DB)
    (db : DB) : result R * DB :=
  let '(r, db) := Exec q db in
  match r with
  | Err e => (Err e, db)
  | Ok rowsAffected => if rowsAffected =? 0 then (Ok nf, db) else k db
  end.

(** What it means for a pattern to match the text [m], independently of
    the matcher: [caps] are the groups closed before, [caps'] after. *)
Fixpoint denotes (r : Regexp) (m : string) (caps caps' : list string) : Prop :=
  match r with
  | Lit p => m = p ∧ caps' = caps
  | Plus cls => m ≠ "" ∧ all_chars cls m = true ∧ caps' = caps
  | Group r1 => ∃ caps1, denotes r1 m caps caps1 ∧ caps' = caps1 ++ [m]
  | Concat r1 r2 =>
    ∃ m1 m2 caps1,
      m = m1 +:+ m2 ∧ denotes r1 m1 caps caps1 ∧ denotes r2 m2 caps1 caps'
  end.

(** A handler run for [userID] does not look at the rows of the other
    owners ([blind]: equal replies on databases that agree on the rows of
    [userID]) and does not change them ([keeps_foreign]). *)
Definition blind {R : Type} (userID : string) (f : DB → result R * DB) : Prop :=
  ∀ db1 db2, agree userID db1 db2 →
    (f db1).1 = (f db2).1 ∧ agree userID (f db1).2 (f db2).2.

Definition keeps_foreign {R : Type} (userID : string) (f : DB → result R * DB) : Prop :=
  ∀ db i r, tasks db !! i = Some r → user_id r ≠ userID →
    tasks (f db).2 !! i = Some r.

Definition ownedb (db : DB) (taskID : Z) (userID : string) : bool :=
  match tasks db !! taskID with
  | Some r => bool_decide (user_id r = userID)
  | None => false
  end.

(** How a call that issues one statement must end, and how one that goes
    on to list the tasks after a successful statement must end. *)
Definition expected (db : DB) (taskID : Z) (userID : string) : Outcome :=
  match next_fault db with
  | Some _ => Failure
  | None => if ownedb db taskID userID then Success else NotFound
  end.

Definition expectedThenList (db : DB) (taskID : Z) (userID : string) : Outcome :=
  match next_fault db with
  | Some _ => Failure
  | None =>
    if ownedb db taskID userID then
      match mjoin (head (tail (faults db))) with
      | Some _ => Failure
      | None => Success
      end
    else NotFound
  end.

(** ** Vocabulary of the further properties *)

(** Every id in the table was issued by the sequence. *)
Definition issued (db : DB) : Prop :=
  ∀ i r, tasks db !! i = Some r → i < serial db.

(** No task has empty content. *)
Definition contentful (db : DB) : Prop :=
  ∀ i r, tasks db !! i = Some r → content r ≠ "".

(** The statements sent between [db] and [db']. *)
Definition sent (db db' : DB) (l : list Stmt) : Prop :=
  journal db' = journal db ++ l.

(** From [db] to [db'] the sequence did not go back, and a row that is
    new has an id the sequence issued in between. *)
Definition extends (db db' : DB) : Prop :=
  serial db ≤ serial db'
  ∧ ∀ i, is_Some (tasks db' !! i) →
      is_Some (tasks db !! i) ∨ serial db ≤ i < serial db'.

(** What handling one request may do to the database: send at most [n]
    statements, issue new ids from the sequence only, and leave the table
    alone when the first statement fails. *)
Definition step (n : nat) (db db' : DB) : Prop :=
  extends db db'
  ∧ (∃ l, sent db db' l ∧ (length l ≤ n)%nat)
  ∧ (∀ e, next_fault db = Some e → tasks db' = tasks db).

(** The example database at a moment when the store cannot be reached. *)
Definition unreachableDB : DB :=
  {| tasks := tasks sampleDB; serial := serial sampleDB;
     faults := [Some "connection refused"]; journal := [] |}.

(** One round of the loop of [trimWith]: the text after a leading
    white-space rune, if there is one. *)
Definition leading (p2 : ascii → ascii → bool)
    (p3 : ascii → ascii → ascii → bool) (s : string) : option string :=
  match s with
  | EmptyString => None
  | String c s1 =>
    if Strings.asciiSpace c then Some s1
    else
      match s1 with
      | EmptyString => None
      | String d s2 =>
        if p2 c d then Some s2
        else
          match s2 with
          | EmptyString => None
          | String e s3 => if p3 c d e then Some s3 else None
          end
      end
  end.

(** [leading] for the runes as [TrimSpace] meets them from the front and
    from the back. *)
Abbreviation fwd := (leading Strings.space2 Strings.space3).
Abbreviation bwd :=
  (leading (λ c d, Strings.space2 d c) (λ c d e, Strings.space3 e d c)).

(** All the buttons a card shows. *)
Definition cardButtons (c : Card) : list Button :=
  s ← Card_Sections c;
  w ← CardSection_Widgets s;
  match Widget_ButtonList w with
  | Some bl => ButtonList_Buttons bl
  | None => []
  end.

(** Between [db] and [db'] no task was created: the sequence stands where
    it stood and no id is in the table that was not there. *)
Definition creates_none (db db' : DB) : Prop :=
  serial db' = serial db ∧ dom (tasks db') ⊆ dom (tasks db).

(** Between [db] and [db'] at most one task was created, under the id the
    sequence issued, and the sequence moved on by one if it issued one. *)
Definition creates_at_most_one (db db' : DB) : Prop :=
  creates_none db db'
  ∨ serial db' = serial db + 1 ∧ dom (tasks db') ⊆ dom (tasks db) ∪ {[serial db]}.


(** * Proofs *)

#[local] Set Warnings "-clear-no-such-hyp".

(** ** The statements on the table *)

Lemma filter_where_id_user_hit (t : gmap Z Task) taskID userID r :
  t !! taskID = Some r → user_id r = userID →
  filter (where_id_user taskID userID) t = {[ taskID := r ]}.
Proof.
  intros Hr Hu. apply map_eq; intros j. apply option_eq; intros x.
  rewrite map_lookup_filter_Some, lookup_singleton_Some.
  unfold where_id_user; simpl. naive_solver.
Qed.

Lemma filter_where_id_user_miss (t : gmap Z Task) taskID userID :
  (∀ r, t !! taskID = Some r → user_id r ≠ userID) →
  filter (where_id_user taskID userID) t = ∅.
Proof.
  intros Hmiss. apply map_eq; intros j. apply option_eq; intros x.
  rewrite map_lookup_filter_Some, lookup_empty.
  unfold where_id_user; simpl. naive_solver.
Qed.

Lemma sql_update_hit (t : gmap Z Task) taskID userID set r :
  t !! taskID = Some r → user_id r = userID →
  sql_update (where_id_user taskID userID) set t = (<[taskID := set r]> t, 1).
Proof.
  intros Hr Hu. unfold sql_update. f_equal.
  - apply map_eq; intros j. rewrite map_lookup_imap.
    destruct (decide (j = taskID)) as [->|Hne].
    + rewrite lookup_insert_eq, Hr; simpl.
      rewrite decide_True; [done | by split].
    + rewrite lookup_insert_ne by done.
      destruct (t !! j) as [x|] eqn:Hj; simpl; [|done].
      rewrite decide_False; [done | unfold where_id_user; simpl; tauto].
  - by rewrite (filter_where_id_user_hit _ _ _ r), map_size_singleton.
Qed.

Lemma sql_update_miss (t : gmap Z Task) taskID userID set :
  (∀ r, t !! taskID = Some r → user_id r ≠ userID) →
  sql_update (where_id_user taskID userID) set t = (t, 0).
Proof.
  intros Hmiss. unfold sql_update. f_equal.
  - apply map_eq; intros j. rewrite map_lookup_imap.
    destruct (t !! j) as [x|] eqn:Hj; simpl; [|done].
    rewrite decide_False; [done|].
    unfold where_id_user; simpl. intros [-> Hu]. by eapply Hmiss.
  - by rewrite filter_where_id_user_miss, map_size_empty.
Qed.

Lemma sql_delete_hit (t : gmap Z Task) taskID userID r :
  t !! taskID = Some r → user_id r = userID →
  sql_delete (where_id_user taskID userID) t = (delete taskID t, 1).
Proof.
  intros Hr Hu. unfold sql_delete. f_equal.
  - apply map_eq; intros j. apply option_eq; intros x.
    rewrite map_lookup_filter_Some, lookup_delete_Some.
    unfold where_id_user; simpl. split.
    + intros [Hj Hn]. split; [|done]. intros ->. apply Hn. split; [done|congruence].
    + intros [Hne Hj]. split; [done|]. intros [? _]. congruence.
  - by rewrite (filter_where_id_user_hit _ _ _ r), map_size_singleton.
Qed.

Lemma sql_delete_miss (t : gmap Z Task) taskID userID :
  (∀ r, t !! taskID = Some r → user_id r ≠ userID) →
  sql_delete (where_id_user taskID userID) t = (t, 0).
Proof.
  intros Hmiss. unfold sql_delete. f_equal.
  - apply map_eq; intros j. apply option_eq; intros x.
    rewrite map_lookup_filter_Some.
    unfold where_id_user; simpl. split; [tauto|].
    intros Hj. split; [done|]. intros [-> Hu]. by eapply Hmiss.
  - by rewrite filter_where_id_user_miss, map_size_empty.
Qed.

Lemma run_exec_hit q (t : gmap Z Task) r :
  t !! (target q).1 = Some r → user_id r = (target q).2 →
  run_exec q t =
    (match effect q r with
     | Some r' => <[(target q).1 := r']> t
     | None => delete (target q).1 t
     end, 1).
Proof.
  destruct q; simpl; intros Hr Hu;
    eauto using sql_update_hit, sql_delete_hit.
Qed.

Lemma run_exec_miss q (t : gmap Z Task) :
  (∀ r, t !! (target q).1 = Some r → user_id r ≠ (target q).2) →
  run_exec q t = (t, 0).
Proof.
  destruct q; simpl; intros Hmiss;
    eauto using sql_update_miss, sql_delete_miss.
Qed.

Lemma not_owned_miss db taskID userID :
  ¬ owned db taskID userID →
  ∀ r, tasks db !! taskID = Some r → user_id r ≠ userID.
Proof. intros Hno r Hr Hu. apply Hno. by exists r. Qed.

Lemma owned_dec db taskID userID :
  owned db taskID userID ∨ ¬ owned db taskID userID.
Proof.
  unfold owned. destruct (tasks db !! taskID) as [r|] eqn:Hr.
  - destruct (decide (user_id r = userID)); [left; by exists r|].
    right. intros (r' & [= <-] & ?). done.
  - right. intros (r' & [=] & ?).
Qed.

Lemma Exec_fault q db e :
  next_fault db = Some e → Exec q db = (Err e, (send (SExec q) db).2).
Proof. unfold Exec, send, next_fault. simpl. by intros ->. Qed.

Lemma Exec_hit q db r :
  next_fault db = None →
  tasks db !! (target q).1 = Some r → user_id r = (target q).2 →
  Exec q db =
    (Ok 1,
     with_tasks (match effect q r with
                 | Some r' => <[(target q).1 := r']> (tasks db)
                 | None => delete (target q).1 (tasks db)
                 end) (send (SExec q) db).2).
Proof.
  unfold Exec, send, next_fault. simpl. intros -> Hr Hu.
  by rewrite (run_exec_hit q _ r).
Qed.

Lemma Exec_miss q db :
  next_fault db = None →
  (∀ r, tasks db !! (target q).1 = Some r → user_id r ≠ (target q).2) →
  Exec q db = (Ok 0, (send (SExec q) db).2).
Proof.
  unfold Exec, send, next_fault. simpl. intros -> Hmiss.
  by rewrite run_exec_miss.
Qed.

Lemma Exec_tasks_fault q db e :
  next_fault db = Some e → tasks (Exec q db).2 = tasks db.
Proof. intros H. by rewrite (Exec_fault _ _ e). Qed.

Section guarded.
Context {R : Type} (q : ExecStmt) (nf : R) (k : DB → result R * DB).

Lemma guarded_fault db e :
  next_fault db = Some e → guarded q nf k db = (Err e, (send (SExec q) db).2).
Proof. intros H. unfold guarded. by rewrite (Exec_fault _ _ e). Qed.

Lemma guarded_hit db r :
  next_fault db = None →
  tasks db !! (target q).1 = Some r → user_id r = (target q).2 →
  guarded q nf k db =
    k (with_tasks (match effect q r with
                   | Some r' => <[(target q).1 := r']> (tasks db)
                   | None => delete (target q).1 (tasks db)
                   end) (send (SExec q) db).2).
Proof. intros H Hr Hu. unfold guarded. by rewrite (Exec_hit _ _ r). Qed.

Lemma guarded_miss db :
  next_fault db = None →
  (∀ r, tasks db !! (target q).1 = Some r → user_id r ≠ (target q).2) →
  guarded q nf k db = (Ok nf, (send (SExec q) db).2).
Proof. intros H Hm. unfold guarded. by rewrite Exec_miss. Qed.

End guarded.

Lemma Plain_markTaskDone_guarded taskID userID :
  Plain.markTaskDone taskID userID =
  guarded (UpdateDone taskID userID) (notFoundText taskID)
    (λ db, (Ok ("✅ Task " +:+ Strconv.Itoa taskID +:+ " marked as done!"), db)).
Proof. reflexivity. Qed.

Lemma Text_markTaskDone_guarded taskID userID :
  Text.markTaskDone taskID userID =
  guarded (UpdateDone taskID userID) (textResponse (notFoundText taskID))
    (λ db, (Ok (textResponse ("✅ Task " +:+ Strconv.Itoa taskID +:+ " marked as done!")), db)).
Proof. reflexivity. Qed.

Lemma Text_deleteTask_guarded taskID userID :
  Text.deleteTask taskID userID =
  guarded (DeleteTask taskID userID) (textResponse (notFoundText taskID))
    (λ db, (Ok (textResponse ("🗑️ Task " +:+ Strconv.Itoa taskID +:+ " deleted!")), db)).
Proof. reflexivity. Qed.

Lemma Text_editTask_guarded taskID newContent userID :
  newContent ≠ "" →
  Text.editTask taskID newContent userID =
  guarded (UpdateContent newContent taskID userID) (textResponse (notFoundText taskID))
    (λ db, (Ok (textResponse ("✏️ Task " +:+ Strconv.Itoa taskID +:+ " updated to: "
                              +:+ newContent)), db)).
Proof. intros Hne. unfold Text.editTask. by rewrite bool_decide_eq_false_2. Qed.

Lemma Cards_markTaskDone_guarded taskID userID :
  Cards.markTaskDone taskID userID =
  guarded (UpdateDone taskID userID) (textResponse (notFoundText taskID))
    (Cards.listTasks userID).
Proof. reflexivity. Qed.

Lemma Cards_deleteTask_guarded taskID userID :
  Cards.deleteTask taskID userID =
  guarded (DeleteTask taskID userID) (textResponse (notFoundText taskID))
    (Cards.listTasks userID).
Proof. reflexivity. Qed.

Lemma Cards_editTask_guarded taskID newContent userID :
  newContent ≠ "" →
  Cards.editTask taskID newContent userID =
  guarded (UpdateContent newContent taskID userID) (textResponse (notFoundText taskID))
    (Cards.listTasks userID).
Proof. intros Hne. unfold Cards.editTask. by rewrite bool_decide_eq_false_2. Qed.

(** ** Rows of other owners *)

Lemma own_lookup_Some userID (t : gmap Z Task) i r :
  own userID t !! i = Some r ↔ t !! i = Some r ∧ user_id r = userID.
Proof. unfold own. by rewrite map_lookup_filter_Some. Qed.

Lemma own_insert userID (t : gmap Z Task) i r :
  user_id r = userID → own userID (<[i := r]> t) = <[i := r]> (own userID t).
Proof. intros Hu. unfold own. by rewrite map_filter_insert_True. Qed.

Lemma own_delete userID (t : gmap Z Task) i :
  own userID (delete i t) = delete i (own userID t).
Proof. unfold own. by rewrite map_filter_delete. Qed.

Lemma own_insert_foreign userID (t : gmap Z Task) i r r' :
  t !! i = Some r → user_id r ≠ userID → user_id r' ≠ userID →
  own userID (<[i := r']> t) = own userID t.
Proof.
  intros Hr Hu Hu'. apply map_eq; intros j. apply option_eq; intros x.
  rewrite !own_lookup_Some.
  destruct (decide (j = i)) as [->|Hne].
  - rewrite lookup_insert_eq, Hr. naive_solver.
  - by rewrite lookup_insert_ne.
Qed.

Lemma own_delete_foreign userID (t : gmap Z Task) i r :
  t !! i = Some r → user_id r ≠ userID →
  own userID (delete i t) = own userID t.
Proof.
  intros Hr Hu. apply map_eq; intros j. apply option_eq; intros x.
  rewrite !own_lookup_Some.
  destruct (decide (j = i)) as [->|Hne].
  - rewrite lookup_delete_eq, Hr. naive_solver.
  - by rewrite lookup_delete_ne.
Qed.

Lemma effect_user q r r' : effect q r = Some r' → user_id r' = user_id r.
Proof. destruct q; simpl; by intros [= <-]. Qed.

Lemma agree_next_fault userID db1 db2 :
  agree userID db1 db2 → next_fault db1 = next_fault db2.
Proof. intros [_ Hf]. unfold next_fault. by rewrite Hf. Qed.

Lemma agree_send userID q1 q2 db1 db2 :
  agree userID db1 db2 → agree userID (send q1 db1).2 (send q2 db2).2.
Proof. intros [Ho Hf]. split; simpl; [done | by rewrite Hf]. Qed.

Lemma agree_lookup userID db1 db2 i r :
  agree userID db1 db2 →
  tasks db1 !! i = Some r → user_id r = userID → tasks db2 !! i = Some r.
Proof.
  intros [Ho _] Hr Hu.
  eapply (proj1 (own_lookup_Some userID _ i r)).
  rewrite <- Ho. by apply own_lookup_Some.
Qed.

Lemma agree_sym userID db1 db2 : agree userID db1 db2 → agree userID db2 db1.
Proof. intros [Ho Hf]. by split. Qed.

Lemma Exec_agree q db1 db2 :
  agree (target q).2 db1 db2 →
  (Exec q db1).1 = (Exec q db2).1
  ∧ agree (target q).2 (Exec q db1).2 (Exec q db2).2.
Proof.
  intros Hag. pose proof (agree_next_fault _ _ _ Hag) as Hnf.
  destruct (next_fault db1) as [e|] eqn:Hf1; symmetry in Hnf.
  { rewrite (Exec_fault _ db1 e), (Exec_fault _ db2 e) by done.
    split; [done | by apply agree_send]. }
  destruct (owned_dec db1 (target q).1 (target q).2) as [(r & Hr & Hu)|Hno].
  - pose proof (agree_lookup _ _ _ _ _ Hag Hr Hu) as Hr2.
    rewrite (Exec_hit _ db1 r), (Exec_hit _ db2 r) by done.
    split; [done|]. destruct Hag as [Ho Hfa].
    split; simpl; [|by rewrite Hfa].
    destruct (effect q r) as [r'|] eqn:He.
    + apply effect_user in He.
      rewrite !own_insert by congruence. by rewrite Ho.
    + rewrite !own_delete. by rewrite Ho.
  - assert (¬ owned db2 (target q).1 (target q).2) as Hno2.
    { intros (r & Hr & Hu). apply Hno. exists r. split; [|done].
      eapply agree_lookup; [by apply agree_sym| |]; done. }
    rewrite (Exec_miss _ db1), (Exec_miss _ db2)
      by eauto using not_owned_miss.
    split; [done | by apply agree_send].
Qed.

Lemma Query_agree userID db1 db2 :
  agree userID db1 db2 →
  (Query userID db1).1 = (Query userID db2).1
  ∧ agree userID (Query userID db1).2 (Query userID db2).2.
Proof.
  intros Hag. pose proof (agree_next_fault _ _ _ Hag) as Hnf.
  pose proof (agree_send _ (SSelectTasks userID) (SSelectTasks userID) _ _ Hag) as Hs.
  destruct Hag as [Ho Hfa].
  unfold Query, send in *. fold (next_fault db1) (next_fault db2).
  rewrite <- Hnf. destruct (next_fault db1); simpl in *; [done|].
  split; [|done]. unfold sql_select. fold (own userID (tasks db1)).
  fold (own userID (tasks db2)). by rewrite Ho.
Qed.

Lemma filter_id_user_own taskID userID (t : gmap Z Task) :
  filter (where_id_user taskID userID) t
  = filter (where_id_user taskID userID) (own userID t).
Proof.
  apply map_eq; intros j. apply option_eq; intros x.
  rewrite !map_lookup_filter_Some, own_lookup_Some.
  unfold where_id_user; simpl. naive_solver.
Qed.

Lemma QueryRowContent_agree taskID userID db1 db2 :
  agree userID db1 db2 →
  (QueryRowContent taskID userID db1).1 = (QueryRowContent taskID userID db2).1
  ∧ agree userID (QueryRowContent taskID userID db1).2
                 (QueryRowContent taskID userID db2).2.
Proof.
  intros Hag. pose proof (agree_next_fault _ _ _ Hag) as Hnf.
  pose proof (agree_send _ (SSelectContent taskID userID)
                (SSelectContent taskID userID) _ _ Hag) as Hs.
  destruct Hag as [Ho Hfa].
  unfold QueryRowContent, send in *. fold (next_fault db1) (next_fault db2).
  rewrite <- Hnf. destruct (next_fault db1); simpl in *; [done|].
  unfold sql_select.
  rewrite (filter_id_user_own _ _ (tasks db1)), (filter_id_user_own _ _ (tasks db2)), Ho.
  by destruct (merge_sort _ _).
Qed.

Lemma guarded_blind {R : Type} q (nf : R) k :
  blind (target q).2 k → blind (target q).2 (guarded q nf k).
Proof.
  intros Hk db1 db2 Hag. unfold guarded.
  destruct (Exec_agree q db1 db2 Hag) as [Hr Hd].
  destruct (Exec q db1) as [r1 d1], (Exec q db2) as [r2 d2]; simpl in *.
  subst r2. destruct r1 as [n|e]; [|done].
  destruct (n =? 0); [done | by apply Hk].
Qed.

Lemma Exec_foreign q db i r :
  tasks db !! i = Some r → user_id r ≠ (target q).2 →
  tasks (Exec q db).2 !! i = Some r.
Proof.
  intros Hr Hu.
  destruct (next_fault db) as [e|] eqn:Hf.
  { by rewrite (Exec_fault _ _ e). }
  destruct (owned_dec db (target q).1 (target q).2) as [(r0 & Hr0 & Hu0)|Hno].
  - rewrite (Exec_hit _ _ r0) by done. simpl.
    assert (i ≠ (target q).1) by (intros ->; congruence).
    destruct (effect q r0); by rewrite ?lookup_insert_ne, ?lookup_delete_ne.
  - rewrite Exec_miss by eauto using not_owned_miss. done.
Qed.

Lemma guarded_keeps_foreign {R : Type} q (nf : R) k :
  keeps_foreign (target q).2 k → keeps_foreign (target q).2 (guarded q nf k).
Proof.
  intros Hk db i r Hr Hu. unfold guarded.
  pose proof (Exec_foreign q db i r Hr Hu) as He.
  destruct (Exec q db) as [[n|e] d]; simpl in *; [|done].
  destruct (n =? 0); [done | by apply Hk].
Qed.

Lemma Query_tasks userID db : tasks (Query userID db).2 = tasks db.
Proof. unfold Query, send. simpl. by destruct (mjoin _). Qed.

Lemma QueryRowContent_tasks taskID userID db :
  tasks (QueryRowContent taskID userID db).2 = tasks db.
Proof.
  unfold QueryRowContent, send. simpl.
  destruct (mjoin _); [done|]. by destruct (sql_select _ _).
Qed.

Lemma Cards_listTasks_tasks userID db : tasks (Cards.listTasks userID db).2 = tasks db.
Proof.
  unfold Cards.listTasks. pose proof (Query_tasks userID db) as H.
  destruct (Query userID db) as [[rows|e] d]; simpl in *; [|done].
  by case_bool_decide.
Qed.

Lemma Text_listTasks_tasks userID db : tasks (Text.listTasks userID db).2 = tasks db.
Proof.
  unfold Text.listTasks. pose proof (Query_tasks userID db) as H.
  destruct (Query userID db) as [[rows|e] d]; simpl in *; [|done].
  by case_bool_decide.
Qed.

Lemma Cards_showEditForm_tasks taskID userID db :
  tasks (Cards.showEditForm taskID userID db).2 = tasks db.
Proof.
  unfold Cards.showEditForm. pose proof (QueryRowContent_tasks taskID userID db) as H.
  by destruct (QueryRowContent taskID userID db) as [[c|e] d].
Qed.

Lemma Text_showEditForm_tasks taskID userID db :
  tasks (Text.showEditForm taskID userID db).2 = tasks db.
Proof.
  unfold Text.showEditForm. pose proof (QueryRowContent_tasks taskID userID db) as H.
  by destruct (QueryRowContent taskID userID db) as [[c|e] d].
Qed.

Lemma Cards_listTasks_blind userID : blind userID (Cards.listTasks userID).
Proof.
  intros db1 db2 Hag. unfold Cards.listTasks.
  destruct (Query_agree userID db1 db2 Hag) as [Hr Hd].
  destruct (Query userID db1) as [r1 d1], (Query userID db2) as [r2 d2]; simpl in *.
  subst r2. destruct r1 as [rows|e]; [|done]. by case_bool_decide.
Qed.

Lemma Text_listTasks_blind userID : blind userID (Text.listTasks userID).
Proof.
  intros db1 db2 Hag. unfold Text.listTasks.
  destruct (Query_agree userID db1 db2 Hag) as [Hr Hd].
  destruct (Query userID db1) as [r1 d1], (Query userID db2) as [r2 d2]; simpl in *.
  subst r2. destruct r1 as [rows|e]; [|done]. by case_bool_decide.
Qed.

Lemma Cards_showEditForm_blind taskID userID :
  blind userID (Cards.showEditForm taskID userID).
Proof.
  intros db1 db2 Hag. unfold Cards.showEditForm.
  destruct (QueryRowContent_agree taskID userID db1 db2 Hag) as [Hr Hd].
  destruct (QueryRowContent taskID userID db1) as [r1 d1],
    (QueryRowContent taskID userID db2) as [r2 d2]; simpl in *.
  subst r2. by destruct r1.
Qed.

Lemma Text_showEditForm_blind taskID userID :
  blind userID (Text.showEditForm taskID userID).
Proof.
  intros db1 db2 Hag. unfold Text.showEditForm.
  destruct (QueryRowContent_agree taskID userID db1 db2 Hag) as [Hr Hd].
  destruct (QueryRowContent taskID userID db1) as [r1 d1],
    (QueryRowContent taskID userID db2) as [r2 d2]; simpl in *.
  subst r2. by destruct r1.
Qed.

Lemma const_blind {R : Type} userID (x : R) : blind userID (λ db, (Ok x, db)).
Proof. by intros db1 db2 Hag. Qed.

Lemma const_keeps_foreign {R : Type} userID (x : R) :
  keeps_foreign userID (λ db, (Ok x, db)).
Proof. by intros db i r Hr Hu. Qed.

Lemma callText_blind c userID : blind userID (callText c userID).
Proof.
  destruct c as [|taskID|taskID|taskID newContent|taskID]; unfold callText, callCards.
  - apply Text_listTasks_blind.
  - rewrite Text_markTaskDone_guarded.
    apply (guarded_blind (UpdateDone taskID userID)), const_blind.
  - rewrite Text_deleteTask_guarded.
    apply (guarded_blind (DeleteTask taskID userID)), const_blind.
  - destruct (decide (newContent = "")) as [->|Hne].
    + by intros db1 db2 Hag.
    + rewrite Text_editTask_guarded by done.
      apply (guarded_blind (UpdateContent newContent taskID userID)), const_blind.
  - apply Text_showEditForm_blind.
Qed.

Lemma callCards_blind c userID : blind userID (callCards c userID).
Proof.
  destruct c as [|taskID|taskID|taskID newContent|taskID]; unfold callText, callCards.
  - apply Cards_listTasks_blind.
  - rewrite Cards_markTaskDone_guarded.
    apply (guarded_blind (UpdateDone taskID userID)), Cards_listTasks_blind.
  - rewrite Cards_deleteTask_guarded.
    apply (guarded_blind (DeleteTask taskID userID)), Cards_listTasks_blind.
  - destruct (decide (newContent = "")) as [->|Hne].
    + by intros db1 db2 Hag.
    + rewrite Cards_editTask_guarded by done.
      apply (guarded_blind (UpdateContent newContent taskID userID)),
        Cards_listTasks_blind.
  - apply Cards_showEditForm_blind.
Qed.

Lemma tasks_keeps_foreign {R : Type} userID (f : DB → result R * DB) :
  (∀ db, tasks (f db).2 = tasks db) → keeps_foreign userID f.
Proof. intros H db i r Hr Hu. by rewrite H. Qed.

Lemma callText_keeps_foreign c userID : keeps_foreign userID (callText c userID).
Proof.
  destruct c as [|taskID|taskID|taskID newContent|taskID]; unfold callText, callCards.
  - apply tasks_keeps_foreign, Text_listTasks_tasks.
  - rewrite Text_markTaskDone_guarded.
    apply (guarded_keeps_foreign (UpdateDone taskID userID)), const_keeps_foreign.
  - rewrite Text_deleteTask_guarded.
    apply (guarded_keeps_foreign (DeleteTask taskID userID)), const_keeps_foreign.
  - destruct (decide (newContent = "")) as [->|Hne].
    + by intros db i r Hr Hu.
    + rewrite Text_editTask_guarded by done.
      apply (guarded_keeps_foreign (UpdateContent newContent taskID userID)),
        const_keeps_foreign.
  - apply tasks_keeps_foreign, Text_showEditForm_tasks.
Qed.

Lemma callCards_keeps_foreign c userID : keeps_foreign userID (callCards c userID).
Proof.
  destruct c as [|taskID|taskID|taskID newContent|taskID]; unfold callText, callCards.
  - apply tasks_keeps_foreign, Cards_listTasks_tasks.
  - rewrite Cards_markTaskDone_guarded.
    apply (guarded_keeps_foreign (UpdateDone taskID userID)),
      tasks_keeps_foreign, Cards_listTasks_tasks.
  - rewrite Cards_deleteTask_guarded.
    apply (guarded_keeps_foreign (DeleteTask taskID userID)),
      tasks_keeps_foreign, Cards_listTasks_tasks.
  - destruct (decide (newContent = "")) as [->|Hne].
    + by intros db i r Hr Hu.
    + rewrite Cards_editTask_guarded by done.
      apply (guarded_keeps_foreign (UpdateContent newContent taskID userID)),
        tasks_keeps_foreign, Cards_listTasks_tasks.
  - apply tasks_keeps_foreign, Cards_showEditForm_tasks.
Qed.

(** ** Outcomes of SetDone and Delete *)

Lemma ownedb_true db taskID userID :
  ownedb db taskID userID = true ↔ owned db taskID userID.
Proof.
  unfold ownedb, owned. destruct (tasks db !! taskID) as [r|].
  - rewrite bool_decide_eq_true. naive_solver.
  - naive_solver.
Qed.

Lemma ownedb_false db taskID userID :
  ownedb db taskID userID = false ↔ ¬ owned db taskID userID.
Proof. rewrite <- ownedb_true. by destruct (ownedb _ _ _). Qed.

Lemma reports_exclusive {R : Type} (nf : R) (r : result R) o1 o2 :
  reports nf r o1 → reports nf r o2 → o1 = o2.
Proof.
  destruct o1, o2; simpl; try done; intros H1 H2;
    repeat match goal with
           | H : ∃ _, _ |- _ => destruct H
           | H : _ ∧ _ |- _ => destruct H
           end; simplify_eq; done.
Qed.

Lemma textResponse_inj a b : textResponse a = textResponse b → a = b.
Proof. by intros [= ->]. Qed.

Lemma done_text_ne_notFound taskID :
  "✅ Task " +:+ Strconv.Itoa taskID +:+ " marked as done!" ≠ notFoundText taskID.
Proof. unfold notFoundText. simpl. discriminate. Qed.

Lemma deleted_text_ne_notFound taskID :
  "🗑️ Task " +:+ Strconv.Itoa taskID +:+ " deleted!" ≠ notFoundText taskID.
Proof. unfold notFoundText. simpl. discriminate. Qed.

Lemma updated_text_ne_notFound taskID newContent :
  "✏️ Task " +:+ Strconv.Itoa taskID +:+ " updated to: " +:+ newContent
  ≠ notFoundText taskID.
Proof. unfold notFoundText. simpl. discriminate. Qed.

(** A call that issues one statement and answers with a fixed text on
    success ends as [expected] says. *)
Lemma guarded_const_reports {R : Type} q (nf ok : R) db :
  ok ≠ nf →
  reports nf (guarded q nf (λ d, (Ok ok, d)) db).1
    (expected db (target q).1 (target q).2).
Proof.
  intros Hne. unfold expected.
  destruct (next_fault db) as [e|] eqn:Hf.
  { rewrite (guarded_fault _ _ _ _ e) by done. simpl. by exists e. }
  destruct (ownedb db _ _) eqn:Ho.
  - apply ownedb_true in Ho as (r & Hr & Hu).
    rewrite (guarded_hit _ _ _ _ r) by done. simpl. by exists ok.
  - apply ownedb_false in Ho.
    rewrite guarded_miss by eauto using not_owned_miss. done.
Qed.

Lemma Query_fault userID db e :
  next_fault db = Some e → (Query userID db).1 = Err e.
Proof. unfold Query, send, next_fault. simpl. by intros ->. Qed.

Lemma Query_ok userID db :
  next_fault db = None →
  Query userID db = (Ok (sql_select (where_user userID) (tasks db)),
                     (send (SSelectTasks userID) db).2).
Proof. unfold Query, send, next_fault. simpl. by intros ->. Qed.

(** The list reply of the card revision is never the not-found reply. *)
Lemma Cards_listTasks_reports userID db nfText :
  nfText ≠ noTasksText →
  reports (textResponse nfText) (Cards.listTasks userID db).1
    (match next_fault db with Some _ => Failure | None => Success end).
Proof.
  intros Hne. unfold Cards.listTasks.
  destruct (next_fault db) as [e|] eqn:Hf.
  - pose proof (Query_fault userID db e Hf) as Hq.
    destruct (Query userID db) as [r d]; simpl in *. subst r. by exists e.
  - rewrite Query_ok by done. simpl.
    case_bool_decide as Hlen; simpl.
    + eexists; split; [done|]. intros H%textResponse_inj. by apply Hne.
    + eexists; split; [done|]. unfold cardsResponse, textResponse.
      intros [= _ Hc]. apply Hlen. by destruct (sql_select _ _).
Qed.

Lemma notFound_ne_noTasks taskID : notFoundText taskID ≠ noTasksText.
Proof. unfold notFoundText, noTasksText. simpl. discriminate. Qed.

Lemma guarded_list_reports q db :
  reports (textResponse (notFoundText (target q).1))
    (guarded q (textResponse (notFoundText (target q).1))
       (Cards.listTasks (target q).2) db).1
    (expectedThenList db (target q).1 (target q).2).
Proof.
  unfold expectedThenList.
  destruct (next_fault db) as [e|] eqn:Hf.
  { rewrite (guarded_fault _ _ _ _ e) by done. simpl. by exists e. }
  destruct (ownedb db _ _) eqn:Ho.
  - apply ownedb_true in Ho as (r & Hr & Hu).
    rewrite (guarded_hit _ _ _ _ r) by done.
    pose proof (Cards_listTasks_reports (target q).2
      (with_tasks (match effect q r with
                   | Some r' => <[(target q).1 := r']> (tasks db)
                   | None => delete (target q).1 (tasks db)
                   end) (send (SExec q) db).2)
      (notFoundText (target q).1) (notFound_ne_noTasks _)) as H.
    unfold next_fault in H at 1. simpl in H. exact H.
  - apply ownedb_false in Ho.
    rewrite guarded_miss by eauto using not_owned_miss. done.
Qed.

(** C7. Every SetDone and Delete call of every revision ends in exactly one
    of three ways, fixed by the state it runs in: a failure when the
    statement (or, in the card revision, the listing that follows a
    successful statement) fails, and then the error of the store is the
    error returned; the not-found reply when no row has that id and owner;
    a reply different from it when such a row exists.  The three ways
    exclude each other, and the wrappers of [HandleChat] keep a failure a
    failure. *)
Theorem setDone_delete_outcomes (taskID : Z) (userID : string) (db : DB) :
  let nf := textResponse (notFoundText taskID) in
  reports (notFoundText taskID) (Plain.markTaskDone taskID userID db).1
    (expected db taskID userID)
  ∧ reports nf (Text.markTaskDone taskID userID db).1 (expected db taskID userID)
  ∧ reports nf (Text.deleteTask taskID userID db).1 (expected db taskID userID)
  ∧ reports nf (Cards.markTaskDone taskID userID db).1
      (expectedThenList db taskID userID)
  ∧ reports nf (Cards.deleteTask taskID userID db).1
      (expectedThenList db taskID userID)
  ∧ (∀ e, next_fault db = Some e →
       (Plain.markTaskDone taskID userID db).1 = Err e
       ∧ (Text.markTaskDone taskID userID db).1 = Err e
       ∧ (Text.deleteTask taskID userID db).1 = Err e
       ∧ (Cards.markTaskDone taskID userID db).1 = Err e
       ∧ (Cards.deleteTask taskID userID db).1 = Err e)
  ∧ (∀ (r : result ChatResponse) o1 o2, reports nf r o1 → reports nf r o2 → o1 = o2)
  ∧ (∀ (r : result string) o1 o2,
       reports (notFoundText taskID) r o1 → reports (notFoundText taskID) r o2 → o1 = o2)
  ∧ (∀ prefix e d, (Plain.wrap prefix (Err e, d)).1 = Err (prefix +:+ ": " +:+ e))
  ∧ (∀ prefix e d, (wrapErr prefix (Err e, d)).1 = Err (prefix +:+ ": " +:+ e)).
Proof.
  intros nf. subst nf.
  rewrite Plain_markTaskDone_guarded, Text_markTaskDone_guarded,
    Text_deleteTask_guarded, Cards_markTaskDone_guarded, Cards_deleteTask_guarded.
  split_and!.
  - apply (guarded_const_reports (UpdateDone taskID userID)), done_text_ne_notFound.
  - apply (guarded_const_reports (UpdateDone taskID userID)).
    intros H%textResponse_inj. by apply done_text_ne_notFound in H.
  - apply (guarded_const_reports (DeleteTask taskID userID)).
    intros H%textResponse_inj. by apply deleted_text_ne_notFound in H.
  - apply (guarded_list_reports (UpdateDone taskID userID)).
  - apply (guarded_list_reports (DeleteTask taskID userID)).
  - intros e He. by rewrite !(guarded_fault _ _ _ _ e).
  - intros r o1 o2. apply reports_exclusive.
  - intros r o1 o2. apply reports_exclusive.
  - done.
  - done.
Qed.

(** ** SetDone on a task that is already done *)

Lemma set_done_id r : done r = true → set_done r = r.
Proof. destruct r as [c d u]. simpl. by intros ->. Qed.

Lemma guarded_done_again {R : Type} taskID userID (nf : R) k db r :
  tasks db !! taskID = Some r → user_id r = userID → done r = true →
  next_fault db = None →
  guarded (UpdateDone taskID userID) nf k db
  = k (send (SExec (UpdateDone taskID userID)) db).2.
Proof.
  intros Hr Hu Hd Hf.
  rewrite (guarded_hit _ _ _ _ r) by done. simpl.
  rewrite set_done_id by done. by rewrite insert_id.
Qed.

(** C10. SetDone on a task of the caller that is already done succeeds
    again, it does not answer not-found, and the table is the same
    afterwards, in every revision. *)
Theorem setDone_idempotent (taskID : Z) (userID : string) (db : DB) (r : Task) :
  tasks db !! taskID = Some r → user_id r = userID → done r = true →
  next_fault db = None →
  (tasks (Plain.markTaskDone taskID userID db).2 = tasks db
   ∧ (Plain.markTaskDone taskID userID db).1
     = Ok ("✅ Task " +:+ Strconv.Itoa taskID +:+ " marked as done!")
   ∧ (Plain.markTaskDone taskID userID db).1 ≠ Ok (notFoundText taskID))
  ∧ (tasks (Text.markTaskDone taskID userID db).2 = tasks db
     ∧ (Text.markTaskDone taskID userID db).1
       = Ok (textResponse ("✅ Task " +:+ Strconv.Itoa taskID +:+ " marked as done!"))
     ∧ (Text.markTaskDone taskID userID db).1 ≠ Ok (textResponse (notFoundText taskID)))
  ∧ (tasks (Cards.markTaskDone taskID userID db).2 = tasks db
     ∧ (Cards.markTaskDone taskID userID db).1
       = (Cards.listTasks userID (send (SExec (UpdateDone taskID userID)) db).2).1
     ∧ (Cards.markTaskDone taskID userID db).1 ≠ Ok (textResponse (notFoundText taskID))).
Proof.
  intros Hr Hu Hd Hf.
  rewrite Plain_markTaskDone_guarded, Text_markTaskDone_guarded,
    Cards_markTaskDone_guarded.
  rewrite !(guarded_done_again _ _ _ _ _ r) by done. simpl.
  split_and!; try done.
  all: try by rewrite Cards_listTasks_tasks.
  pose proof (Cards_listTasks_reports userID
      (send (SExec (UpdateDone taskID userID)) db).2
      (notFoundText taskID) (notFound_ne_noTasks _)) as H.
  intros Heq. simpl in H. rewrite Heq in H. clear Hf.
  destruct (next_fault _); unfold reports in H.
  - by destruct H.
  - destruct H as (resp & [= <-] & Hne). done.
Qed.

Lemma setDone_idempotent_witness :
  tasks sampleDB !! 2 = Some {| content := "Call mum"; done := true; user_id := "bob" |}
  ∧ tasks (Text.markTaskDone 2 "bob" sampleDB).2 = tasks sampleDB
  ∧ (Text.markTaskDone 2 "bob" sampleDB).1 = Ok (textResponse "✅ Task 2 marked as done!").
Proof.
  split; [reflexivity|].
  pose proof (setDone_idempotent 2 "bob" sampleDB
    {| content := "Call mum"; done := true; user_id := "bob" |}
    eq_refl eq_refl eq_refl eq_refl) as (_ & (Ht & Hr & _) & _).
  split; [exact Ht | exact Hr].
Defined.

(** SetDone twice in a row: the second call finds the row again and changes
    nothing. *)
Lemma setDone_twice (taskID : Z) (userID : string) (db : DB) :
  faults db = [] → owned db taskID userID →
  let db1 := (Text.markTaskDone taskID userID db).2 in
  tasks (Text.markTaskDone taskID userID db1).2 = tasks db1
  ∧ (Text.markTaskDone taskID userID db1).1 = (Text.markTaskDone taskID userID db).1.
Proof.
  intros Hf (r & Hr & Hu) db1. subst db1.
  assert (next_fault db = None) as Hnf by (unfold next_fault; by rewrite Hf).
  rewrite Text_markTaskDone_guarded.
  rewrite (guarded_hit _ _ _ db r) by done. simpl.
  rewrite (guarded_done_again _ _ _ _ _ (set_done r)); simpl; try done.
  - by rewrite lookup_insert_eq.
  - unfold next_fault. simpl. by rewrite Hf.
Qed.

(** ** Edit with empty content *)

(** C2. Edit with empty new content answers with the rejection and hands
    back the database it was given: table, sequence, pending failures and
    journal are the same, so nothing was sent to the store and the content
    of every task is what it was. *)
Theorem editTask_empty_rejected (taskID : Z) (userID : string) (db : DB) :
  Cards.editTask taskID "" userID db = (Ok (textResponse emptyContentText), db)
  ∧ Text.editTask taskID "" userID db = (Ok (textResponse emptyContentText), db)
  ∧ journal (Cards.editTask taskID "" userID db).2 = journal db
  ∧ journal (Text.editTask taskID "" userID db).2 = journal db
  ∧ content <$> tasks (Cards.editTask taskID "" userID db).2 !! taskID
    = content <$> tasks db !! taskID
  ∧ content <$> tasks (Text.editTask taskID "" userID db).2 !! taskID
    = content <$> tasks db !! taskID.
Proof. by split_and!. Qed.

(** The scenario of the design, [edit 1 ] with no text after the id: once
    trimmed the text is [edit 1], which is no [edit] command, so the usage
    text is the answer and the database is the one received. *)
Lemma edit_without_text_changes_nothing :
  Text.HandleChat (textRequest "edit 1 " (sender "" "alice")) sampleDB
  = (Ok (textResponse Text.usage), sampleDB).
Proof. by vm_compute. Qed.

(** ** A task of another owner *)

Lemma foreign_miss db i r userID :
  tasks db !! i = Some r → user_id r ≠ userID →
  ∀ r0, tasks db !! i = Some r0 → user_id r0 ≠ userID.
Proof. intros Hr Hu r0 Hr0. congruence. Qed.

Lemma agree_foreign_insert userID db i r r' :
  tasks db !! i = Some r → user_id r ≠ userID → user_id r' ≠ userID →
  agree userID (with_tasks (<[i := r']> (tasks db)) db) db.
Proof. intros Hr Hu Hu'. split; simpl; [|done]. by eapply own_insert_foreign. Qed.

Lemma agree_foreign_delete userID db i r :
  tasks db !! i = Some r → user_id r ≠ userID →
  agree userID (with_tasks (delete i (tasks db)) db) db.
Proof. intros Hr Hu. split; simpl; [|done]. by eapply own_delete_foreign. Qed.

(** Create stores its row under an id that is free, so every row that was
    there is still there. *)
Lemma QueryRowInsert_keeps newContent userID db i r :
  tasks db !! i = Some r →
  tasks (QueryRowInsert newContent userID db).2 !! i = Some r.
Proof.
  intros Hr. unfold QueryRowInsert, send. simpl.
  destruct (mjoin _); [done|]. simpl.
  destruct (tasks db !! serial db) eqn:Hs; simpl; [done|].
  rewrite lookup_insert_ne; [done | congruence].
Qed.

(** The plain revision's List and SetDone, like those of the other two. *)
Lemma Plain_listTasks_tasks userID db : tasks (Plain.listTasks userID db).2 = tasks db.
Proof.
  unfold Plain.listTasks. pose proof (Query_tasks userID db) as H.
  destruct (Query userID db) as [[rows|e] d]; simpl in *; [|done].
  by case_bool_decide.
Qed.

Lemma Plain_listTasks_blind userID : blind userID (Plain.listTasks userID).
Proof.
  intros db1 db2 Hag. unfold Plain.listTasks.
  destruct (Query_agree userID db1 db2 Hag) as [Hr Hd].
  destruct (Query userID db1) as [r1 d1], (Query userID db2) as [r2 d2]; simpl in *.
  subst r2. destruct r1 as [rows|e]; [|done]. by case_bool_decide.
Qed.

Lemma Plain_markTaskDone_blind taskID userID :
  blind userID (Plain.markTaskDone taskID userID).
Proof.
  rewrite Plain_markTaskDone_guarded.
  apply (guarded_blind (UpdateDone taskID userID)), const_blind.
Qed.

Lemma Plain_markTaskDone_keeps_foreign taskID userID :
  keeps_foreign userID (Plain.markTaskDone taskID userID).
Proof.
  rewrite Plain_markTaskDone_guarded.
  apply (guarded_keeps_foreign (UpdateDone taskID userID)), const_keeps_foreign.
Qed.

(** Create looks at the table for one thing only, whether the id it drew
    is free.  The answer of the store to it is the same when a row that
    exists is replaced, and when a row other than the one at the next id of
    the sequence is removed. *)
Lemma QueryRowInsert_replaced newContent userID db i r r' :
  tasks db !! i = Some r →
  (QueryRowInsert newContent userID (with_tasks (<[i := r']> (tasks db)) db)).1
  = (QueryRowInsert newContent userID db).1.
Proof.
  intros Hr. unfold QueryRowInsert, send, with_tasks. simpl.
  destruct (mjoin _); [done|]. simpl.
  destruct (decide (serial db = i)) as [Hs|Hs].
  - rewrite Hs, lookup_insert_eq, Hr. done.
  - rewrite lookup_insert_ne by congruence. by destruct (tasks db !! serial db).
Qed.

Lemma QueryRowInsert_removed newContent userID db i :
  i ≠ serial db →
  (QueryRowInsert newContent userID (with_tasks (delete i (tasks db)) db)).1
  = (QueryRowInsert newContent userID db).1.
Proof.
  intros Hs. unfold QueryRowInsert, send, with_tasks. simpl.
  destruct (mjoin _); [done|]. simpl.
  rewrite lookup_delete_ne by congruence. by destruct (tasks db !! serial db).
Qed.

Lemma Plain_addTask_reply newContent userID db1 db2 :
  (QueryRowInsert newContent userID db1).1 = (QueryRowInsert newContent userID db2).1 →
  (Plain.addTask newContent userID db1).1 = (Plain.addTask newContent userID db2).1.
Proof.
  unfold Plain.addTask.
  destruct (QueryRowInsert _ _ db1) as [r1 d1], (QueryRowInsert _ _ db2) as [r2 d2].
  simpl. intros ->. by destruct r2.
Qed.

Lemma Cards_addTask_reply newContent userID db1 db2 :
  (QueryRowInsert newContent userID db1).1 = (QueryRowInsert newContent userID db2).1 →
  (Cards.addTask newContent userID db1).1 = (Cards.addTask newContent userID db2).1.
Proof.
  unfold Cards.addTask.
  destruct (QueryRowInsert _ _ db1) as [r1 d1], (QueryRowInsert _ _ db2) as [r2 d2].
  simpl. intros ->. by destruct r2.
Qed.

Lemma Text_addTask_reply newContent userID db1 db2 :
  (QueryRowInsert newContent userID db1).1 = (QueryRowInsert newContent userID db2).1 →
  (Text.addTask newContent userID db1).1 = (Text.addTask newContent userID db2).1.
Proof.
  unfold Text.addTask.
  destruct (QueryRowInsert _ _ db1) as [r1 d1], (QueryRowInsert _ _ db2) as [r2 d2].
  simpl. intros ->. by destruct r2.
Qed.

Lemma addTask_keeps newContent userID db i r :
  tasks db !! i = Some r →
  tasks (Plain.addTask newContent userID db).2 !! i = Some r
  ∧ tasks (Cards.addTask newContent userID db).2 !! i = Some r
  ∧ tasks (Text.addTask newContent userID db).2 !! i = Some r.
Proof.
  intros Hr. unfold Plain.addTask, Cards.addTask, Text.addTask.
  pose proof (QueryRowInsert_keeps newContent userID db i r Hr) as Hk.
  by destruct (QueryRowInsert newContent userID db) as [[id|e] d].
Qed.

(** A guarded statement that finds no row of the caller leaves the table
    alone, whether or not the round trip fails. *)
Ltac table_untouched db :=
  let e := fresh "e" in
  let Hf := fresh "Hf" in
  destruct (next_fault db) as [e|] eqn:Hf;
  [rewrite (guarded_fault _ _ _ _ e) by done | rewrite guarded_miss by done].

(** C1.  Let task [i] be stored with owner A, and let the caller present a
    different owner [userID].  SetDone, Delete and Edit (whose content is
    not empty, as every request that reaches Edit has it) aimed at [i] leave
    the row, indeed the whole table, as it is, and answer not-found when the
    store answers the statement; when the store fails, the failure is what
    is returned.  And no store operation of any revision invoked for
    [userID], whatever task [j] it names (List, Create, SetDone, Delete,
    Edit, ReadContent), mutates row [i] or reads it: the row is the same
    afterwards, and the reply is the one given were the row different or
    not there.  Create draws its id from the sequence, so for the reply not
    to depend on the existence of a row the ids must be those the sequence
    issued. *)
Theorem foreign_owner_isolated (c : StoreCall) (userID : string) (db : DB)
    (i j : Z) (r r' : Task) (newContent : string) :
  tasks db !! i = Some r → user_id r ≠ userID → user_id r' ≠ userID →
  newContent ≠ "" →
  let nf := textResponse (notFoundText i) in
  let changed := with_tasks (<[i := r']> (tasks db)) db in
  let absent := with_tasks (delete i (tasks db)) db in
  (tasks (Plain.markTaskDone i userID db).2 = tasks db
   ∧ tasks (Text.markTaskDone i userID db).2 = tasks db
   ∧ tasks (Cards.markTaskDone i userID db).2 = tasks db
   ∧ tasks (Text.deleteTask i userID db).2 = tasks db
   ∧ tasks (Cards.deleteTask i userID db).2 = tasks db
   ∧ tasks (Text.editTask i newContent userID db).2 = tasks db
   ∧ tasks (Cards.editTask i newContent userID db).2 = tasks db)
  ∧ (next_fault db = None →
     (Plain.markTaskDone i userID db).1 = Ok (notFoundText i)
     ∧ (Text.markTaskDone i userID db).1 = Ok nf
     ∧ (Cards.markTaskDone i userID db).1 = Ok nf
     ∧ (Text.deleteTask i userID db).1 = Ok nf
     ∧ (Cards.deleteTask i userID db).1 = Ok nf
     ∧ (Text.editTask i newContent userID db).1 = Ok nf
     ∧ (Cards.editTask i newContent userID db).1 = Ok nf)
  ∧ (∀ e, next_fault db = Some e →
     (Plain.markTaskDone i userID db).1 = Err e
     ∧ (Text.markTaskDone i userID db).1 = Err e
     ∧ (Cards.markTaskDone i userID db).1 = Err e
     ∧ (Text.deleteTask i userID db).1 = Err e
     ∧ (Cards.deleteTask i userID db).1 = Err e
     ∧ (Text.editTask i newContent userID db).1 = Err e
     ∧ (Cards.editTask i newContent userID db).1 = Err e)
  ∧ (tasks (callText c userID db).2 !! i = Some r
     ∧ tasks (callCards c userID db).2 !! i = Some r
     ∧ tasks (Plain.listTasks userID db).2 !! i = Some r
     ∧ tasks (Plain.markTaskDone j userID db).2 !! i = Some r
     ∧ tasks (Plain.addTask newContent userID db).2 !! i = Some r
     ∧ tasks (Cards.addTask newContent userID db).2 !! i = Some r
     ∧ tasks (Text.addTask newContent userID db).2 !! i = Some r)
  ∧ ((callText c userID changed).1 = (callText c userID db).1
     ∧ (callText c userID absent).1 = (callText c userID db).1
     ∧ (callCards c userID changed).1 = (callCards c userID db).1
     ∧ (callCards c userID absent).1 = (callCards c userID db).1
     ∧ (Plain.listTasks userID changed).1 = (Plain.listTasks userID db).1
     ∧ (Plain.listTasks userID absent).1 = (Plain.listTasks userID db).1
     ∧ (Plain.markTaskDone j userID changed).1 = (Plain.markTaskDone j userID db).1
     ∧ (Plain.markTaskDone j userID absent).1 = (Plain.markTaskDone j userID db).1)
  ∧ ((Plain.addTask newContent userID changed).1 = (Plain.addTask newContent userID db).1
     ∧ (Cards.addTask newContent userID changed).1
       = (Cards.addTask newContent userID db).1
     ∧ (Text.addTask newContent userID changed).1 = (Text.addTask newContent userID db).1
     ∧ (issued db →
        (Plain.addTask newContent userID absent).1
        = (Plain.addTask newContent userID db).1
        ∧ (Cards.addTask newContent userID absent).1
          = (Cards.addTask newContent userID db).1
        ∧ (Text.addTask newContent userID absent).1
          = (Text.addTask newContent userID db).1)).
Proof.
  intros Hr Hu Hu' Hc nf changed absent. subst nf changed absent.
  pose proof (foreign_miss db i r userID Hr Hu) as Hmiss.
  pose proof (agree_foreign_insert userID db i r r' Hr Hu Hu') as Hins.
  pose proof (agree_foreign_delete userID db i r Hr Hu) as Hdel.
  destruct (addTask_keeps newContent userID db i r Hr) as (HkP & HkC & HkT).
  split_and!.
  - rewrite Plain_markTaskDone_guarded. by table_untouched db.
  - rewrite Text_markTaskDone_guarded. by table_untouched db.
  - rewrite Cards_markTaskDone_guarded. by table_untouched db.
  - rewrite Text_deleteTask_guarded. by table_untouched db.
  - rewrite Cards_deleteTask_guarded. by table_untouched db.
  - rewrite Text_editTask_guarded by done. by table_untouched db.
  - rewrite Cards_editTask_guarded by done. by table_untouched db.
  - intros Hf.
    rewrite Plain_markTaskDone_guarded, Text_markTaskDone_guarded,
      Cards_markTaskDone_guarded, Text_deleteTask_guarded, Cards_deleteTask_guarded,
      Text_editTask_guarded, Cards_editTask_guarded by done.
    by rewrite !guarded_miss.
  - intros e Hf.
    rewrite Plain_markTaskDone_guarded, Text_markTaskDone_guarded,
      Cards_markTaskDone_guarded, Text_deleteTask_guarded, Cards_deleteTask_guarded,
      Text_editTask_guarded, Cards_editTask_guarded by done.
    by rewrite !(guarded_fault _ _ _ _ e).
  - by apply callText_keeps_foreign.
  - by apply callCards_keeps_foreign.
  - by rewrite Plain_listTasks_tasks.
  - by apply Plain_markTaskDone_keeps_foreign.
  - done.
  - done.
  - done.
  - by apply callText_blind.
  - by apply callText_blind.
  - by apply callCards_blind.
  - by apply callCards_blind.
  - by apply Plain_listTasks_blind.
  - by apply Plain_listTasks_blind.
  - by apply Plain_markTaskDone_blind.
  - by apply Plain_markTaskDone_blind.
  - by apply Plain_addTask_reply, (QueryRowInsert_replaced _ _ _ _ r).
  - by apply Cards_addTask_reply, (QueryRowInsert_replaced _ _ _ _ r).
  - by apply Text_addTask_reply, (QueryRowInsert_replaced _ _ _ _ r).
  - intros Hiss. pose proof (Hiss i r Hr) as Hlt.
    assert (i ≠ serial db) as Hne by lia.
    split_and!;
      [apply Plain_addTask_reply | apply Cards_addTask_reply | apply Text_addTask_reply];
      by apply QueryRowInsert_removed.
Qed.

Lemma foreign_owner_isolated_witness :
  tasks sampleDB !! 1 = Some {| content := "Buy milk"; done := false; user_id := "alice" |}
  ∧ tasks (Text.deleteTask 1 "bob" sampleDB).2 = tasks sampleDB
  ∧ (Text.deleteTask 1 "bob" sampleDB).1 = Ok (textResponse (notFoundText 1)).
Proof.
  split; [reflexivity|].
  assert ("alice" ≠ "bob") as Hab by (intros H; discriminate H).
  assert ("carol" ≠ "bob") as Hcb by (intros H; discriminate H).
  assert ("Buy oat milk" ≠ "") as Hc by (intros H; discriminate H).
  pose proof (foreign_owner_isolated (CallDelete 1) "bob" sampleDB 1 2
    {| content := "Buy milk"; done := false; user_id := "alice" |}
    {| content := "x"; done := true; user_id := "carol" |}
    "Buy oat milk" eq_refl Hab Hcb Hc) as ((_ & _ & _ & Ht & _) & Hnf & _).
  split; [apply Ht | apply (Hnf eq_refl)].
Defined.

(** ** Journals and the row query *)

Lemma Exec_journal q db : journal (Exec q db).2 = journal db ++ [SExec q].
Proof.
  unfold Exec, send. simpl. destruct (mjoin _); [done|].
  by destruct (run_exec q (tasks db)).
Qed.

Lemma Query_journal userID db :
  journal (Query userID db).2 = journal db ++ [SSelectTasks userID].
Proof. unfold Query, send. simpl. by destruct (mjoin _). Qed.

Lemma QueryRowContent_journal taskID userID db :
  journal (QueryRowContent taskID userID db).2
  = journal db ++ [SSelectContent taskID userID].
Proof.
  unfold QueryRowContent, send. simpl. destruct (mjoin _); [done|].
  by destruct (sql_select _ _).
Qed.




(** Outside SetDone and Delete: the edit form answers a failed round trip
    with the not-found text, so that failure does not reach the caller. *)
Lemma showEditForm_failure_is_notFound taskID userID db e :
  next_fault db = Some e →
  (Cards.showEditForm taskID userID db).1 = Ok (textResponse (notFoundText taskID))
  ∧ (Text.showEditForm taskID userID db).1 = Ok (textResponse (notFoundText taskID)).
Proof.
  unfold Cards.showEditForm, Text.showEditForm, QueryRowContent, send, next_fault.
  simpl. by intros ->.
Qed.

(** ** Owner resolution *)

(** C4. The owner is the email when there is one, else the name when there
    is one, else [default]; it is never empty; and it is the owner every
    handler of every revision presents to the store, as the statement its
    [list] command and its [list] action send shows. *)
Theorem resolveUserID_precedence (s : Sender) :
  (Sender_Email s ≠ "" → resolveUserID s = Sender_Email s)
  ∧ (Sender_Email s = "" → Sender_Name s ≠ "" → resolveUserID s = Sender_Name s)
  ∧ (Sender_Email s = "" → Sender_Name s = "" → resolveUserID s = "default")
  ∧ resolveUserID s ≠ ""
  ∧ (∀ db,
       journal (Plain.HandleChat
                  {| Plain.Request_Message :=
                       {| Message_Text := "list"; Message_Sender := s |} |} db).2
       = journal db ++ [SSelectTasks (resolveUserID s)]
       ∧ journal (Cards.HandleChat (textRequest "list" s) db).2
         = journal db ++ [SSelectTasks (resolveUserID s)]
       ∧ journal (Text.HandleChat (textRequest "list" s) db).2
         = journal db ++ [SSelectTasks (resolveUserID s)]
       ∧ journal (Cards.handleCardAction (actionRequest "list" [] s) db).2
         = journal db ++ [SSelectTasks (resolveUserID s)]
       ∧ journal (Text.handleCardAction (actionRequest "list" [] s) db).2
         = journal db ++ [SSelectTasks (resolveUserID s)]).
Proof.
  unfold resolveUserID. split_and!.
  - intros He. by rewrite bool_decide_eq_false_2.
  - intros He Hn. by rewrite bool_decide_eq_true_2, bool_decide_eq_false_2.
  - intros He Hn. by rewrite !bool_decide_eq_true_2.
  - repeat case_bool_decide; simpl; done.
  - intros db. fold (resolveUserID s).
    assert (∀ u, journal (Plain.listTasks u db).2 = journal db ++ [SSelectTasks u]) as HP.
    { intros u. unfold Plain.listTasks. pose proof (Query_journal u db) as Hj.
      destruct (Query u db) as [[rows|e] d]; simpl in *; [|done]. by case_bool_decide. }
    assert (∀ u, journal (Cards.listTasks u db).2 = journal db ++ [SSelectTasks u]) as HC.
    { intros u. unfold Cards.listTasks. pose proof (Query_journal u db) as Hj.
      destruct (Query u db) as [[rows|e] d]; simpl in *; [|done]. by case_bool_decide. }
    assert (∀ u, journal (Text.listTasks u db).2 = journal db ++ [SSelectTasks u]) as HT.
    { intros u. unfold Text.listTasks. pose proof (Query_journal u db) as Hj.
      destruct (Query u db) as [[rows|e] d]; simpl in *; [|done]. by case_bool_decide. }
    split_and!.
    + change (journal (Plain.wrap "failed to list tasks"
                (Plain.listTasks (resolveUserID s) db)).2 = journal db ++ [SSelectTasks (resolveUserID s)]).
      unfold Plain.wrap. specialize (HP (resolveUserID s)).
      by destruct (Plain.listTasks _ db) as [[?|?] ?].
    + change (journal (wrapErr "failed to list tasks"
                (Cards.listTasks (resolveUserID s) db)).2 = journal db ++ [SSelectTasks (resolveUserID s)]).
      unfold wrapErr. specialize (HC (resolveUserID s)).
      by destruct (Cards.listTasks _ db) as [[?|?] ?].
    + change (journal (wrapErr "failed to list tasks"
                (Text.listTasks (resolveUserID s) db)).2 = journal db ++ [SSelectTasks (resolveUserID s)]).
      unfold wrapErr. specialize (HT (resolveUserID s)).
      by destruct (Text.listTasks _ db) as [[?|?] ?].
    + apply HC.
    + apply HT.
Qed.

(** ** Card actions *)

(** C5. A markDone, deleteTask or editTask action whose [taskId] value does
    not convert is answered with the invalid-task-id reply, and the database
    handed back is the one received: no statement was sent.  This holds for
    [handleCardAction] and for the two endpoints that route to it, in both
    revisions that have card actions. *)
Theorem bad_taskId_touches_nothing (req : ChatRequest) (action : Action) (db : DB) :
  Request_Action req = Some action →
  Action_MethodName action ∈ ["markDone"; "deleteTask"; "editTask"] →
  (Strconv.Atoi (param (collectParams (Action_Parameters action)) "taskId")).2 ≠ None →
  Cards.handleCardAction req db = (Ok (textResponse invalidTaskIDText), db)
  ∧ Text.handleCardAction req db = (Ok (textResponse invalidTaskIDText), db)
  ∧ Cards.HandleCardAction req db = (Ok (textResponse invalidTaskIDText), db)
  ∧ Text.HandleCardAction req db = (Ok (textResponse invalidTaskIDText), db)
  ∧ Cards.HandleChat req db = (Ok (textResponse invalidTaskIDText), db)
  ∧ Text.HandleChat req db = (Ok (textResponse invalidTaskIDText), db).
Proof.
  intros Hreq Hm Herr.
  unfold Cards.HandleCardAction, Text.HandleCardAction, Cards.HandleChat,
    Text.HandleChat, Cards.handleCardAction, Text.handleCardAction.
  rewrite Hreq.
  destruct (Strconv.Atoi _) as [taskID [err|]]; [|done].
  repeat (apply elem_of_cons in Hm as [-> | Hm]); [..|by apply elem_of_nil in Hm];
    by split_and!.
Qed.

Lemma bad_taskId_touches_nothing_witness :
  (Strconv.Atoi "abc").2 ≠ None
  ∧ Text.handleCardAction (actionRequest "deleteTask" [("taskId", "abc")] (sender "" "bob"))
      sampleDB
    = (Ok (textResponse invalidTaskIDText), sampleDB).
Proof.
  assert ((Strconv.Atoi "abc").2 ≠ None) as Herr by (intros H; discriminate H).
  split; [exact Herr|].
  apply (bad_taskId_touches_nothing
           (actionRequest "deleteTask" [("taskId", "abc")] (sender "" "bob"))
           {| Action_MethodName := "deleteTask";
              Action_Parameters := [ {| Param_Key := "taskId"; Param_Value := "abc" |} ] |}
           sampleDB eq_refl).
  - apply list_elem_of_further, list_elem_of_here.
  - exact Herr.
Defined.




(** ** What the patterns match *)

Lemma append_cons c (s t : string) : String c s +:+ t = String c (s +:+ t).
Proof. reflexivity. Qed.

Lemma append_empty_r (s : string) : s +:+ "" = s.
Proof. induction s as [|c s IH]; [done | by rewrite append_cons, IH]. Qed.

Lemma append_assoc (a b c : string) : (a +:+ b) +:+ c = a +:+ (b +:+ c).
Proof. induction a as [|x a IH]; [done | by rewrite !append_cons, IH]. Qed.

Lemma all_chars_app p (a b : string) :
  all_chars p (a +:+ b) = all_chars p a && all_chars p b.
Proof.
  induction a as [|x a IH]; [done|].
  rewrite append_cons. simpl. by rewrite IH, andb_assoc.
Qed.

Lemma strip_prefix_sound p s rest :
  strip_prefix p s = Some rest → s = p +:+ rest.
Proof.
  revert s. induction p as [|a p IH]; intros [|b s]; simpl; try done.
  - intros [= <-]. reflexivity.
  - intros [= <-]. reflexivity.
  - case_bool_decide as Hab; [|done]. subst b. intros H.
    by rewrite append_cons, (IH _ H).
Qed.

Lemma more_sound {A : Type} cls s acc (k : string → string → option A) x :
  more cls s acc k = Some x →
  ∃ m rest, s = m +:+ rest ∧ all_chars cls m = true ∧ k (acc +:+ m) rest = Some x.
Proof.
  revert acc. induction s as [|c s IH]; intros acc; simpl.
  - intros Hk. exists "", "". by rewrite (append_empty_r acc).
  - destruct (cls c) eqn:Hc.
    + destruct (more cls s (acc +:+ String c "") k) as [y|] eqn:Hm.
      * intros [= ->]. apply IH in Hm as (m & rest & -> & Hall & Hk).
        exists (String c m), rest. simpl. rewrite Hc, Hall.
        rewrite append_assoc in Hk. by rewrite append_cons.
      * intros Hk. exists "", (String c s). by rewrite (append_empty_r acc).
    + intros Hk. exists "", (String c s). by rewrite (append_empty_r acc).
Qed.

Lemma plus_sound {A : Type} cls s caps (k : string → string → list string → option A) x :
  exec (Plus cls) s caps k = Some x →
  ∃ m rest, s = m +:+ rest ∧ m ≠ "" ∧ all_chars cls m = true
            ∧ k m rest caps = Some x.
Proof.
  simpl. destruct s as [|c s]; [done|]. destruct (cls c) eqn:Hc; [|done].
  intros (m & rest & -> & Hall & Hk)%more_sound.
  exists (String c m), rest. simpl. by rewrite Hc, Hall.
Qed.

(** The matcher is sound for the meaning of the patterns: what it reports
    as matched is a split of the text that the pattern denotes. *)
Lemma exec_sound {A : Type} r s caps (k : string → string → list string → option A) x :
  exec r s caps k = Some x →
  ∃ m rest caps', s = m +:+ rest ∧ denotes r m caps caps' ∧ k m rest caps' = Some x.
Proof.
  revert s caps k x. induction r as [p|cls|r IH|r1 IH1 r2 IH2]; intros s caps k x.
  - simpl. destruct (strip_prefix p s) as [rest|] eqn:Hp; [|done].
    apply strip_prefix_sound in Hp as ->. intros Hk. by exists p, rest, caps.
  - intros (m & rest & -> & Hne & Hall & Hk)%plus_sound.
    by exists m, rest, caps.
  - simpl. intros (m & rest & caps1 & -> & Hd & Hk)%IH.
    exists m, rest, (caps1 ++ [m]). split_and!; [done | by exists caps1 | done].
  - simpl. intros (m1 & rest1 & caps1 & -> & Hd1 & Hk)%IH1.
    apply IH2 in Hk as (m2 & rest2 & caps2 & -> & Hd2 & Hk).
    exists (m1 +:+ m2), rest2, caps2. rewrite append_assoc.
    split_and!; [done | by exists m1, m2, caps1 | done].
Qed.

Lemma find_sound r text l :
  find r text = Some l → ∃ caps, denotes r text [] caps ∧ l = text :: caps.
Proof.
  unfold find. intros (m & rest & caps & -> & Hd & Hk)%exec_sound.
  destruct rest; [|done]. injection Hk as <-.
  exists caps. by rewrite append_empty_r.
Qed.

(** A match of [^done\s+(\d+)$]: the text is [done], white space, digits,
    and the group is the digits. *)
Lemma doneCmd_sound text l :
  find doneCmd text = Some l →
  ∃ ws ds, text = "done" +:+ ws +:+ ds ∧ ws ≠ "" ∧ all_chars cls_s ws = true
           ∧ ds ≠ "" ∧ all_chars is_digit ds = true ∧ l = [text; ds].
Proof.
  intros (caps & Hd & ->)%find_sound. simpl in Hd.
  destruct Hd as (m1 & m2 & c1 & -> & [-> ->] & ws & m3 & c2 & -> & (Hws & Hs & ->)
                  & c3 & (Hds & Hd & ->) & ->).
  by exists ws, m3.
Qed.

(** A match of [^edit\s+(\d+)\s+(.+)$]. *)
Lemma editCmd_sound text l :
  find editCmd text = Some l →
  ∃ ws ds ws' c, text = "edit" +:+ ws +:+ ds +:+ ws' +:+ c
           ∧ ds ≠ "" ∧ all_chars is_digit ds = true
           ∧ c ≠ "" ∧ all_chars cls_dot c = true ∧ l = [text; ds; c].
Proof.
  intros (caps & Hd & ->)%find_sound. simpl in Hd.
  destruct Hd as (m1 & m2 & c1 & -> & [-> ->] & ws & m3 & c2 & -> & (Hws & Hs & ->)
                  & ds & m4 & c3 & -> & (c4 & (Hds & Hd & ->) & ->)
                  & ws' & c & c5 & -> & (Hws' & Hs' & ->) & c6 & (Hc & Hdot & ->) & ->).
  by exists ws, ds, ws', c.
Qed.

(** A match of [^add\s+(.+)$]. *)
Lemma addCmd_sound text l :
  find addCmd text = Some l →
  ∃ ws c, text = "add" +:+ ws +:+ c ∧ ws ≠ "" ∧ all_chars cls_s ws = true
          ∧ c ≠ "" ∧ all_chars cls_dot c = true ∧ l = [text; c].
Proof.
  intros (caps & Hd & ->)%find_sound. simpl in Hd.
  destruct Hd as (m1 & m2 & c1 & -> & [-> ->] & ws & m3 & c2 & -> & (Hws & Hs & ->)
                  & c3 & (Hc & Hd & ->) & ->).
  by exists ws, m3.
Qed.

Lemma lit_match p text : MatchString (Lit p) text = true ↔ text = p.
Proof.
  unfold MatchString, find. cbn [exec]. rewrite bool_decide_eq_true. split.
  - destruct (strip_prefix p text) as [rest|] eqn:Hp; [|by intros [? [=]]].
    apply strip_prefix_sound in Hp as ->.
    destruct rest; [|by intros [? [=]]]. by rewrite append_empty_r.
  - intros ->. assert (strip_prefix p p = Some "") as ->; [|by eexists].
    induction p as [|a p IH]; simpl; [done|]. by rewrite bool_decide_eq_true_2.
Qed.

Lemma MatchString_find r text :
  MatchString r text = true → ∃ l, find r text = Some l ∧ FindStringSubmatch r text = l.
Proof.
  unfold MatchString, FindStringSubmatch. rewrite bool_decide_eq_true.
  intros [l Hl]. exists l. by rewrite Hl.
Qed.

(** The matcher is complete: backtracking tries every split, so a text the
    pattern denotes is matched. *)
Lemma more_complete {A : Type} cls m rest acc (k : string → string → option A) :
  all_chars cls m = true → is_Some (k (acc +:+ m) rest) →
  is_Some (more cls (m +:+ rest) acc k).
Proof.
  revert acc. induction m as [|c m IH]; intros acc Hall Hk.
  - rewrite append_empty_r in Hk. change ("" +:+ rest) with rest.
    destruct rest as [|c rest]; simpl; [done|].
    destruct (cls c); [|done]. by destruct (more cls rest _ k).
  - simpl in Hall. apply andb_true_iff in Hall as [Hc Hall].
    rewrite append_cons. simpl. rewrite Hc.
    assert (is_Some (more cls (m +:+ rest) (acc +:+ String c "") k)) as [y Hy].
    { apply IH; [done|]. by rewrite append_assoc. }
    by rewrite Hy.
Qed.

Lemma exec_complete {A : Type} r m rest caps caps'
    (k : string → string → list string → option A) :
  denotes r m caps caps' → is_Some (k m rest caps') →
  is_Some (exec r (m +:+ rest) caps k).
Proof.
  revert m rest caps caps' k.
  induction r as [p|cls|r IH|r1 IH1 r2 IH2]; intros m rest caps caps' k; simpl.
  - intros [-> ->] Hk.
    assert (strip_prefix p (p +:+ rest) = Some rest) as ->; [|done].
    clear Hk. induction p as [|a p IHp]; [reflexivity|].
    rewrite append_cons. simpl. by rewrite bool_decide_eq_true_2.
  - intros (Hne & Hall & ->) Hk. destruct m as [|c m]; [done|].
    rewrite append_cons. simpl in Hall.
    apply andb_true_iff in Hall as [Hc Hall]. rewrite Hc.
    by apply more_complete.
  - intros (caps1 & Hd & ->) Hk. by eapply IH.
  - intros (m1 & m2 & caps1 & -> & Hd1 & Hd2) Hk.
    rewrite append_assoc. eapply IH1; [done|]. by eapply IH2.
Qed.

(** [MatchString] decides exactly the language of the pattern. *)
Lemma MatchString_denotes r text :
  MatchString r text = true ↔ ∃ caps, denotes r text [] caps.
Proof.
  unfold MatchString. rewrite bool_decide_eq_true. split.
  - intros [l (caps & Hd & _)%find_sound]. by exists caps.
  - intros [caps Hd]. unfold find.
    rewrite <- (append_empty_r text). by eapply exec_complete.
Qed.

(** ** Converting digits *)

Lemma is_digit_range c : is_digit c = true → 0 ≤ code c - 48 ≤ 9.
Proof. unfold is_digit. rewrite andb_true_iff, !Z.leb_le. lia. Qed.

Lemma decimal_ge s n : all_chars is_digit s = true → 0 ≤ n → n ≤ decimal s n.
Proof.
  revert n. induction s as [|c s IH]; intros n Hall Hn; simpl in *; [lia|].
  apply andb_true_iff in Hall as [Hc%is_digit_range Hall].
  specialize (IH (n * 10 + (code c - 48)) Hall). lia.
Qed.

(** [ParseUint] on digits: the number they denote, or the range error with
    the largest [uint64] once the number no longer fits. *)
Lemma parseUintLoop_digits s n :
  all_chars is_digit s = true → 0 ≤ n < 2 ^ 64 →
  Strconv.parseUintLoop s n
  = if decimal s n <? 2 ^ 64 then (decimal s n, None)
    else (Strconv.maxUint64, Some Strconv.ErrRange).
Proof.
  revert n. induction s as [|c s IH]; intros n Hall Hn; simpl in Hall |- *.
  { by rewrite (proj2 (Z.ltb_lt _ _)) by lia. }
  apply andb_true_iff in Hall as [Hc Hall]. rewrite Hc. simpl.
  pose proof (is_digit_range c Hc) as Hd.
  pose proof (decimal_ge s (n * 10 + (code c - 48)) Hall) as Hge.
  change (Strconv.maxUint64 / 10 + 1) with 1844674407370955162.
  change Strconv.maxUint64 with 18446744073709551615.
  change (2 ^ 64) with 18446744073709551616 in *.
  destruct (1844674407370955162 <=? n) eqn:Hcut.
  { apply Z.leb_le in Hcut. by rewrite (proj2 (Z.ltb_ge _ _)) by lia. }
  apply Z.leb_gt in Hcut.
  destruct (decide (n * 10 + (code c - 48) < 18446744073709551616)) as [Hfit|Hover].
  - rewrite Z.mod_small by lia.
    rewrite (proj2 (Z.ltb_ge _ _)), (proj2 (Z.ltb_ge _ _)) by lia. simpl.
    apply IH; [done | lia].
  - assert ((n * 10 + (code c - 48)) mod 18446744073709551616
            = n * 10 + (code c - 48) - 18446744073709551616) as ->.
    { symmetry. apply (Z.mod_unique _ _ 1); lia. }
    rewrite (proj2 (Z.ltb_lt _ (n * 10))) by lia. simpl.
    by rewrite (proj2 (Z.ltb_ge _ _)) by lia.
Qed.

(** [Atoi] on a non-empty string of digits never reports a syntax error:
    it yields the number, or, from [2^63] on, the range error together with
    the largest [int]. *)
Lemma Atoi_digits ds :
  ds ≠ "" → all_chars is_digit ds = true →
  Strconv.Atoi ds
  = if decimal ds 0 <? 2 ^ 63 then (decimal ds 0, None)
    else (2 ^ 63 - 1, Some Strconv.ErrRange).
Proof.
  intros Hne Hall. destruct ds as [|c s]; [done|].
  assert (is_digit c = true) as Hc by (simpl in Hall; by apply andb_true_iff in Hall as [? _]).
  assert (c ≠ "-"%char ∧ c ≠ "+"%char) as [Hm Hp].
  { split; intros ->; by vm_compute in Hc. }
  unfold Strconv.Atoi, Strconv.ParseInt.
  rewrite (bool_decide_eq_false_2 _ Hm), (bool_decide_eq_false_2 _ Hp). simpl orb.
  cbv iota. unfold Strconv.ParseUint.
  rewrite parseUintLoop_digits by (done || by vm_compute).
  pose proof (decimal_ge (String c s) 0 Hall) as Hge.
  remember (decimal (String c s) 0) as v eqn:Hv. clear Hv.
  change (2 ^ (Strconv.intSize - 1)) with 9223372036854775808.
  change (2 ^ 63) with 9223372036854775808.
  change (2 ^ 64) with 18446744073709551616.
  change Strconv.maxUint64 with 18446744073709551615.
  destruct (v <? 18446744073709551616) eqn:H64.
  - simpl negb. simpl andb.
    destruct (9223372036854775808 <=? v) eqn:H63.
    + apply Z.leb_le in H63. by rewrite (proj2 (Z.ltb_ge _ _)) by lia.
    + apply Z.leb_gt in H63. by rewrite (proj2 (Z.ltb_lt _ _)) by lia.
  - apply Z.ltb_ge in H64. simpl.
    by rewrite (proj2 (Z.ltb_ge _ _)) by lia.
Qed.

Lemma Atoi_digits_no_syntax_error ds :
  ds ≠ "" → all_chars is_digit ds = true →
  (Strconv.Atoi ds).2 ≠ Some Strconv.ErrSyntax.
Proof. intros Hne Hall. rewrite Atoi_digits by done. by destruct (_ <? _). Qed.

(** ** The command switch *)

Lemma HandleChat_classify text s db :
  Text.HandleChat (textRequest text s) db
  = Text.perform (Text.classify (Strings.TrimSpace text)) (resolveUserID s) db.
Proof.
  unfold Text.HandleChat, Text.classify, textRequest.
  cbn [Request_Action Request_Message Message_Text Message_Sender].
  repeat (destruct (MatchString _ _); [reflexivity|]). reflexivity.
Qed.

Lemma head_of_match r p text :
  (∀ m caps caps', denotes r m caps caps' → ∃ rest, m = p +:+ rest) →
  MatchString r text = true → ∃ rest, text = p +:+ rest.
Proof. intros Hr [caps Hd]%MatchString_denotes. by eapply Hr. Qed.

Lemma addCmd_head text : MatchString addCmd text = true → ∃ rest, text = "add" +:+ rest.
Proof.
  apply head_of_match. simpl. intros m caps caps' (m1 & m2 & c1 & -> & [-> _] & _).
  by eexists.
Qed.

Lemma doneCmd_head text : MatchString doneCmd text = true → ∃ rest, text = "done" +:+ rest.
Proof.
  apply head_of_match. simpl. intros m caps caps' (m1 & m2 & c1 & -> & [-> _] & _).
  by eexists.
Qed.

Lemma editCmd_head text : MatchString editCmd text = true → ∃ rest, text = "edit" +:+ rest.
Proof.
  apply head_of_match. simpl. intros m caps caps' (m1 & m2 & c1 & -> & [-> _] & _).
  by eexists.
Qed.

(** The five patterns begin with five different letters, so no text
    matches two of them. *)
Lemma patterns_disjoint t :
  Z.b2z (MatchString addCmd t) + Z.b2z (MatchString listCmd t)
  + Z.b2z (MatchString doneCmd t) + Z.b2z (MatchString editCmd t)
  + Z.b2z (MatchString testCmd t) ≤ 1.
Proof.
  pose proof (addCmd_head t) as Ha. pose proof (doneCmd_head t) as Hd.
  pose proof (editCmd_head t) as He.
  pose proof (proj1 (lit_match "list" t)) as Hl.
  pose proof (proj1 (lit_match "test" t)) as Ht.
  fold listCmd in Hl. fold testCmd in Ht.
  destruct (MatchString addCmd t), (MatchString listCmd t), (MatchString doneCmd t),
    (MatchString editCmd t), (MatchString testCmd t); simpl; try lia; exfalso;
    repeat match goal with
           | H : true = true → _ |- _ => specialize (H eq_refl)
           | H : ∃ _, _ |- _ => destruct H
           end;
    repeat match goal with
           | H : _ = _ +:+ _ |- _ => rewrite !append_cons in H
           end; congruence.
Qed.

(** C3, as the code has it.  After trimming, [HandleChat] of the revision
    with the [edit] command takes the first pattern that matches in the
    order add, list, done, edit, test, and answers the usage text when none
    does; no text matches two patterns; [list] is not an [add]; [done 12]
    yields id 12.  The two older revisions know add, list and done only. *)
Theorem classify_first_match (text : string) (s : Sender) (db : DB) :
  let t := Strings.TrimSpace text in
  Text.HandleChat (textRequest text s) db
  = Text.perform (Text.classify t) (resolveUserID s) db
  ∧ (MatchString addCmd t = true →
     Text.classify t
     = Text.Add (Strings.TrimSpace (FindStringSubmatch addCmd t !!! 1%nat)))
  ∧ (MatchString addCmd t = false → MatchString listCmd t = true →
     Text.classify t = Text.List)
  ∧ (MatchString addCmd t = false → MatchString listCmd t = false →
     MatchString doneCmd t = true →
     Text.classify t
     = Text.Done (Strconv.Atoi (FindStringSubmatch doneCmd t !!! 1%nat)).1)
  ∧ (MatchString addCmd t = false → MatchString listCmd t = false →
     MatchString doneCmd t = false → MatchString editCmd t = true →
     Text.classify t
     = Text.Edit (Strconv.Atoi (FindStringSubmatch editCmd t !!! 1%nat)).1
         (Strings.TrimSpace (FindStringSubmatch editCmd t !!! 2%nat)))
  ∧ (MatchString addCmd t = false → MatchString listCmd t = false →
     MatchString doneCmd t = false → MatchString editCmd t = false →
     MatchString testCmd t = true → Text.classify t = Text.Test)
  ∧ (MatchString addCmd t = false → MatchString listCmd t = false →
     MatchString doneCmd t = false → MatchString editCmd t = false →
     MatchString testCmd t = false → Text.classify t = Text.Help)
  ∧ Text.perform Text.Help (resolveUserID s) db = (Ok (textResponse Text.usage), db)
  ∧ Text.perform Text.Test (resolveUserID s) db = (Ok (textResponse Text.testText), db)
  ∧ Z.b2z (MatchString addCmd t) + Z.b2z (MatchString listCmd t)
    + Z.b2z (MatchString doneCmd t) + Z.b2z (MatchString editCmd t)
    + Z.b2z (MatchString testCmd t) ≤ 1
  ∧ (MatchString listCmd t = true ↔ t = "list")
  ∧ (MatchString testCmd t = true ↔ t = "test")
  ∧ MatchString addCmd "list" = false
  ∧ Text.classify "list" = Text.List
  ∧ Text.classify "done 12" = Text.Done 12
  ∧ Text.HandleChat (textRequest "done 12" s) db
    = wrapErr "failed to mark task as done" (Text.markTaskDone 12 (resolveUserID s) db)
  ∧ Text.HandleChat (textRequest "list" s) db
    = wrapErr "failed to list tasks" (Text.listTasks (resolveUserID s) db)
  ∧ (MatchString addCmd t = false → MatchString listCmd t = false →
     MatchString doneCmd t = false →
     Plain.HandleChat
       {| Plain.Request_Message := {| Message_Text := text; Message_Sender := s |} |} db
     = (Ok {| Plain.Response_Text := Plain.usage |}, db)
     ∧ Cards.HandleChat (textRequest text s) db = (Ok (textResponse Cards.usage), db)).
Proof.
  intros t. subst t. split_and!.
  - apply HandleChat_classify.
  - unfold Text.classify. by intros ->.
  - unfold Text.classify. by intros -> ->.
  - unfold Text.classify. by intros -> -> ->.
  - unfold Text.classify. by intros -> -> -> ->.
  - unfold Text.classify. by intros -> -> -> -> ->.
  - unfold Text.classify. by intros -> -> -> -> ->.
  - done.
  - done.
  - apply patterns_disjoint.
  - apply lit_match.
  - apply lit_match.
  - by vm_compute.
  - by vm_compute.
  - by vm_compute.
  - rewrite HandleChat_classify.
    by change (Text.classify (Strings.TrimSpace "done 12")) with (Text.Done 12).
  - rewrite HandleChat_classify.
    by change (Text.classify (Strings.TrimSpace "list")) with Text.List.
  - intros Ha Hl Hd. unfold Plain.HandleChat, Cards.HandleChat, textRequest.
    cbn [Request_Action Request_Message Plain.Request_Message Message_Text Message_Sender].
    by rewrite Ha, Hl, Hd.
Qed.

(** C3 as worded fails on [test]: it matches none of the four
    patterns add, list, done and edit, and the reply is not the usage text. *)
Lemma test_text_is_not_help :
  MatchString addCmd "test" = false
  ∧ MatchString listCmd "test" = false
  ∧ MatchString doneCmd "test" = false
  ∧ MatchString editCmd "test" = false
  ∧ (Text.HandleChat (textRequest "test" (sender "" "alice")) sampleDB).1
    = Ok (textResponse Text.testText)
  ∧ (Text.HandleChat (textRequest "test" (sender "" "alice")) sampleDB).1
    ≠ Ok (textResponse Text.usage).
Proof. split_and!; by vm_compute. Qed.

(** ** The id of [done] and [edit] *)

(** What the switch converts after a match of the [done] pattern is a
    non-empty string of digits, and the conversion fails exactly when the
    number does not fit an [int]; the value it then hands back is the
    largest [int]. *)
Lemma done_capture_conversion t :
  MatchString doneCmd t = true →
  ∃ ds, FindStringSubmatch doneCmd t !!! 1%nat = ds
        ∧ ds ≠ "" ∧ all_chars is_digit ds = true
        ∧ Strconv.Atoi ds
          = if decimal ds 0 <? 2 ^ 63 then (decimal ds 0, None)
            else (2 ^ 63 - 1, Some Strconv.ErrRange).
Proof.
  intros (l & Hl & ->)%MatchString_find.
  apply doneCmd_sound in Hl as (ws & ds & -> & _ & _ & Hne & Hd & ->).
  exists ds. split_and!; [done..|]. by apply Atoi_digits.
Qed.

Lemma edit_capture_conversion t :
  MatchString editCmd t = true →
  ∃ ds, FindStringSubmatch editCmd t !!! 1%nat = ds
        ∧ ds ≠ "" ∧ all_chars is_digit ds = true
        ∧ Strconv.Atoi ds
          = if decimal ds 0 <? 2 ^ 63 then (decimal ds 0, None)
            else (2 ^ 63 - 1, Some Strconv.ErrRange).
Proof.
  intros (l & Hl & ->)%MatchString_find.
  apply editCmd_sound in Hl as (ws & ds & ws' & c & -> & Hne & Hd & _ & _ & ->).
  exists ds. split_and!; [done..|]. by apply Atoi_digits.
Qed.

(** C8 at [done 9223372036854775808].  The text matches the [done] pattern
    and the group is all digits, yet [Atoi] fails with the range error and
    hands back 9223372036854775807.  The switch drops the error and goes on
    with that id: the reply names a task the sender did not name, and were
    that task the sender's it would be marked done.  The card action, given
    the same digits, answers that the id is invalid. *)
Theorem done_overflow_wrong_id :
  let text := "done 9223372036854775808" in
  let req := textRequest text (sender "" "bob") in
  Strings.TrimSpace text = text
  ∧ MatchString doneCmd text = true
  ∧ FindStringSubmatch doneCmd text !!! 1%nat = "9223372036854775808"
  ∧ Strconv.Atoi "9223372036854775808" = (9223372036854775807, Some Strconv.ErrRange)
  ∧ decimal "9223372036854775808" 0 = 9223372036854775808
  ∧ Text.classify text = Text.Done 9223372036854775807
  ∧ (Text.HandleChat req sampleDB).1
    = Ok (textResponse (notFoundText 9223372036854775807))
  ∧ (Text.HandleChat req maxIdDB).1
    = Ok (textResponse "✅ Task 9223372036854775807 marked as done!")
  ∧ done <$> tasks (Text.HandleChat req maxIdDB).2 !! 9223372036854775807 = Some true
  ∧ (Plain.HandleChat
       {| Plain.Request_Message :=
            {| Message_Text := text; Message_Sender := sender "" "bob" |} |} maxIdDB).1
    = Ok {| Plain.Response_Text := "✅ Task 9223372036854775807 marked as done!" |}
  ∧ Text.classify "edit 9223372036854775808 Feed cat"
    = Text.Edit 9223372036854775807 "Feed cat"
  ∧ Text.handleCardAction
      (actionRequest "markDone" [("taskId", "9223372036854775808")] (sender "" "bob"))
      maxIdDB
    = (Ok (textResponse invalidTaskIDText), maxIdDB).
Proof. split_and!; by vm_compute. Qed.

(** ** Printing an id and reading it back *)

Lemma code_digit_char d : 0 ≤ d ≤ 9 → code (Strconv.digit_char d) = 48 + d.
Proof.
  intros Hd. unfold code, Strconv.digit_char.
  rewrite N_ascii_embedding by lia. lia.
Qed.

Lemma is_digit_digit_char d : 0 ≤ d ≤ 9 → is_digit (Strconv.digit_char d) = true.
Proof.
  intros Hd. unfold is_digit. rewrite code_digit_char by done.
  apply andb_true_iff. rewrite !Z.leb_le. lia.
Qed.

Lemma mod10_digit n : 0 ≤ n `mod` 10 ≤ 9.
Proof. pose proof (Z.mod_pos_bound n 10). lia. Qed.

Lemma formatBits_digits fuel n acc :
  0 ≤ n →
  all_chars is_digit (Strconv.formatBits fuel n acc) = all_chars is_digit acc.
Proof.
  revert n acc. induction fuel as [|fuel IH]; intros n acc Hn; simpl.
  - rewrite is_digit_digit_char; [done | apply mod10_digit].
  - destruct (n <? 10); simpl.
    + rewrite is_digit_digit_char; [done | apply mod10_digit].
    + rewrite IH by (apply Z.div_pos; lia). simpl.
      rewrite is_digit_digit_char; [done | apply mod10_digit].
Qed.

Lemma formatBits_nonempty fuel n acc : Strconv.formatBits fuel n acc ≠ "".
Proof.
  revert n acc. induction fuel as [|fuel IH]; intros n acc; simpl; [done|].
  destruct (n <? 10); [done | apply IH].
Qed.

Lemma formatBits_decimal fuel n acc :
  0 ≤ n < 10 ^ (Z.of_nat fuel + 1) →
  decimal (Strconv.formatBits fuel n acc) 0 = decimal acc n.
Proof.
  revert n acc. induction fuel as [|fuel IH]; intros n acc Hn.
  - change (10 ^ (Z.of_nat 0 + 1)) with 10 in Hn. simpl.
    rewrite code_digit_char by apply mod10_digit.
    rewrite Z.mod_small by lia. f_equal. lia.
  - simpl. destruct (n <? 10) eqn:H10.
    + apply Z.ltb_lt in H10. simpl.
      rewrite code_digit_char by apply mod10_digit.
      rewrite Z.mod_small by lia. f_equal. lia.
    + apply Z.ltb_ge in H10. rewrite IH.
      * simpl. rewrite code_digit_char by apply mod10_digit.
        f_equal. pose proof (Z.div_mod n 10). lia.
      * split; [apply Z.div_pos; lia|].
        apply Z.div_lt_upper_bound; [lia|].
        replace (Z.of_nat (S fuel) + 1) with (Z.succ (Z.of_nat fuel + 1)) in Hn by lia.
        rewrite Z.pow_succ_r in Hn by lia. lia.
Qed.

Lemma log2_fuel n : 0 ≤ n → n < 10 ^ (Z.of_nat (Z.to_nat (Z.log2 n)) + 1).
Proof.
  intros Hn. rewrite Z2Nat.id by apply Z.log2_nonneg.
  destruct (decide (n = 0)) as [->|Hpos]; [done|].
  pose proof (Z.log2_spec n ltac:(lia)) as [_ Hlt].
  pose proof (Z.log2_nonneg n).
  replace (Z.succ (Z.log2 n)) with (Z.log2 n + 1) in Hlt by lia.
  assert (2 ^ (Z.log2 n + 1) ≤ 10 ^ (Z.log2 n + 1)); [|lia].
  apply Z.pow_le_mono_l. lia.
Qed.

(** [Atoi] reads back what [Itoa] prints, for every [int]. *)
Lemma Atoi_Itoa n :
  - 2 ^ 63 ≤ n < 2 ^ 63 → Strconv.Atoi (Strconv.Itoa n) = (n, None).
Proof.
  intros Hn. unfold Strconv.Itoa. destruct (n <? 0) eqn:Hneg.
  - apply Z.ltb_lt in Hneg.
    set (ds := Strconv.formatBits (Z.to_nat (Z.log2 (- n))) (- n) "").
    assert (all_chars is_digit ds = true) as Hall
      by (unfold ds; by rewrite formatBits_digits by lia).
    assert (decimal ds 0 = - n) as Hval.
    { unfold ds. rewrite formatBits_decimal; [done|].
      split; [lia | apply log2_fuel; lia]. }
    assert (ds ≠ "") as Hne by apply formatBits_nonempty.
    unfold Strconv.Atoi, Strconv.ParseInt.
    change (bool_decide ("-"%char = "-"%char)) with true.
    change (bool_decide ("-"%char = "+"%char)) with false.
    simpl orb. cbv iota.
    unfold Strconv.ParseUint. destruct ds as [|c s] eqn:Hds; [done|].
    rewrite <- Hds in *.
    rewrite parseUintLoop_digits by (done || by vm_compute).
    rewrite Hval.
    change (2 ^ (Strconv.intSize - 1)) with 9223372036854775808.
    change (2 ^ 63) with 9223372036854775808 in Hn.
    change (2 ^ 64) with 18446744073709551616.
    rewrite (proj2 (Z.ltb_lt _ _)) by lia. simpl negb. simpl andb.
    rewrite (proj2 (Z.ltb_ge _ _)) by lia. f_equal. lia.
  - apply Z.ltb_ge in Hneg.
    rewrite Atoi_digits.
    + rewrite formatBits_decimal by (split; [lia | by apply log2_fuel]). simpl.
      by rewrite (proj2 (Z.ltb_lt _ _)) by lia.
    + apply formatBits_nonempty.
    + by rewrite formatBits_digits.
Qed.

(** ** The task list as cards *)


Section select.
Context (P : Z * Task → Prop) `{!∀ row, Decision (P row)}.

Lemma sql_select_elem (t : gmap Z Task) i r :
  (i, r) ∈ sql_select P t ↔ t !! i = Some r ∧ P (i, r).
Proof.
  unfold sql_select. rewrite merge_sort_Permutation, elem_of_map_to_list.
  apply map_lookup_filter_Some.
Qed.



End select.

Lemma createTaskButtons_done taskID :
  Cards.createTaskButtons taskID true
  = [ textButton "Edit" "editTask" (taskIdParams taskID);
      textButton "Delete" "deleteTask" (taskIdParams taskID) ].
Proof. reflexivity. Qed.

Lemma createTaskButtons_open taskID :
  Cards.createTaskButtons taskID false
  = [ textButton "Mark as Done" "markDone" (taskIdParams taskID);
      textButton "Edit" "editTask" (taskIdParams taskID);
      textButton "Delete" "deleteTask" (taskIdParams taskID) ].
Proof. reflexivity. Qed.

Lemma textButton_label_inj l1 m1 p1 l2 m2 p2 :
  textButton l1 m1 p1 = textButton l2 m2 p2 → l1 = l2.
Proof. by intros [= -> _ _]. Qed.

(** The buttons of a task: Mark as Done exactly when it is not done, Edit
    and Delete always, nothing else, each with its method and the id. *)
Lemma createTaskButtons_spec taskID isDone :
  let bs := Cards.createTaskButtons taskID isDone in
  (textButton "Mark as Done" "markDone" (taskIdParams taskID) ∈ bs ↔ isDone = false)
  ∧ textButton "Edit" "editTask" (taskIdParams taskID) ∈ bs
  ∧ textButton "Delete" "deleteTask" (taskIdParams taskID) ∈ bs
  ∧ (∀ b, b ∈ bs →
       b = textButton "Mark as Done" "markDone" (taskIdParams taskID) ∧ isDone = false
       ∨ b = textButton "Edit" "editTask" (taskIdParams taskID)
       ∨ b = textButton "Delete" "deleteTask" (taskIdParams taskID))
  ∧ length bs = (if isDone then 2 else 3)%nat.
Proof.
  intros bs. subst bs. destruct isDone.
  - rewrite createTaskButtons_done. split_and!.
    + split; [|done]. intros H. exfalso.
      apply elem_of_cons in H as [H%textButton_label_inj|H]; [done|].
      apply elem_of_cons in H as [H%textButton_label_inj|H]; [done|].
      by apply elem_of_nil in H.
    + apply list_elem_of_here.
    + apply list_elem_of_further, list_elem_of_here.
    + intros b H.
      apply elem_of_cons in H as [->|H]; [by right; left|].
      apply elem_of_cons in H as [->|H]; [by right; right|].
      by apply elem_of_nil in H.
    + done.
  - rewrite createTaskButtons_open. split_and!.
    + split; [done|]. intros _. apply list_elem_of_here.
    + apply list_elem_of_further, list_elem_of_here.
    + do 2 apply list_elem_of_further. apply list_elem_of_here.
    + intros b H.
      apply elem_of_cons in H as [->|H]; [by left|].
      apply elem_of_cons in H as [->|H]; [by right; left|].
      apply elem_of_cons in H as [->|H]; [by right; right|].
      by apply elem_of_nil in H.
    + done.
Qed.



(** * Further properties *)

(** * Further properties of the handlers *)

(** ** What a successful SetDone, Delete and Edit change *)

(** X1. SetDone on a task of the caller sets the done flag of that row and
    nothing else: content and owner of the row stay, every other row stays,
    in all three revisions. *)
Theorem setDone_effect (taskID : Z) (userID : string) (db : DB) (r : Task) :
  next_fault db = None → tasks db !! taskID = Some r → user_id r = userID →
  let after := <[taskID := {| content := content r; done := true;
                              user_id := user_id r |}]> (tasks db) in
  tasks (Plain.markTaskDone taskID userID db).2 = after
  ∧ tasks (Text.markTaskDone taskID userID db).2 = after
  ∧ tasks (Cards.markTaskDone taskID userID db).2 = after
  ∧ (∀ j, j ≠ taskID → after !! j = tasks db !! j)
  ∧ dom after = dom (tasks db).
Proof.
  intros Hf Hr Hu after.
  rewrite Plain_markTaskDone_guarded, Text_markTaskDone_guarded,
    Cards_markTaskDone_guarded.
  rewrite !(guarded_hit _ _ _ db r) by done. simpl.
  rewrite Cards_listTasks_tasks. simpl. split_and!; try done.
  - intros j Hj. subst after. by rewrite lookup_insert_ne.
  - subst after. rewrite dom_insert_L.
    assert (taskID ∈ dom (tasks db)) by (apply elem_of_dom; eauto).
    set_solver.
Qed.

Lemma setDone_effect_witness :
  next_fault sampleDB = None
  ∧ tasks (Text.markTaskDone 1 "alice" sampleDB).2 !! 1
    = Some {| content := "Buy milk"; done := true; user_id := "alice" |}.
Proof.
  split; [reflexivity|].
  pose proof (setDone_effect 1 "alice" sampleDB
    {| content := "Buy milk"; done := false; user_id := "alice" |}
    eq_refl eq_refl eq_refl) as (_ & Ht & _).
  rewrite Ht. apply lookup_insert_eq.
Defined.

(** X2. Delete on a task of the caller removes that row and no other; the row
    is then in no listing, and a second Delete answers not-found. *)
Theorem delete_effect (taskID : Z) (userID : string) (db : DB) (r : Task) :
  next_fault db = None → tasks db !! taskID = Some r → user_id r = userID →
  let db1 := (Text.deleteTask taskID userID db).2 in
  tasks db1 = delete taskID (tasks db)
  ∧ tasks (Cards.deleteTask taskID userID db).2 = delete taskID (tasks db)
  ∧ (Text.deleteTask taskID userID db).1
    = Ok (textResponse ("🗑️ Task " +:+ Strconv.Itoa taskID +:+ " deleted!"))
  ∧ tasks db1 !! taskID = None
  ∧ (∀ j, j ≠ taskID → tasks db1 !! j = tasks db !! j)
  ∧ (∀ u r', (taskID, r') ∉ sql_select (where_user u) (tasks db1))
  ∧ (next_fault db1 = None →
     (Text.deleteTask taskID userID db1).1 = Ok (textResponse (notFoundText taskID))
     ∧ tasks (Text.deleteTask taskID userID db1).2 = tasks db1).
Proof.
  intros Hf Hr Hu db1. subst db1.
  rewrite Text_deleteTask_guarded, Cards_deleteTask_guarded.
  rewrite !(guarded_hit _ _ _ db r) by done. simpl.
  rewrite Cards_listTasks_tasks. simpl. split_and!; try done.
  - apply lookup_delete_eq.
  - intros j Hj. by rewrite lookup_delete_ne.
  - intros u r' [Hl _]%sql_select_elem. by rewrite lookup_delete_eq in Hl.
  - intros Hf1. rewrite guarded_miss; [done | done |].
    simpl. intros r0. by rewrite lookup_delete_eq.
Qed.

Lemma delete_effect_witness :
  next_fault sampleDB = None
  ∧ tasks (Text.deleteTask 2 "bob" sampleDB).2 !! 2 = None.
Proof.
  split; [reflexivity|].
  pose proof (delete_effect 2 "bob" sampleDB
    {| content := "Call mum"; done := true; user_id := "bob" |}
    eq_refl eq_refl eq_refl) as (_ & _ & _ & Hnone & _).
  exact Hnone.
Defined.

(** X3. Edit with non-empty content on a task of the caller replaces the
    content of that row and nothing else: done flag and owner stay, every
    other row stays; the text revision answers with the new content. *)
Theorem edit_effect (taskID : Z) (newContent userID : string) (db : DB) (r : Task) :
  newContent ≠ "" →
  next_fault db = None → tasks db !! taskID = Some r → user_id r = userID →
  let after := <[taskID := {| content := newContent; done := done r;
                              user_id := user_id r |}]> (tasks db) in
  tasks (Text.editTask taskID newContent userID db).2 = after
  ∧ tasks (Cards.editTask taskID newContent userID db).2 = after
  ∧ (Text.editTask taskID newContent userID db).1
    = Ok (textResponse ("✏️ Task " +:+ Strconv.Itoa taskID +:+ " updated to: "
                        +:+ newContent))
  ∧ (∀ j, j ≠ taskID → after !! j = tasks db !! j)
  ∧ dom after = dom (tasks db).
Proof.
  intros Hc Hf Hr Hu after.
  rewrite Text_editTask_guarded, Cards_editTask_guarded by done.
  rewrite !(guarded_hit _ _ _ db r) by done. simpl.
  rewrite Cards_listTasks_tasks. simpl. split_and!; try done.
  - intros j Hj. subst after. by rewrite lookup_insert_ne.
  - subst after. rewrite dom_insert_L.
    assert (taskID ∈ dom (tasks db)) by (apply elem_of_dom; eauto).
    set_solver.
Qed.

Lemma edit_effect_witness :
  next_fault sampleDB = None
  ∧ tasks (Text.editTask 1 "Buy oat milk" "alice" sampleDB).2 !! 1
    = Some {| content := "Buy oat milk"; done := false; user_id := "alice" |}.
Proof.
  split; [reflexivity|].
  assert ("Buy oat milk" ≠ "") as Hc by (intros H; discriminate H).
  pose proof (edit_effect 1 "Buy oat milk" "alice" sampleDB
    {| content := "Buy milk"; done := false; user_id := "alice" |}
    Hc eq_refl eq_refl eq_refl) as (Ht & _).
  rewrite Ht. apply lookup_insert_eq.
Defined.

(** ** Ids and the sequence *)

Lemma extends_refl db : extends db db.
Proof. split; [lia | by left]. Qed.

Lemma extends_trans db1 db2 db3 : extends db1 db2 → extends db2 db3 → extends db1 db3.
Proof.
  intros [Hs1 Hn1] [Hs2 Hn2]. split; [lia|]. intros i Hi.
  destruct (Hn2 i Hi) as [Hi2|?]; [|right; lia].
  destruct (Hn1 i Hi2) as [?|?]; [by left | right; lia].
Qed.

Lemma extends_same db db' :
  tasks db' = tasks db → serial db' = serial db → extends db db'.
Proof. intros Ht Hs. split; [lia|]. intros i. rewrite Ht. by left. Qed.

Lemma extends_issued db db' : extends db db' → issued db → issued db'.
Proof.
  intros [Hs Hn] Hi i r Hr.
  destruct (Hn i) as [[r0 Hr0]|?]; [by eexists | | lia].
  specialize (Hi i r0 Hr0). lia.
Qed.

Lemma Exec_serial q db : serial (Exec q db).2 = serial db.
Proof.
  unfold Exec, send. simpl. destruct (mjoin _); [done|].
  by destruct (run_exec q (tasks db)).
Qed.

Lemma Exec_extends q db : extends db (Exec q db).2.
Proof.
  split; [rewrite Exec_serial; lia|]. intros i Hi. left.
  destruct (next_fault db) as [e|] eqn:Hf.
  { by rewrite (Exec_fault _ _ e) in Hi. }
  destruct (owned_dec db (target q).1 (target q).2) as [(r & Hr & Hu)|Hno].
  - rewrite (Exec_hit _ _ r) in Hi by done. simpl in Hi.
    destruct (decide (i = (target q).1)) as [->|Hne]; [by eexists|].
    destruct (effect q r); by rewrite ?lookup_insert_ne, ?lookup_delete_ne in Hi.
  - by rewrite Exec_miss in Hi by eauto using not_owned_miss.
Qed.

Lemma Query_extends userID db : extends db (Query userID db).2.
Proof.
  apply extends_same; [apply Query_tasks|].
  unfold Query, send. simpl. by destruct (mjoin _).
Qed.

Lemma QueryRowContent_extends taskID userID db :
  extends db (QueryRowContent taskID userID db).2.
Proof.
  apply extends_same; [apply QueryRowContent_tasks|].
  unfold QueryRowContent, send. simpl. destruct (mjoin _); [done|].
  by destruct (sql_select _ _).
Qed.

Lemma QueryRowInsert_extends newContent userID db :
  extends db (QueryRowInsert newContent userID db).2.
Proof.
  unfold QueryRowInsert, send. simpl.
  destruct (mjoin _); [by apply extends_same|]. simpl.
  destruct (tasks db !! serial db) eqn:Hs; simpl.
  - split; simpl; [lia | by left].
  - split; simpl; [lia|]. intros i Hi.
    destruct (decide (i = serial db)) as [->|Hne]; [right; lia|].
    left. by rewrite lookup_insert_ne in Hi.
Qed.





(** ** One request, at most one statement (two in the card revision) *)

Lemma step_refl n db : step n db db.
Proof.
  split_and!; [apply extends_refl | | done].
  exists []. split; [unfold sent; by rewrite app_nil_r | simpl; lia].
Qed.

Lemma step_mono n m db db' : (n ≤ m)%nat → step n db db' → step m db db'.
Proof.
  intros Hnm (He & (l & Hl & Hlen) & Hf). split_and!; [done | | done].
  exists l. split; [done | lia].
Qed.

Lemma QueryRowInsert_journal newContent userID db :
  journal (QueryRowInsert newContent userID db).2
  = journal db ++ [SInsert newContent userID].
Proof.
  unfold QueryRowInsert, send. simpl. destruct (mjoin _); [done|]. simpl.
  by destruct (tasks db !! serial db).
Qed.

Lemma Exec_step q db : step 1 db (Exec q db).2.
Proof.
  split_and!; [apply Exec_extends | | apply Exec_tasks_fault].
  exists [SExec q]. split; [apply Exec_journal | done].
Qed.

Lemma Query_step userID db : step 1 db (Query userID db).2.
Proof.
  split_and!; [apply Query_extends | | intros; apply Query_tasks].
  exists [SSelectTasks userID]. split; [apply Query_journal | done].
Qed.

Lemma QueryRowContent_step taskID userID db :
  step 1 db (QueryRowContent taskID userID db).2.
Proof.
  split_and!; [apply QueryRowContent_extends | | intros; apply QueryRowContent_tasks].
  exists [SSelectContent taskID userID]. split; [apply QueryRowContent_journal | done].
Qed.

Lemma QueryRowInsert_step newContent userID db :
  step 1 db (QueryRowInsert newContent userID db).2.
Proof.
  split_and!; [apply QueryRowInsert_extends | |].
  - exists [SInsert newContent userID]. split; [apply QueryRowInsert_journal | done].
  - intros e He. unfold QueryRowInsert, send. fold (next_fault db). by rewrite He.
Qed.

(** The state a handler leaves is the state its statement leaves. *)
Lemma Plain_addTask_state newContent userID db :
  (Plain.addTask newContent userID db).2 = (QueryRowInsert newContent userID db).2.
Proof. unfold Plain.addTask. by destruct (QueryRowInsert _ _ _) as [[?|?] ?]. Qed.

Lemma Text_addTask_state newContent userID db :
  (Text.addTask newContent userID db).2 = (QueryRowInsert newContent userID db).2.
Proof. unfold Text.addTask. by destruct (QueryRowInsert _ _ _) as [[?|?] ?]. Qed.

Lemma Cards_addTask_state newContent userID db :
  (Cards.addTask newContent userID db).2 = (QueryRowInsert newContent userID db).2.
Proof. unfold Cards.addTask. by destruct (QueryRowInsert _ _ _) as [[?|?] ?]. Qed.

Lemma Plain_listTasks_state userID db :
  (Plain.listTasks userID db).2 = (Query userID db).2.
Proof.
  unfold Plain.listTasks. destruct (Query _ _) as [[?|?] ?]; [|done].
  by case_bool_decide.
Qed.

Lemma Text_listTasks_state userID db :
  (Text.listTasks userID db).2 = (Query userID db).2.
Proof.
  unfold Text.listTasks. destruct (Query _ _) as [[?|?] ?]; [|done].
  by case_bool_decide.
Qed.

Lemma Cards_listTasks_state userID db :
  (Cards.listTasks userID db).2 = (Query userID db).2.
Proof.
  unfold Cards.listTasks. destruct (Query _ _) as [[?|?] ?]; [|done].
  by case_bool_decide.
Qed.

Lemma Text_showEditForm_state taskID userID db :
  (Text.showEditForm taskID userID db).2 = (QueryRowContent taskID userID db).2.
Proof. unfold Text.showEditForm. by destruct (QueryRowContent _ _ _) as [[?|?] ?]. Qed.

Lemma Cards_showEditForm_state taskID userID db :
  (Cards.showEditForm taskID userID db).2 = (QueryRowContent taskID userID db).2.
Proof. unfold Cards.showEditForm. by destruct (QueryRowContent _ _ _) as [[?|?] ?]. Qed.

Lemma guarded_const_state {R : Type} q (nf ok : R) db :
  (guarded q nf (λ d, (Ok ok, d)) db).2 = (Exec q db).2.
Proof.
  unfold guarded. destruct (Exec q db) as [[n|e] d]; [|done].
  by destruct (n =? 0).
Qed.

Lemma guarded_list_step {R : Type} q (nf : R) userID
    (k : DB → result R * DB) db :
  (∀ d, (k d).2 = (Query userID d).2) →
  step 2 db (guarded q nf k db).2.
Proof.
  intros Hk. unfold guarded.
  pose proof (Exec_step q db) as Hs.
  destruct (Exec q db) as [[n|e] d] eqn:He; simpl in *;
    [|apply (step_mono 1); [lia | done]].
  destruct (n =? 0); [apply (step_mono 1); [lia | done]|].
  rewrite Hk. destruct Hs as (Hext & (l & Hl & Hlen) & Hfail).
  split_and!.
  - eapply extends_trans; [done | apply Query_extends].
  - exists (l ++ [SSelectTasks userID]). split.
    + unfold sent in *. by rewrite Query_journal, Hl, app_assoc.
    + rewrite length_app. simpl. lia.
  - intros e Hf. rewrite Query_tasks. by eapply Hfail.
Qed.

Lemma wrapErr_state prefix r : (wrapErr prefix r).2 = r.2.
Proof. unfold wrapErr. by destruct r.1. Qed.

Lemma Plain_wrap_state prefix r : (Plain.wrap prefix r).2 = r.2.
Proof. unfold Plain.wrap. by destruct r.1. Qed.

Lemma callText_step c userID db : step 1 db (callText c userID db).2.
Proof.
  destruct c as [|taskID|taskID|taskID newContent|taskID]; unfold callText.
  - rewrite Text_listTasks_state. apply Query_step.
  - rewrite Text_markTaskDone_guarded, guarded_const_state. apply Exec_step.
  - rewrite Text_deleteTask_guarded, guarded_const_state. apply Exec_step.
  - destruct (decide (newContent = "")) as [->|Hne]; [apply step_refl|].
    rewrite Text_editTask_guarded, guarded_const_state by done. apply Exec_step.
  - rewrite Text_showEditForm_state. apply QueryRowContent_step.
Qed.

Lemma callCards_step c userID db : step 2 db (callCards c userID db).2.
Proof.
  destruct c as [|taskID|taskID|taskID newContent|taskID]; unfold callCards.
  - rewrite Cards_listTasks_state. apply (step_mono 1); [lia | apply Query_step].
  - rewrite Cards_markTaskDone_guarded.
    apply (guarded_list_step _ _ userID), Cards_listTasks_state.
  - rewrite Cards_deleteTask_guarded.
    apply (guarded_list_step _ _ userID), Cards_listTasks_state.
  - destruct (decide (newContent = "")) as [->|Hne]; [apply step_refl|].
    rewrite Cards_editTask_guarded by done.
    apply (guarded_list_step _ _ userID), Cards_listTasks_state.
  - rewrite Cards_showEditForm_state.
    apply (step_mono 1); [lia | apply QueryRowContent_step].
Qed.

(** A card action is answered without the store, or it is one store call
    for the resolved owner. *)
Lemma Text_handleCardAction_call req db :
  (Text.handleCardAction req db).2 = db
  ∨ ∃ c, Text.handleCardAction req db
         = callText c (resolveUserID (Message_Sender (Request_Message req))) db.
Proof.
  unfold Text.handleCardAction. destruct (Request_Action req) as [action|]; [|by left].
  destruct (Strconv.Atoi _) as [taskID [err|]].
  { repeat (destruct (bool_decide (_ = _)); [by (left + (right; exists CallList))|]).
    by left. }
  destruct (bool_decide (_ = "markDone")); [right; by exists (CallSetDone taskID)|].
  destruct (bool_decide (_ = "deleteTask")); [right; by exists (CallDelete taskID)|].
  destruct (bool_decide (_ = "editTask")).
  { right. destruct (bool_decide (_ = "")); simpl.
    - by exists (CallReadContent taskID).
    - by eexists (CallEdit taskID _). }
  destruct (bool_decide (_ = "list")); [right; by exists CallList | by left].
Qed.

Lemma Cards_handleCardAction_call req db :
  (Cards.handleCardAction req db).2 = db
  ∨ ∃ c, Cards.handleCardAction req db
         = callCards c (resolveUserID (Message_Sender (Request_Message req))) db.
Proof.
  unfold Cards.handleCardAction. destruct (Request_Action req) as [action|]; [|by left].
  destruct (Strconv.Atoi _) as [taskID [err|]].
  { repeat (destruct (bool_decide (_ = _)); [by (left + (right; exists CallList))|]).
    by left. }
  destruct (bool_decide (_ = "markDone")); [right; by exists (CallSetDone taskID)|].
  destruct (bool_decide (_ = "deleteTask")); [right; by exists (CallDelete taskID)|].
  destruct (bool_decide (_ = "editTask")).
  { right. destruct (bool_decide (_ = "")); simpl.
    - by exists (CallReadContent taskID).
    - by eexists (CallEdit taskID _). }
  destruct (bool_decide (_ = "list")); [right; by exists CallList | by left].
Qed.

Lemma Text_handleCardAction_step req db : step 1 db (Text.handleCardAction req db).2.
Proof.
  destruct (Text_handleCardAction_call req db) as [->|[c ->]];
    [apply step_refl | apply callText_step].
Qed.

Lemma Cards_handleCardAction_step req db : step 2 db (Cards.handleCardAction req db).2.
Proof.
  destruct (Cards_handleCardAction_call req db) as [->|[c ->]];
    [apply step_refl | apply callCards_step].
Qed.

Lemma Text_HandleChat_step req db : step 1 db (Text.HandleChat req db).2.
Proof.
  unfold Text.HandleChat. destruct (Request_Action req);
    [apply Text_handleCardAction_step|].
  repeat (destruct (MatchString _ _); [rewrite wrapErr_state|]);
    try apply step_refl.
  - rewrite Text_addTask_state. apply QueryRowInsert_step.
  - apply (callText_step CallList).
  - apply (callText_step (CallSetDone _)).
  - apply (callText_step (CallEdit _ _)).
  - destruct (MatchString _ _); apply step_refl.
Qed.

Lemma Cards_HandleChat_step req db : step 2 db (Cards.HandleChat req db).2.
Proof.
  unfold Cards.HandleChat. destruct (Request_Action req);
    [apply Cards_handleCardAction_step|].
  repeat (destruct (MatchString _ _); [rewrite wrapErr_state|]);
    try apply step_refl.
  - rewrite Cards_addTask_state.
    apply (step_mono 1); [lia | apply QueryRowInsert_step].
  - apply (callCards_step CallList).
  - apply (callCards_step (CallSetDone _)).
Qed.

Lemma Plain_HandleChat_step req db : step 1 db (Plain.HandleChat req db).2.
Proof.
  unfold Plain.HandleChat.
  repeat (destruct (MatchString _ _); [rewrite Plain_wrap_state|]);
    try apply step_refl.
  - rewrite Plain_addTask_state. apply QueryRowInsert_step.
  - rewrite Plain_listTasks_state. apply Query_step.
  - rewrite Plain_markTaskDone_guarded, guarded_const_state. apply Exec_step.
Qed.

(** ** Trimming *)

Lemma rev_app_spec (s acc : string) : String.rev_app s acc = String.rev s +:+ acc.
Proof.
  unfold String.rev. revert acc. induction s as [|c s IH]; intros acc; [done|].
  simpl. rewrite (IH (String c "")), IH. by rewrite append_assoc.
Qed.

Lemma rev_cons c (s : string) : String.rev (String c s) = String.rev s +:+ String c "".
Proof. unfold String.rev at 1. simpl. apply rev_app_spec. Qed.

Lemma rev_append (a b : string) : String.rev (a +:+ b) = String.rev b +:+ String.rev a.
Proof.
  induction a as [|c a IH].
  - change ("" +:+ b) with b. change (String.rev "") with "".
    by rewrite append_empty_r.
  - rewrite append_cons, !rev_cons, IH. by rewrite append_assoc.
Qed.

Lemma rev_involutive (s : string) : String.rev (String.rev s) = s.
Proof.
  induction s as [|c s IH]; [done|].
  rewrite rev_cons, rev_append, IH. reflexivity.
Qed.

Lemma append_length (a b : string) :
  String.length (a +:+ b) = (String.length a + String.length b)%nat.
Proof. induction a as [|c a IH]; [done|]. rewrite append_cons. simpl. by rewrite IH. Qed.

Lemma append_eq_empty (a b : string) : a +:+ b = "" → a = "" ∧ b = "".
Proof.
  destruct a as [|c a]; [intros H; split; [done | exact H]|].
  by rewrite append_cons.
Qed.

Section trim.
Context (p2 : ascii → ascii → bool) (p3 : ascii → ascii → ascii → bool).

Lemma trimWith_unfold s :
  Strings.trimWith p2 p3 s
  = match leading p2 p3 s with
    | Some rest => Strings.trimWith p2 p3 rest
    | None => s
    end.
Proof.
  destruct s as [|c [|d [|e s]]]; simpl; try done.
  - by destruct (Strings.asciiSpace c).
  - destruct (Strings.asciiSpace c); [done|]. by destruct (p2 c d).
  - destruct (Strings.asciiSpace c); [done|]. destruct (p2 c d); [done|].
    by destruct (p3 c d e).
Qed.

(** A leading rune is one to three bytes. *)
Lemma leading_split s rest :
  leading p2 p3 s = Some rest →
  ∃ rune, s = rune +:+ rest ∧ (1 ≤ String.length rune ≤ 3)%nat.
Proof.
  destruct s as [|c [|d [|e s]]]; simpl; try done.
  - destruct (Strings.asciiSpace c); [|done]. intros [= <-].
    exists (String c ""). split; [done | simpl; lia].
  - destruct (Strings.asciiSpace c).
    { intros [= <-]. exists (String c ""). split; [done | simpl; lia]. }
    destruct (p2 c d); [|done]. intros [= <-].
    exists (String c (String d "")). split; [done | simpl; lia].
  - destruct (Strings.asciiSpace c).
    { intros [= <-]. exists (String c ""). split; [done | simpl; lia]. }
    destruct (p2 c d).
    { intros [= <-]. exists (String c (String d "")). split; [done | simpl; lia]. }
    destruct (p3 c d e); [|done]. intros [= <-].
    exists (String c (String d (String e ""))). split; [done | simpl; lia].
Qed.

(** What is in front stays in front when text is appended. *)
Lemma leading_app s rest z :
  leading p2 p3 s = Some rest → leading p2 p3 (s +:+ z) = Some (rest +:+ z).
Proof.
  destruct s as [|c [|d [|e s]]]; simpl; try done.
  - destruct (Strings.asciiSpace c); [|done]. by intros [= <-].
  - destruct (Strings.asciiSpace c); [by intros [= <-]|].
    destruct (p2 c d); [|done]. by intros [= <-].
  - destruct (Strings.asciiSpace c); [by intros [= <-]|].
    destruct (p2 c d); [by intros [= <-]|].
    destruct (p3 c d e); [|done]. by intros [= <-].
Qed.

Lemma leading_app_None s z :
  leading p2 p3 (s +:+ z) = None → leading p2 p3 s = None.
Proof.
  intros Hn. destruct (leading p2 p3 s) as [rest|] eqn:Hs; [|done].
  by rewrite (leading_app _ _ z Hs) in Hn.
Qed.

(** The loop by the length of the text: the result is a suffix with no
    white space in front. *)
Lemma trimWith_spec n s :
  (String.length s ≤ n)%nat →
  leading p2 p3 (Strings.trimWith p2 p3 s) = None
  ∧ ∃ pre, s = pre +:+ Strings.trimWith p2 p3 s.
Proof.
  revert s. induction n as [|n IH]; intros s Hlen.
  - destruct s; [|simpl in Hlen; lia]. split; [done | by exists ""].
  - rewrite trimWith_unfold. destruct (leading p2 p3 s) as [rest|] eqn:Hl.
    + destruct (leading_split _ _ Hl) as (rune & -> & Hr).
      rewrite append_length in Hlen.
      destruct (IH rest ltac:(lia)) as [Hnone [pre Hpre]].
      split; [done|]. exists (rune +:+ pre). by rewrite append_assoc, <- Hpre.
    + split; [done | by exists ""].
Qed.

Lemma trimWith_leading s : leading p2 p3 (Strings.trimWith p2 p3 s) = None.
Proof. by apply (trimWith_spec (String.length s)). Qed.

Lemma trimWith_suffix s : ∃ pre, s = pre +:+ Strings.trimWith p2 p3 s.
Proof. by apply (trimWith_spec (String.length s)). Qed.

Lemma trimWith_fixed s : leading p2 p3 s = None → Strings.trimWith p2 p3 s = s.
Proof. intros H. by rewrite trimWith_unfold, H. Qed.

Lemma trimWith_changed s :
  Strings.trimWith p2 p3 s ≠ s → is_Some (leading p2 p3 s).
Proof.
  intros Hne. destruct (leading p2 p3 s) eqn:Hl; [by eexists|].
  by rewrite trimWith_fixed in Hne.
Qed.

End trim.

(** The white-space predicates on bytes, decided by arithmetic. *)
Ltac bytes :=
  unfold Strings.asciiSpace, Strings.space2, Strings.space3, cls_s, cls_dot,
    cls_d, is_digit in *;
  repeat match goal with
         | |- _ = false => apply not_true_iff_false; intros ?
         | H : _ = false |- _ => apply not_true_iff_false in H
         end;
  rewrite ?andb_true_iff, ?orb_true_iff, ?negb_true_iff, ?Z.eqb_eq, ?Z.eqb_neq,
    ?Z.leb_le in *;
  lia.

Lemma TrimLeftSpace_spec s :
  fwd (Strings.TrimLeftSpace s) = None ∧ ∃ pre, s = pre +:+ Strings.TrimLeftSpace s.
Proof. split; [apply trimWith_leading | apply trimWith_suffix]. Qed.

Lemma rev_TrimRightSpace s :
  String.rev (Strings.TrimRightSpace s)
  = Strings.trimWith (λ c d, Strings.space2 d c) (λ c d e, Strings.space3 e d c)
      (String.rev s).
Proof. unfold Strings.TrimRightSpace. apply rev_involutive. Qed.

Lemma TrimRightSpace_spec s :
  bwd (String.rev (Strings.TrimRightSpace s)) = None
  ∧ ∃ post, s = Strings.TrimRightSpace s +:+ post.
Proof.
  rewrite rev_TrimRightSpace. split; [apply trimWith_leading|].
  destruct (trimWith_suffix (λ c d, Strings.space2 d c) (λ c d e, Strings.space3 e d c)
              (String.rev s)) as [pre Hpre].
  exists (String.rev pre). unfold Strings.TrimRightSpace.
  by rewrite <- rev_append, <- Hpre, rev_involutive.
Qed.

(** The trimmed text sits inside the text and has no white-space rune at
    either end. *)
Lemma TrimSpace_clean s :
  fwd (Strings.TrimSpace s) = None
  ∧ bwd (String.rev (Strings.TrimSpace s)) = None
  ∧ ∃ pre post, s = pre +:+ Strings.TrimSpace s +:+ post.
Proof.
  unfold Strings.TrimSpace.
  destruct (TrimLeftSpace_spec s) as [Hl [pre Hpre]].
  destruct (TrimRightSpace_spec (Strings.TrimLeftSpace s)) as [Hr [post Hpost]].
  split_and!; [|done|].
  - rewrite Hpost in Hl. by apply leading_app_None in Hl.
  - exists pre, post. by rewrite <- Hpost.
Qed.

Lemma TrimSpace_fixed s :
  fwd s = None → bwd (String.rev s) = None → Strings.TrimSpace s = s.
Proof.
  intros Hf Hb. unfold Strings.TrimSpace, Strings.TrimLeftSpace, Strings.TrimRightSpace.
  rewrite (trimWith_fixed _ _ s Hf), (trimWith_fixed _ _ _ Hb). apply rev_involutive.
Qed.

Lemma TrimSpace_idempotent s :
  Strings.TrimSpace (Strings.TrimSpace s) = Strings.TrimSpace s.
Proof. destruct (TrimSpace_clean s) as (Hf & Hb & _). by apply TrimSpace_fixed. Qed.

(** A white-space rune read from the front is one when read from the
    back. *)
Lemma leading_rune s rest :
  fwd s = Some rest → ∃ rune, s = rune +:+ rest ∧ bwd (String.rev rune) = Some "".
Proof.
  destruct s as [|c [|d [|e s]]]; simpl; try done.
  - destruct (Strings.asciiSpace c) eqn:Hc; [|done]. intros [= <-].
    exists (String c ""). split; [done|]. simpl. by rewrite Hc.
  - destruct (Strings.asciiSpace c) eqn:Hc.
    { intros [= <-]. exists (String c ""). split; [done|]. simpl. by rewrite Hc. }
    destruct (Strings.space2 c d) eqn:H2; [|done]. intros [= <-].
    exists (String c (String d "")). split; [done|].
    change (String.rev (String c (String d ""))) with (String d (String c "")).
    simpl. rewrite H2. assert (Strings.asciiSpace d = false) as -> by bytes. done.
  - destruct (Strings.asciiSpace c) eqn:Hc.
    { intros [= <-]. exists (String c ""). split; [done|]. simpl. by rewrite Hc. }
    destruct (Strings.space2 c d) eqn:H2.
    { intros [= <-]. exists (String c (String d "")). split; [done|].
      change (String.rev (String c (String d ""))) with (String d (String c "")).
      simpl. rewrite H2. assert (Strings.asciiSpace d = false) as -> by bytes. done. }
    destruct (Strings.space3 c d e) eqn:H3; [|done]. intros [= <-].
    exists (String c (String d (String e ""))). split; [done|].
    change (String.rev (String c (String d (String e ""))))
      with (String e (String d (String c ""))).
    simpl. rewrite H3.
    assert (Strings.asciiSpace e = false) as -> by bytes.
    assert (Strings.space2 d e = false) as -> by bytes. done.
Qed.

(** A text that the forward loop eats whole ends in a white-space rune. *)
Lemma all_space_ends_in_space n s :
  (String.length s ≤ n)%nat → s ≠ "" → Strings.TrimLeftSpace s = "" →
  is_Some (bwd (String.rev s)).
Proof.
  revert s. induction n as [|n IH]; intros s Hlen Hne Ht.
  { destruct s; [done | simpl in Hlen; lia]. }
  unfold Strings.TrimLeftSpace in Ht. rewrite trimWith_unfold in Ht.
  destruct (fwd s) as [rest|] eqn:Hl; [|done].
  destruct (leading_rune _ _ Hl) as (rune & -> & Hrune).
  rewrite rev_append. destruct rest as [|c rest'] eqn:Hrest.
  - change (String.rev "") with "". change ("" +:+ String.rev rune) with (String.rev rune).
    by rewrite Hrune.
  - rewrite <- Hrest in *.
    destruct (leading_split _ _ _ _ Hl) as (rune' & Heq & Hr').
    assert (String.length rest < String.length (rune +:+ rest))%nat as Hlt.
    { rewrite Heq, !append_length. lia. }
    destruct (IH rest) as [x Hx]; [lia | by subst | done |].
    rewrite (leading_app _ _ _ _ _ Hx). by eexists.
Qed.

(** In a trimmed text every non-empty tail still has something left after
    trimming. *)
Lemma trimmed_tail_nonempty t x c :
  bwd (String.rev t) = None → t = x +:+ c → c ≠ "" → Strings.TrimSpace c ≠ "".
Proof.
  intros Hb -> Hc Hempty.
  rewrite rev_append in Hb. apply leading_app_None in Hb.
  unfold Strings.TrimSpace in Hempty.
  destruct (TrimLeftSpace_spec c) as [_ [pre Hpre]].
  destruct (decide (Strings.TrimLeftSpace c = "")) as [Hl|Hl].
  - destruct (all_space_ends_in_space _ c (le_n _) Hc Hl) as [y Hy]. congruence.
  - assert (is_Some (bwd (String.rev (Strings.TrimLeftSpace c)))) as [y Hy].
    { apply trimWith_changed. fold (String.rev (Strings.TrimLeftSpace c)).
      intros Heq. apply (f_equal String.rev) in Heq.
      rewrite rev_involutive in Heq. fold (Strings.TrimRightSpace (Strings.TrimLeftSpace c)) in Heq.
      rewrite Hempty in Heq. by rewrite <- Heq in Hl. }
    rewrite Hpre, rev_append, (leading_app _ _ _ _ _ Hy) in Hb. done.
Qed.

(** ** Content is never empty *)

Lemma add_capture_nonempty text :
  MatchString addCmd (Strings.TrimSpace text) = true →
  Strings.TrimSpace (FindStringSubmatch addCmd (Strings.TrimSpace text) !!! 1%nat) ≠ "".
Proof.
  intros (l & Hl & ->)%MatchString_find.
  apply addCmd_sound in Hl as (ws & c & Ht & _ & _ & Hc & _ & ->).
  destruct (TrimSpace_clean text) as (_ & Hb & _).
  apply (trimmed_tail_nonempty _ ("add" +:+ ws) c Hb); [|done].
  by rewrite Ht, append_assoc.
Qed.

Lemma edit_capture_nonempty text :
  MatchString editCmd (Strings.TrimSpace text) = true →
  Strings.TrimSpace (FindStringSubmatch editCmd (Strings.TrimSpace text) !!! 2%nat) ≠ "".
Proof.
  intros (l & Hl & ->)%MatchString_find.
  apply editCmd_sound in Hl as (ws & ds & ws' & c & Ht & _ & _ & Hc & _ & ->).
  destruct (TrimSpace_clean text) as (_ & Hb & _).
  apply (trimmed_tail_nonempty _ ("edit" +:+ ws +:+ ds +:+ ws') c Hb); [|done].
  by rewrite Ht, !append_assoc.
Qed.

Lemma Exec_contentful q db :
  (∀ c taskID userID, q = UpdateContent c taskID userID → c ≠ "") →
  contentful db → contentful (Exec q db).2.
Proof.
  intros Hq Hc i x Hx.
  destruct (next_fault db) as [e|] eqn:Hf.
  { rewrite (Exec_fault _ _ e) in Hx by done. by eapply Hc. }
  destruct (owned_dec db (target q).1 (target q).2) as [(r & Hr & Hu)|Hno].
  - rewrite (Exec_hit _ _ r) in Hx by done. simpl in Hx.
    destruct (effect q r) as [r'|] eqn:He.
    + apply lookup_insert_Some in Hx as [[_ <-]|[_ Hx]]; [|by eapply Hc].
      destruct q; simpl in He; [|done|]; injection He as <-; simpl;
        [by eapply Hc | by eapply Hq].
    + apply lookup_delete_Some in Hx as [_ Hx]. by eapply Hc.
  - rewrite Exec_miss in Hx by eauto using not_owned_miss. by eapply Hc.
Qed.

Lemma QueryRowInsert_contentful newContent userID db :
  newContent ≠ "" → contentful db →
  contentful (QueryRowInsert newContent userID db).2.
Proof.
  intros Hne Hc i x. unfold QueryRowInsert, send. simpl.
  destruct (mjoin _); [apply Hc|]. simpl.
  destruct (tasks db !! serial db); simpl; [apply Hc|].
  intros [[_ <-]|[_ Hx]]%lookup_insert_Some; [done | by eapply Hc].
Qed.

Lemma same_tasks_contentful db db' :
  tasks db' = tasks db → contentful db → contentful db'.
Proof. intros Ht Hc i x. rewrite Ht. apply Hc. Qed.

Lemma callText_contentful c userID db :
  contentful db → contentful (callText c userID db).2.
Proof.
  intros Hc. destruct c as [|taskID|taskID|taskID newContent|taskID]; unfold callText.
  - apply (same_tasks_contentful db); [apply Text_listTasks_tasks | done].
  - rewrite Text_markTaskDone_guarded, guarded_const_state.
    by apply Exec_contentful.
  - rewrite Text_deleteTask_guarded, guarded_const_state.
    by apply Exec_contentful.
  - destruct (decide (newContent = "")) as [->|Hne]; [done|].
    rewrite Text_editTask_guarded, guarded_const_state by done.
    apply Exec_contentful; [|done]. by intros c t u [= <- _ _].
  - apply (same_tasks_contentful db); [apply Text_showEditForm_tasks | done].
Qed.

Lemma guarded_list_contentful q userID db :
  (∀ c taskID u, q = UpdateContent c taskID u → c ≠ "") →
  contentful db →
  contentful (guarded q (textResponse (notFoundText (target q).1))
                (Cards.listTasks userID) db).2.
Proof.
  intros Hq Hc. unfold guarded.
  pose proof (Exec_contentful q db Hq Hc) as He.
  destruct (Exec q db) as [[n|e] d]; simpl in *; [|done].
  destruct (n =? 0); [done|].
  apply (same_tasks_contentful d); [apply Cards_listTasks_tasks | done].
Qed.

Lemma callCards_contentful c userID db :
  contentful db → contentful (callCards c userID db).2.
Proof.
  intros Hc. destruct c as [|taskID|taskID|taskID newContent|taskID]; unfold callCards.
  - apply (same_tasks_contentful db); [apply Cards_listTasks_tasks | done].
  - rewrite Cards_markTaskDone_guarded.
    by apply (guarded_list_contentful (UpdateDone taskID userID)).
  - rewrite Cards_deleteTask_guarded.
    by apply (guarded_list_contentful (DeleteTask taskID userID)).
  - destruct (decide (newContent = "")) as [->|Hne]; [done|].
    rewrite Cards_editTask_guarded by done.
    apply (guarded_list_contentful (UpdateContent newContent taskID userID)); [|done].
    by intros c t u [= <- _ _].
  - apply (same_tasks_contentful db); [apply Cards_showEditForm_tasks | done].
Qed.

(** X5. Whatever request comes in at whichever endpoint of whichever revision,
    a table in which every task has content is one afterwards.  Nothing in
    [addTask] checks the content: for [add] it is the pattern and the
    trimming of the message that leave no way to an empty one. *)
Theorem requests_keep_content_nonempty (req : ChatRequest) (text : string)
    (s : Sender) (db : DB) :
  contentful db →
  contentful (Plain.HandleChat
                {| Plain.Request_Message :=
                     {| Message_Text := text; Message_Sender := s |} |} db).2
  ∧ contentful (Cards.HandleChat req db).2
  ∧ contentful (Cards.HandleCardAction req db).2
  ∧ contentful (Text.HandleChat req db).2
  ∧ contentful (Text.HandleCardAction req db).2.
Proof.
  intros Hc.
  assert (contentful (Cards.handleCardAction req db).2) as HCa.
  { destruct (Cards_handleCardAction_call req db) as [->|[c ->]];
      [done | by apply callCards_contentful]. }
  assert (contentful (Text.handleCardAction req db).2) as HTa.
  { destruct (Text_handleCardAction_call req db) as [->|[c ->]];
      [done | by apply callText_contentful]. }
  split_and!; [| |done| |done].
  - unfold Plain.HandleChat. cbn [Plain.Request_Message Message_Text Message_Sender].
    destruct (MatchString addCmd _) eqn:Ha.
    { rewrite Plain_wrap_state, Plain_addTask_state.
      apply QueryRowInsert_contentful; [by apply add_capture_nonempty | done]. }
    destruct (MatchString listCmd _).
    { rewrite Plain_wrap_state, Plain_listTasks_state.
      apply (same_tasks_contentful db); [apply Query_tasks | done]. }
    destruct (MatchString doneCmd _); [|done].
    rewrite Plain_wrap_state, Plain_markTaskDone_guarded, guarded_const_state.
    by apply Exec_contentful.
  - unfold Cards.HandleChat. destruct (Request_Action req); [done|].
    destruct (MatchString addCmd _) eqn:Ha.
    { rewrite wrapErr_state, Cards_addTask_state.
      apply QueryRowInsert_contentful; [by apply add_capture_nonempty | done]. }
    destruct (MatchString listCmd _).
    { rewrite wrapErr_state. by apply (callCards_contentful CallList). }
    destruct (MatchString doneCmd _); [|done].
    rewrite wrapErr_state. by apply (callCards_contentful (CallSetDone _)).
  - unfold Text.HandleChat. destruct (Request_Action req); [done|].
    destruct (MatchString addCmd _) eqn:Ha.
    { rewrite wrapErr_state, Text_addTask_state.
      apply QueryRowInsert_contentful; [by apply add_capture_nonempty | done]. }
    destruct (MatchString listCmd _).
    { rewrite wrapErr_state. by apply (callText_contentful CallList). }
    destruct (MatchString doneCmd _).
    { rewrite wrapErr_state. by apply (callText_contentful (CallSetDone _)). }
    destruct (MatchString editCmd _).
    { rewrite wrapErr_state. by apply (callText_contentful (CallEdit _ _)). }
    by destruct (MatchString testCmd _).
Qed.

Lemma sampleDB_contentful : contentful sampleDB.
Proof.
  intros i r Hr. cbn [tasks sampleDB] in *.
  apply lookup_insert_Some in Hr as [[_ <-]|[_ Hr]]; [done|].
  by apply lookup_singleton_Some in Hr as [_ <-].
Qed.

Lemma requests_keep_content_nonempty_witness :
  contentful (Text.HandleChat (textRequest "add  Feed cat " (sender "" "alice")) sampleDB).2.
Proof.
  apply (requests_keep_content_nonempty
           (textRequest "add  Feed cat " (sender "" "alice")) "" (sender "" "alice")
           sampleDB sampleDB_contentful).
Defined.

(** ** Which requests create a task *)

Lemma creates_none_refl db : creates_none db db.
Proof. by split. Qed.

Lemma creates_none_trans db1 db2 db3 :
  creates_none db1 db2 → creates_none db2 db3 → creates_none db1 db3.
Proof. intros [Hs1 Hd1] [Hs2 Hd2]. split; [congruence | set_solver]. Qed.

Lemma creates_none_same db db' :
  tasks db' = tasks db → serial db' = serial db → creates_none db db'.
Proof. intros Ht Hs. split; [done | by rewrite Ht]. Qed.

Lemma creates_none_one db db' : creates_none db db' → creates_at_most_one db db'.
Proof. by left. Qed.

Lemma creates_at_most_one_issued db db' :
  creates_at_most_one db db' → issued db → issued db'.
Proof.
  intros [[Hs Hd]|[Hs Hd]] Hi i r Hr;
    assert (i ∈ dom (tasks db')) as Hin by (apply elem_of_dom; by eexists);
    apply Hd in Hin.
  - apply elem_of_dom in Hin as [r0 Hr0]. specialize (Hi i r0 Hr0). lia.
  - apply elem_of_union in Hin as [Hin|Hin].
    + apply elem_of_dom in Hin as [r0 Hr0]. specialize (Hi i r0 Hr0). lia.
    + apply elem_of_singleton in Hin. lia.
Qed.

Lemma Exec_creates_none q db : creates_none db (Exec q db).2.
Proof.
  split; [apply Exec_serial|]. intros i Hi. apply elem_of_dom in Hi.
  apply elem_of_dom.
  destruct (next_fault db) as [e|] eqn:Hf.
  { by rewrite (Exec_fault _ _ e) in Hi. }
  destruct (owned_dec db (target q).1 (target q).2) as [(r & Hr & Hu)|Hno].
  - rewrite (Exec_hit _ _ r) in Hi by done. simpl in Hi.
    destruct (decide (i = (target q).1)) as [->|Hne]; [by eexists|].
    destruct (effect q r); by rewrite ?lookup_insert_ne, ?lookup_delete_ne in Hi.
  - by rewrite Exec_miss in Hi by eauto using not_owned_miss.
Qed.

Lemma Query_creates_none userID db : creates_none db (Query userID db).2.
Proof.
  apply creates_none_same; [apply Query_tasks|].
  unfold Query, send. simpl. by destruct (mjoin _).
Qed.

Lemma QueryRowContent_creates_none taskID userID db :
  creates_none db (QueryRowContent taskID userID db).2.
Proof.
  apply creates_none_same; [apply QueryRowContent_tasks|].
  unfold QueryRowContent, send. simpl. destruct (mjoin _); [done|].
  by destruct (sql_select _ _).
Qed.

Lemma QueryRowInsert_creates newContent userID db :
  creates_at_most_one db (QueryRowInsert newContent userID db).2.
Proof.
  unfold QueryRowInsert, send. simpl.
  destruct (mjoin _); simpl; [left; by split|]. right.
  destruct (tasks db !! serial db) eqn:Hs; simpl; (split; [done|]).
  - set_solver.
  - rewrite dom_insert. set_solver.
Qed.

Lemma guarded_list_creates_none {R : Type} q (nf : R) userID
    (k : DB → result R * DB) db :
  (∀ d, (k d).2 = (Query userID d).2) →
  creates_none db (guarded q nf k db).2.
Proof.
  intros Hk. unfold guarded.
  pose proof (Exec_creates_none q db) as Hs.
  destruct (Exec q db) as [[n|e] d] eqn:He; simpl in *; [|done].
  destruct (n =? 0); [done|].
  rewrite Hk. eapply creates_none_trans; [done | apply Query_creates_none].
Qed.

Lemma callText_creates_none c userID db : creates_none db (callText c userID db).2.
Proof.
  destruct c as [|taskID|taskID|taskID newContent|taskID]; unfold callText.
  - rewrite Text_listTasks_state. apply Query_creates_none.
  - rewrite Text_markTaskDone_guarded, guarded_const_state. apply Exec_creates_none.
  - rewrite Text_deleteTask_guarded, guarded_const_state. apply Exec_creates_none.
  - destruct (decide (newContent = "")) as [->|Hne]; [apply creates_none_refl|].
    rewrite Text_editTask_guarded, guarded_const_state by done.
    apply Exec_creates_none.
  - rewrite Text_showEditForm_state. apply QueryRowContent_creates_none.
Qed.

Lemma callCards_creates_none c userID db : creates_none db (callCards c userID db).2.
Proof.
  destruct c as [|taskID|taskID|taskID newContent|taskID]; unfold callCards.
  - rewrite Cards_listTasks_state. apply Query_creates_none.
  - rewrite Cards_markTaskDone_guarded.
    apply (guarded_list_creates_none _ _ userID), Cards_listTasks_state.
  - rewrite Cards_deleteTask_guarded.
    apply (guarded_list_creates_none _ _ userID), Cards_listTasks_state.
  - destruct (decide (newContent = "")) as [->|Hne]; [apply creates_none_refl|].
    rewrite Cards_editTask_guarded by done.
    apply (guarded_list_creates_none _ _ userID), Cards_listTasks_state.
  - rewrite Cards_showEditForm_state. apply QueryRowContent_creates_none.
Qed.

Lemma Text_handleCardAction_creates_none req db :
  creates_none db (Text.handleCardAction req db).2.
Proof.
  destruct (Text_handleCardAction_call req db) as [->|[c ->]];
    [apply creates_none_refl | apply callText_creates_none].
Qed.

Lemma Cards_handleCardAction_creates_none req db :
  creates_none db (Cards.handleCardAction req db).2.
Proof.
  destruct (Cards_handleCardAction_call req db) as [->|[c ->]];
    [apply creates_none_refl | apply callCards_creates_none].
Qed.

Lemma Plain_HandleChat_creates req db :
  creates_at_most_one db (Plain.HandleChat req db).2
  ∧ (MatchString addCmd (Strings.TrimSpace (Message_Text (Plain.Request_Message req)))
     = false → creates_none db (Plain.HandleChat req db).2).
Proof.
  unfold Plain.HandleChat. destruct (MatchString addCmd _).
  { split; [|done]. rewrite Plain_wrap_state, Plain_addTask_state.
    apply QueryRowInsert_creates. }
  assert (∀ d, creates_none db d → creates_at_most_one db d ∧ (false = false →
            creates_none db d)) as Hq by (intros d Hd; split; [by left | done]).
  apply Hq.
  repeat (destruct (MatchString _ _); [rewrite Plain_wrap_state|]).
  - rewrite Plain_listTasks_state. apply Query_creates_none.
  - rewrite Plain_markTaskDone_guarded, guarded_const_state. apply Exec_creates_none.
  - apply creates_none_refl.
Qed.

Lemma Cards_HandleChat_creates req db :
  creates_at_most_one db (Cards.HandleChat req db).2
  ∧ (Request_Action req ≠ None
     ∨ MatchString addCmd (Strings.TrimSpace (Message_Text (Request_Message req)))
       = false → creates_none db (Cards.HandleChat req db).2).
Proof.
  assert (∀ (P : Prop) d, creates_none db d → creates_at_most_one db d ∧ (P →
            creates_none db d)) as Hq by (intros P d Hd; split; [by left | done]).
  unfold Cards.HandleChat. destruct (Request_Action req).
  { apply Hq, Cards_handleCardAction_creates_none. }
  destruct (MatchString addCmd _).
  { split; [|by intros [?|?]]. rewrite wrapErr_state, Cards_addTask_state.
    apply QueryRowInsert_creates. }
  apply Hq.
  repeat (destruct (MatchString _ _); [rewrite wrapErr_state|]).
  - apply (callCards_creates_none CallList).
  - apply (callCards_creates_none (CallSetDone _)).
  - apply creates_none_refl.
Qed.

Lemma Text_HandleChat_creates req db :
  creates_at_most_one db (Text.HandleChat req db).2
  ∧ (Request_Action req ≠ None
     ∨ MatchString addCmd (Strings.TrimSpace (Message_Text (Request_Message req)))
       = false → creates_none db (Text.HandleChat req db).2).
Proof.
  assert (∀ (P : Prop) d, creates_none db d → creates_at_most_one db d ∧ (P →
            creates_none db d)) as Hq by (intros P d Hd; split; [by left | done]).
  unfold Text.HandleChat. destruct (Request_Action req).
  { apply Hq, Text_handleCardAction_creates_none. }
  destruct (MatchString addCmd _).
  { split; [|by intros [?|?]]. rewrite wrapErr_state, Text_addTask_state.
    apply QueryRowInsert_creates. }
  apply Hq.
  repeat (destruct (MatchString _ _); [rewrite wrapErr_state|]).
  - apply (callText_creates_none CallList).
  - apply (callText_creates_none (CallSetDone _)).
  - apply (callText_creates_none (CallEdit _ _)).
  - destruct (MatchString _ _); apply creates_none_refl.
Qed.

(** X6. A task comes into being through [add] and through nothing else.
    A card action of any kind, and a chat message that is not an [add],
    leaves the sequence where it stood and no id in the table that was not
    there.  An [add] creates at most one task, under the id the sequence
    issued, and the sequence moves on by one.  So a table whose ids were all
    issued by the sequence stays one, at every endpoint of every revision. *)
Theorem only_add_creates_a_task (req : ChatRequest) (text : string)
    (s : Sender) (db : DB) :
  let plain := {| Plain.Request_Message :=
                    {| Message_Text := text; Message_Sender := s |} |} in
  let notAdd t := MatchString addCmd (Strings.TrimSpace t) = false in
  (creates_none db (Cards.HandleCardAction req db).2
   ∧ creates_none db (Text.HandleCardAction req db).2)
  ∧ (notAdd text → creates_none db (Plain.HandleChat plain db).2)
  ∧ (Request_Action req ≠ None ∨ notAdd (Message_Text (Request_Message req)) →
     creates_none db (Cards.HandleChat req db).2
     ∧ creates_none db (Text.HandleChat req db).2)
  ∧ (creates_at_most_one db (Plain.HandleChat plain db).2
     ∧ creates_at_most_one db (Cards.HandleChat req db).2
     ∧ creates_at_most_one db (Text.HandleChat req db).2)
  ∧ (issued db →
     issued (Plain.HandleChat plain db).2
     ∧ issued (Cards.HandleChat req db).2
     ∧ issued (Cards.HandleCardAction req db).2
     ∧ issued (Text.HandleChat req db).2
     ∧ issued (Text.HandleCardAction req db).2).
Proof.
  intros plain notAdd. subst notAdd.
  destruct (Plain_HandleChat_creates plain db) as [HP1 HP0].
  destruct (Cards_HandleChat_creates req db) as [HC1 HC0].
  destruct (Text_HandleChat_creates req db) as [HT1 HT0].
  pose proof (Cards_handleCardAction_creates_none req db) as HCa.
  pose proof (Text_handleCardAction_creates_none req db) as HTa.
  split_and!; try done.
  - intros H. split; [by apply HC0 | by apply HT0].
  - intros Hi. split_and!;
      eauto using creates_at_most_one_issued, creates_none_one.
Qed.

(** ** What a request does to the database *)

(** X7. A request is handled with at most one statement in [chat.go] and in
    the text revision, and with at most two in the card revision. *)
Theorem request_statement_count (req : ChatRequest) (text : string)
    (s : Sender) (db : DB) :
  let plain := {| Plain.Request_Message :=
                    {| Message_Text := text; Message_Sender := s |} |} in
  (∃ l, journal (Plain.HandleChat plain db).2 = journal db ++ l ∧ (length l ≤ 1)%nat)
  ∧ (∃ l, journal (Text.HandleChat req db).2 = journal db ++ l ∧ (length l ≤ 1)%nat)
  ∧ (∃ l, journal (Text.HandleCardAction req db).2 = journal db ++ l
          ∧ (length l ≤ 1)%nat)
  ∧ (∃ l, journal (Cards.HandleChat req db).2 = journal db ++ l ∧ (length l ≤ 2)%nat)
  ∧ (∃ l, journal (Cards.HandleCardAction req db).2 = journal db ++ l
          ∧ (length l ≤ 2)%nat).
Proof.
  intros plain.
  pose proof (Plain_HandleChat_step plain db) as (_ & H1 & _).
  pose proof (Text_HandleChat_step req db) as (_ & H2 & _).
  pose proof (Text_handleCardAction_step req db) as (_ & H3 & _).
  pose proof (Cards_HandleChat_step req db) as (_ & H4 & _).
  pose proof (Cards_handleCardAction_step req db) as (_ & H5 & _).
  by split_and!.
Qed.

(** X8. When the store fails on the first statement of a request, the table
    is what it was, at every endpoint of every revision. *)
Theorem failed_statement_changes_nothing (req : ChatRequest) (text : string)
    (s : Sender) (db : DB) (e : string) :
  next_fault db = Some e →
  tasks (Plain.HandleChat
           {| Plain.Request_Message :=
                {| Message_Text := text; Message_Sender := s |} |} db).2 = tasks db
  ∧ tasks (Cards.HandleChat req db).2 = tasks db
  ∧ tasks (Cards.HandleCardAction req db).2 = tasks db
  ∧ tasks (Text.HandleChat req db).2 = tasks db
  ∧ tasks (Text.HandleCardAction req db).2 = tasks db.
Proof.
  intros Hf.
  pose proof (Plain_HandleChat_step
    {| Plain.Request_Message := {| Message_Text := text; Message_Sender := s |} |} db)
    as (_ & _ & H1).
  pose proof (Cards_HandleChat_step req db) as (_ & _ & H2).
  pose proof (Cards_handleCardAction_step req db) as (_ & _ & H3).
  pose proof (Text_HandleChat_step req db) as (_ & _ & H4).
  pose proof (Text_handleCardAction_step req db) as (_ & _ & H5).
  split_and!; eauto.
Qed.

Lemma failed_statement_changes_nothing_witness :
  next_fault unreachableDB = Some "connection refused"
  ∧ tasks (Text.HandleChat (textRequest "done 1" (sender "" "alice")) unreachableDB).2
    = tasks unreachableDB.
Proof.
  split; [reflexivity|].
  pose proof (failed_statement_changes_nothing
    (textRequest "done 1" (sender "" "alice")) "" (sender "" "alice")
    unreachableDB "connection refused" eq_refl) as (_ & _ & _ & H & _).
  exact H.
Defined.

(** ** Parameters of a card action *)

Lemma collectParams_from (ps : list Param) (m : gmap string string) k :
  (∀ p, p ∈ ps → Param_Key p ≠ k) →
  foldl (λ params param, <[Param_Key param := Param_Value param]> params) m ps !! k
  = m !! k.
Proof.
  revert m. induction ps as [|p ps IH]; intros m Hps; simpl; [done|].
  rewrite IH by (intros q Hq; apply Hps; by apply list_elem_of_further).
  apply lookup_insert_ne. apply Hps, list_elem_of_here.
Qed.

(** X9. Of several parameters with the same key the last one counts, and a key
    that is not among the parameters reads as the empty string. *)
Theorem collectParams_last_wins (ps qs : list Param) (k v : string) :
  (∀ q, q ∈ qs → Param_Key q ≠ k) →
  param (collectParams (ps ++ {| Param_Key := k; Param_Value := v |} :: qs)) k = v
  ∧ collectParams qs !! k = None
  ∧ param (collectParams qs) k = "".
Proof.
  intros Hqs. unfold param, collectParams.
  rewrite foldl_app. simpl.
  rewrite !collectParams_from by done.
  by rewrite lookup_insert_eq, lookup_empty.
Qed.

Lemma collectParams_last_wins_witness :
  param (collectParams
           [ {| Param_Key := "taskId"; Param_Value := "1" |};
             {| Param_Key := "taskId"; Param_Value := "2" |};
             {| Param_Key := "content"; Param_Value := "x" |} ]) "taskId" = "2".
Proof.
  apply (collectParams_last_wins
           [ {| Param_Key := "taskId"; Param_Value := "1" |} ]
           [ {| Param_Key := "content"; Param_Value := "x" |} ] "taskId" "2").
  intros q Hq. apply list_elem_of_singleton in Hq as ->. simpl. intros H. discriminate H.
Defined.

(** ** Actions that are not known *)

(** X10. A request at the card-action endpoint without an action is answered
    with the invalid-action text, and an action whose method is none of
    markDone, deleteTask, editTask and list with the unknown-action text,
    whatever its parameters; neither reaches the store. *)
Theorem unknown_action_touches_nothing (req : ChatRequest) (db : DB) :
  (Request_Action req = None →
     Cards.HandleCardAction req db = (Ok (textResponse invalidActionText), db)
     ∧ Text.HandleCardAction req db = (Ok (textResponse invalidActionText), db))
  ∧ (∀ action, Request_Action req = Some action →
       Action_MethodName action ∉ ["markDone"; "deleteTask"; "editTask"; "list"] →
       Cards.HandleCardAction req db = (Ok (textResponse unknownActionText), db)
       ∧ Text.HandleCardAction req db = (Ok (textResponse unknownActionText), db)
       ∧ Cards.HandleChat req db = (Ok (textResponse unknownActionText), db)
       ∧ Text.HandleChat req db = (Ok (textResponse unknownActionText), db)).
Proof.
  unfold Cards.HandleCardAction, Text.HandleCardAction, Cards.HandleChat,
    Text.HandleChat, Cards.handleCardAction, Text.handleCardAction.
  split.
  - by intros ->.
  - intros action -> Hm.
    rewrite !bool_decide_eq_false_2; [done|..];
      intros Heq; apply Hm; rewrite Heq; repeat constructor.
Qed.

(** ** From a rendered button back to the handler *)

Section click.
Context (req : ChatRequest) (action : Action) (db : DB) (id : Z).
Context (Hreq : Request_Action req = Some action).
Context (Hid : - 2 ^ 63 ≤ id < 2 ^ 63).

Lemma taskId_read_back :
  Strconv.Atoi (param (taskIdParams id) "taskId") = (id, None).
Proof.
  unfold param, taskIdParams. rewrite lookup_singleton_eq.
  cbn [default]. by apply Atoi_Itoa.
Qed.

Lemma content_absent : param (taskIdParams id) "content" = "".
Proof. unfold param, taskIdParams. by rewrite lookup_singleton_ne. Qed.

Lemma click_markDone :
  Action_MethodName action = "markDone" →
  collectParams (Action_Parameters action) = taskIdParams id →
  Cards.handleCardAction req db = callCards (CallSetDone id) (resolveUserID (Message_Sender (Request_Message req))) db
  ∧ Text.handleCardAction req db = callText (CallSetDone id) (resolveUserID (Message_Sender (Request_Message req))) db.
Proof.
  intros Hm Hp. unfold Cards.handleCardAction, Text.handleCardAction.
  rewrite Hreq, Hm, Hp, taskId_read_back. by split.
Qed.

Lemma click_deleteTask :
  Action_MethodName action = "deleteTask" →
  collectParams (Action_Parameters action) = taskIdParams id →
  Cards.handleCardAction req db = callCards (CallDelete id) (resolveUserID (Message_Sender (Request_Message req))) db
  ∧ Text.handleCardAction req db = callText (CallDelete id) (resolveUserID (Message_Sender (Request_Message req))) db.
Proof.
  intros Hm Hp. unfold Cards.handleCardAction, Text.handleCardAction.
  rewrite Hreq, Hm, Hp, taskId_read_back. by split.
Qed.

Lemma click_editTask :
  Action_MethodName action = "editTask" →
  collectParams (Action_Parameters action) = taskIdParams id →
  Cards.handleCardAction req db = callCards (CallReadContent id) (resolveUserID (Message_Sender (Request_Message req))) db
  ∧ Text.handleCardAction req db = callText (CallReadContent id) (resolveUserID (Message_Sender (Request_Message req))) db.
Proof.
  intros Hm Hp. unfold Cards.handleCardAction, Text.handleCardAction.
  rewrite Hreq, Hm, Hp, taskId_read_back, content_absent. by split.
Qed.

Lemma click_list :
  Action_MethodName action = "list" →
  Cards.handleCardAction req db = callCards CallList (resolveUserID (Message_Sender (Request_Message req))) db
  ∧ Text.handleCardAction req db = callText CallList (resolveUserID (Message_Sender (Request_Message req))) db.
Proof.
  intros Hm. unfold Cards.handleCardAction, Text.handleCardAction.
  rewrite Hreq, Hm. by split.
Qed.

End click.

Lemma cardButtons_taskCard row :
  cardButtons (Cards.taskCard row) = Cards.createTaskButtons row.1 (done row.2).
Proof. unfold cardButtons. simpl. by rewrite !app_nil_r. Qed.

(** X11. Every button of every card the card revision renders (the cards of the
    list, the card shown after an add, the edit form) comes back as a
    known action on the task of its card: an action that carries the
    method and the parameters of the button is dispatched to SetDone,
    Delete or the edit form of that very task, or to the list.  Save
    carries the id only, so it leads to the edit form again, not to Edit. *)
Theorem rendered_buttons_dispatch (card : Card) (id : Z) (r : Task) (c : string)
    (b : Button) (tb : TextButton) (req : ChatRequest) (action : Action) (db : DB) :
  - 2 ^ 63 ≤ id < 2 ^ 63 →
  card ∈ [Cards.taskCard (id, r); Cards.addedCard id c; Cards.editFormCard id c] →
  b ∈ cardButtons card →
  Button_TextButton b = Some tb →
  Request_Action req = Some action →
  Action_MethodName action
  = CardAction_MethodName (OnClick_Action (TextButton_OnClick tb)) →
  collectParams (Action_Parameters action)
  = CardAction_Parameters (OnClick_Action (TextButton_OnClick tb)) →
  let userID := resolveUserID (Message_Sender (Request_Message req)) in
  ∃ call,
    Cards.handleCardAction req db = callCards call userID db
    ∧ Text.handleCardAction req db = callText call userID db
    ∧ (TextButton_Text tb = "Mark as Done" ∧ call = CallSetDone id
       ∨ TextButton_Text tb = "Edit" ∧ call = CallReadContent id
       ∨ TextButton_Text tb = "Delete" ∧ call = CallDelete id
       ∨ TextButton_Text tb = "Save" ∧ call = CallReadContent id
       ∨ TextButton_Text tb = "Cancel" ∧ call = CallList).
Proof.
  intros Hid Hcard Hb Htb Hreq Hm Hp userID.
  assert (b ∈ [ textButton "Mark as Done" "markDone" (taskIdParams id);
                textButton "Edit" "editTask" (taskIdParams id);
                textButton "Delete" "deleteTask" (taskIdParams id);
                textButton "Save" "editTask" (taskIdParams id);
                textButton "Cancel" "list" ∅ ]) as Hin.
  { repeat (apply elem_of_cons in Hcard as [-> | Hcard]);
      [| | |by apply elem_of_nil in Hcard].
    - rewrite cardButtons_taskCard in Hb.
      destruct (createTaskButtons_spec id (done r)) as (_ & _ & _ & Hall & _).
      destruct (Hall b Hb) as [[-> _] | [-> | ->]]; repeat constructor.
    - unfold cardButtons in Hb. simpl in Hb.
      repeat (apply elem_of_cons in Hb as [-> | Hb]); [..|by apply elem_of_nil in Hb];
        repeat constructor.
    - unfold cardButtons in Hb. simpl in Hb.
      repeat (apply elem_of_cons in Hb as [-> | Hb]); [..|by apply elem_of_nil in Hb];
        repeat constructor. }
  repeat (apply elem_of_cons in Hin as [-> | Hin]); [..|by apply elem_of_nil in Hin];
    injection Htb as <-; simpl in Hm, Hp.
  - exists (CallSetDone id).
    destruct (click_markDone req action db id Hreq Hid Hm Hp) as [HC HT].
    split_and!; [exact HC | exact HT | by left].
  - exists (CallReadContent id).
    destruct (click_editTask req action db id Hreq Hid Hm Hp) as [HC HT].
    split_and!; [exact HC | exact HT | right; left; done].
  - exists (CallDelete id).
    destruct (click_deleteTask req action db id Hreq Hid Hm Hp) as [HC HT].
    split_and!; [exact HC | exact HT | right; right; left; done].
  - exists (CallReadContent id).
    destruct (click_editTask req action db id Hreq Hid Hm Hp) as [HC HT].
    split_and!; [exact HC | exact HT | right; right; right; left; done].
  - exists CallList.
    destruct (click_list req action db Hreq Hm) as [HC HT].
    split_and!; [exact HC | exact HT | right; right; right; right; done].
Qed.

Lemma rendered_buttons_dispatch_witness :
  ∃ call,
    Cards.handleCardAction
      (actionRequest "deleteTask" [("taskId", "1")] (sender "" "alice")) sampleDB
    = callCards call "alice" sampleDB
    ∧ call = CallDelete 1.
Proof.
  assert (- 2 ^ 63 ≤ 1 < 2 ^ 63) as Hid by lia.
  destruct (rendered_buttons_dispatch
    (Cards.taskCard (1, {| content := "Buy milk"; done := false; user_id := "alice" |}))
    1 {| content := "Buy milk"; done := false; user_id := "alice" |} ""
    (textButton "Delete" "deleteTask" (taskIdParams 1))
    {| TextButton_Text := "Delete";
       TextButton_OnClick := onClick "deleteTask" (taskIdParams 1) |}
    (actionRequest "deleteTask" [("taskId", "1")] (sender "" "alice"))
    {| Action_MethodName := "deleteTask";
       Action_Parameters := [ {| Param_Key := "taskId"; Param_Value := "1" |} ] |}
    sampleDB Hid) as (call & Hc & _ & Hcall).
  - apply list_elem_of_here.
  - rewrite cardButtons_taskCard. simpl.
    do 2 apply list_elem_of_further. apply list_elem_of_here.
  - reflexivity.
  - reflexivity.
  - reflexivity.
  - reflexivity.
  - exists call. split; [exact Hc|].
    destruct Hcall as [[H _]|[[H _]|[[_ H]|[[H _]|[H _]]]]];
      try discriminate H; exact H.
Defined.

(** ** Commands as the user types them *)

Lemma more_stop {A : Type} cls m rest acc (k : string → string → option A) r :
  all_chars cls m = true →
  (∀ c r', rest = String c r' → cls c = false) →
  k (acc +:+ m) rest = Some r →
  more cls (m +:+ rest) acc k = Some r.
Proof.
  revert acc. induction m as [|c m IH]; intros acc Hall Hrest Hk.
  - rewrite append_empty_r in Hk. change ("" +:+ rest) with rest.
    destruct rest as [|c rest']; simpl; [done|].
    by rewrite (Hrest c rest' eq_refl).
  - simpl in Hall. apply andb_true_iff in Hall as [Hc Hall].
    rewrite append_cons. simpl. rewrite Hc.
    rewrite (IH (acc +:+ String c "")); [done.. |]. by rewrite append_assoc.
Qed.

(** A repetition takes all of a run that ends where the class ends. *)
Lemma exec_plus_at {A : Type} cls s m rest caps
    (k : string → string → list string → option A) r :
  s = m +:+ rest → m ≠ "" → all_chars cls m = true →
  (∀ c r', rest = String c r' → cls c = false) →
  k m rest caps = Some r →
  exec (Plus cls) s caps k = Some r.
Proof.
  intros -> Hne Hall Hrest Hk. destruct m as [|c m]; [done|].
  simpl in Hall. apply andb_true_iff in Hall as [Hc Hall].
  rewrite append_cons. simpl. rewrite Hc. by apply more_stop.
Qed.

Lemma exec_lit_at {A : Type} p s rest caps
    (k : string → string → list string → option A) :
  s = p +:+ rest → exec (Lit p) s caps k = k p rest caps.
Proof.
  intros ->. simpl.
  assert (strip_prefix p (p +:+ rest) = Some rest) as ->; [|done].
  induction p as [|a p IHp]; [reflexivity|].
  rewrite append_cons. simpl. by rewrite bool_decide_eq_true_2.
Qed.

Lemma exec_concat {A : Type} r1 r2 s caps
    (k : string → string → list string → option A) :
  exec (Concat r1 r2) s caps k
  = exec r1 s caps (λ m1 rest caps1,
      exec r2 rest caps1 (λ m2 rest' caps2, k (m1 +:+ m2) rest' caps2)).
Proof. reflexivity. Qed.

Lemma exec_group {A : Type} r1 s caps
    (k : string → string → list string → option A) :
  exec (Group r1) s caps k = exec r1 s caps (λ m rest caps1, k m rest (caps1 ++ [m])).
Proof. reflexivity. Qed.

Lemma starts_not_space s :
  fwd s = None → ∀ c r', s = String c r' → cls_s c = false.
Proof.
  intros Hf c r' ->. simpl in Hf.
  destruct (Strings.asciiSpace c) eqn:Hc; [done|]. bytes.
Qed.

Lemma digit_not_space ds :
  all_chars is_digit ds = true → ∀ c r', ds = String c r' → cls_s c = false.
Proof. intros Hall c r' ->. simpl in Hall. apply andb_true_iff in Hall as [Hc _]. bytes. Qed.

Lemma space_not_digit ws :
  all_chars cls_s ws = true → ∀ c r', ws = String c r' → cls_d c = false.
Proof. intros Hall c r' ->. simpl in Hall. apply andb_true_iff in Hall as [Hc _]. bytes. Qed.

Lemma nothing_follows cls : ∀ (c : ascii) (r' : string), "" = String c r' → cls c = false.
Proof. intros c r' [=]. Qed.

(** [done], white space, digits: the group is the digits. *)
Lemma find_done ws ds :
  ws ≠ "" → all_chars cls_s ws = true → ds ≠ "" → all_chars is_digit ds = true →
  find doneCmd ("done" +:+ ws +:+ ds) = Some ["done" +:+ ws +:+ ds; ds].
Proof.
  intros Hws Hs Hds Hd. unfold find, doneCmd.
  rewrite exec_concat, (exec_lit_at "done" _ (ws +:+ ds)) by done.
  rewrite exec_concat.
  eapply (exec_plus_at cls_s _ ws ds); [done.. | by apply digit_not_space |].
  cbv beta. rewrite exec_group.
  eapply (exec_plus_at cls_d _ ds ""); [by rewrite append_empty_r | done.. |
    apply nothing_follows |].
  reflexivity.
Qed.

(** [add], white space, text on one line that does not begin with white
    space: the group is the text. *)
Lemma find_add ws c :
  ws ≠ "" → all_chars cls_s ws = true → c ≠ "" → all_chars cls_dot c = true →
  fwd c = None →
  find addCmd ("add" +:+ ws +:+ c) = Some ["add" +:+ ws +:+ c; c].
Proof.
  intros Hws Hs Hc Hdot Hf. unfold find, addCmd.
  rewrite exec_concat, (exec_lit_at "add" _ (ws +:+ c)) by done.
  rewrite exec_concat.
  eapply (exec_plus_at cls_s _ ws c); [done.. | by apply starts_not_space |].
  cbv beta. rewrite exec_group.
  eapply (exec_plus_at cls_dot _ c ""); [by rewrite append_empty_r | done.. |
    apply nothing_follows |].
  reflexivity.
Qed.

(** [edit], white space, digits, white space, text. *)
Lemma find_edit ws ds ws' c :
  ws ≠ "" → all_chars cls_s ws = true → ds ≠ "" → all_chars is_digit ds = true →
  ws' ≠ "" → all_chars cls_s ws' = true →
  c ≠ "" → all_chars cls_dot c = true → fwd c = None →
  find editCmd ("edit" +:+ ws +:+ ds +:+ ws' +:+ c)
  = Some ["edit" +:+ ws +:+ ds +:+ ws' +:+ c; ds; c].
Proof.
  intros Hws Hs Hds Hd Hws' Hs' Hc Hdot Hf. unfold find, editCmd.
  rewrite exec_concat, (exec_lit_at "edit" _ (ws +:+ ds +:+ ws' +:+ c)) by done.
  rewrite exec_concat.
  eapply (exec_plus_at cls_s _ ws (ds +:+ ws' +:+ c)); [done.. | |].
  { intros x r' Hx. destruct ds as [|d ds']; [done|].
    rewrite append_cons in Hx. injection Hx as <- _.
    by eapply digit_not_space. }
  cbv beta. rewrite exec_concat, exec_group.
  eapply (exec_plus_at cls_d _ ds (ws' +:+ c)); [done.. | |].
  { intros x r' Hx. destruct ws' as [|w ws'']; [done|].
    rewrite append_cons in Hx. injection Hx as <- _.
    by eapply space_not_digit. }
  cbv beta. rewrite exec_concat.
  eapply (exec_plus_at cls_s _ ws' c); [done.. | by apply starts_not_space |].
  cbv beta. rewrite exec_group.
  eapply (exec_plus_at cls_dot _ c ""); [by rewrite append_empty_r | done.. |
    apply nothing_follows |].
  reflexivity.
Qed.

Lemma all_chars_rev p s : all_chars p (String.rev s) = all_chars p s.
Proof.
  induction s as [|c s IH]; [done|].
  rewrite rev_cons, all_chars_app, IH. simpl. by rewrite andb_true_r, andb_comm.
Qed.

Lemma rev_nonempty s : s ≠ "" → String.rev s ≠ "".
Proof.
  intros Hne Hr. apply Hne. apply (f_equal String.rev) in Hr.
  by rewrite rev_involutive in Hr.
Qed.

(** An ASCII byte that is not white space is the start of no white-space
    rune, from either side, whatever follows. *)
Lemma fwd_ascii c s :
  code c < 128 → Strings.asciiSpace c = false → fwd (String c s) = None.
Proof.
  intros Hc Ha. simpl. rewrite Ha.
  destruct s as [|d [|e s]]; [done | |].
  - assert (Strings.space2 c d = false) as -> by bytes. done.
  - assert (Strings.space2 c d = false) as -> by bytes.
    assert (Strings.space3 c d e = false) as -> by bytes. done.
Qed.

Lemma bwd_ascii c s :
  code c < 128 → Strings.asciiSpace c = false → bwd (String c s) = None.
Proof.
  intros Hc Ha. simpl. rewrite Ha.
  destruct s as [|d [|e s]]; [done | |].
  - assert (Strings.space2 d c = false) as -> by bytes. done.
  - assert (Strings.space2 d c = false) as -> by bytes.
    assert (Strings.space3 e d c = false) as -> by bytes. done.
Qed.

(** What comes before a text that ends clean does not matter, as long as
    it ends in an ASCII byte. *)
Lemma bwd_app_ascii x z0 z :
  bwd x = None → x ≠ "" → code z0 < 128 → bwd (x +:+ String z0 z) = None.
Proof.
  intros Hb Hne Hz. destruct x as [|c0 [|c1 [|c2 x]]]; [done | | |].
  - simpl in Hb. rewrite !append_cons. change ("" +:+ String z0 z) with (String z0 z).
    simpl. destruct (Strings.asciiSpace c0); [done|].
    assert (Strings.space2 z0 c0 = false) as -> by bytes.
    destruct z as [|z1 z]; [done|].
    assert (Strings.space3 z1 z0 c0 = false) as -> by bytes. done.
  - simpl in Hb. rewrite !append_cons. change ("" +:+ String z0 z) with (String z0 z).
    simpl. destruct (Strings.asciiSpace c0); [done|].
    destruct (Strings.space2 c1 c0); [done|].
    assert (Strings.space3 z0 c1 c0 = false) as -> by bytes. done.
  - simpl in Hb. rewrite !append_cons. simpl.
    destruct (Strings.asciiSpace c0); [done|].
    destruct (Strings.space2 c1 c0); [done|].
    by destruct (Strings.space3 c2 c1 c0).
Qed.

Lemma digits_end_clean ds z :
  ds ≠ "" → all_chars is_digit ds = true → bwd (String.rev ds +:+ z) = None.
Proof.
  intros Hne Hall. pose proof (rev_nonempty _ Hne) as Hr.
  rewrite <- all_chars_rev in Hall.
  destruct (String.rev ds) as [|c s]; [done|].
  simpl in Hall. apply andb_true_iff in Hall as [Hc _].
  rewrite append_cons. apply bwd_ascii; bytes.
Qed.

Lemma cls_s_ascii ws :
  ws ≠ "" → all_chars cls_s ws = true →
  ∃ z0 z, String.rev ws = String z0 z ∧ code z0 < 128.
Proof.
  intros Hne Hall. pose proof (rev_nonempty _ Hne) as Hr.
  rewrite <- all_chars_rev in Hall.
  destruct (String.rev ws) as [|c s]; [done|].
  simpl in Hall. apply andb_true_iff in Hall as [Hc _].
  exists c, s. split; [done | bytes].
Qed.

(** A text that is its own trimming has no white space at either end. *)
Lemma TrimSpace_own c :
  Strings.TrimSpace c = c → fwd c = None ∧ bwd (String.rev c) = None.
Proof. intros H. destruct (TrimSpace_clean c) as (Hf & Hb & _). by rewrite H in Hf, Hb. Qed.

Lemma Itoa_digits n :
  0 ≤ n → Strconv.Itoa n ≠ "" ∧ all_chars is_digit (Strconv.Itoa n) = true.
Proof.
  intros Hn. unfold Strconv.Itoa. rewrite (proj2 (Z.ltb_ge _ _)) by lia.
  split; [apply formatBits_nonempty | by rewrite formatBits_digits].
Qed.

Lemma only_done t :
  MatchString doneCmd t = true →
  MatchString addCmd t = false ∧ MatchString listCmd t = false.
Proof.
  intros Hd. pose proof (patterns_disjoint t) as H. rewrite Hd in H.
  destruct (MatchString addCmd t), (MatchString listCmd t),
    (MatchString editCmd t), (MatchString testCmd t); simpl in H; (done || lia).
Qed.

Lemma only_edit t :
  MatchString editCmd t = true →
  MatchString addCmd t = false ∧ MatchString listCmd t = false
  ∧ MatchString doneCmd t = false.
Proof.
  intros Hd. pose proof (patterns_disjoint t) as H. rewrite Hd in H.
  destruct (MatchString addCmd t), (MatchString listCmd t),
    (MatchString doneCmd t), (MatchString testCmd t); simpl in H; (done || lia).
Qed.

Lemma find_MatchString r t l :
  find r t = Some l → MatchString r t = true ∧ FindStringSubmatch r t = l.
Proof.
  intros H. unfold MatchString, FindStringSubmatch. rewrite H.
  split; [by apply bool_decide_eq_true_2 | done].
Qed.

(** X12. The id the bot prints is the id [done] reads: for every id a task can
    have, [done], white space and the id in decimal is trimmed to itself,
    matched by the [done] pattern alone, and converted back to that id, so
    the message is SetDone on that task in all three revisions. *)
Theorem done_reads_printed_id (n : Z) (ws : string) (s : Sender) (db : DB) :
  0 ≤ n < 2 ^ 63 → ws ≠ "" → all_chars cls_s ws = true →
  let text := "done" +:+ ws +:+ Strconv.Itoa n in
  Plain.HandleChat
    {| Plain.Request_Message := {| Message_Text := text; Message_Sender := s |} |} db
  = Plain.wrap "failed to mark task as done" (Plain.markTaskDone n (resolveUserID s) db)
  ∧ Cards.HandleChat (textRequest text s) db
    = wrapErr "failed to mark task as done" (Cards.markTaskDone n (resolveUserID s) db)
  ∧ Text.HandleChat (textRequest text s) db
    = wrapErr "failed to mark task as done" (Text.markTaskDone n (resolveUserID s) db).
Proof.
  intros Hn Hws Hs text.
  destruct (Itoa_digits n) as [Hne Hd]; [lia|].
  assert (Strings.TrimSpace text = text) as Htrim.
  { apply TrimSpace_fixed.
    - subst text. rewrite append_cons. by apply fwd_ascii.
    - subst text. rewrite !rev_append, append_assoc. by apply digits_end_clean. }
  destruct (find_MatchString _ _ _ (find_done ws _ Hws Hs Hne Hd)) as [Hm Hf].
  fold text in Hm, Hf.
  destruct (only_done _ Hm) as [Ha Hl].
  assert (Strconv.Atoi (FindStringSubmatch doneCmd text !!! 1%nat) = (n, None)) as Hid.
  { rewrite Hf. change ([text; Strconv.Itoa n] !!! 1%nat) with (Strconv.Itoa n).
    apply Atoi_Itoa. lia. }
  unfold Plain.HandleChat, Cards.HandleChat, Text.HandleChat, textRequest.
  cbn [Request_Action Request_Message Plain.Request_Message Message_Text Message_Sender].
  by rewrite Htrim, Ha, Hl, Hm, Hid.
Qed.

Lemma done_reads_printed_id_witness :
  Text.HandleChat (textRequest "done 2" (sender "" "bob")) sampleDB
  = wrapErr "failed to mark task as done" (Text.markTaskDone 2 "bob" sampleDB).
Proof.
  assert (0 ≤ 2 < 2 ^ 63) as Hn by lia.
  assert (" " ≠ "") as Hws by (intros H; discriminate H).
  pose proof (done_reads_printed_id 2 " " (sender "" "bob") sampleDB Hn Hws eq_refl)
    as (_ & _ & H).
  exact H.
Defined.

(** X13. [add] stores the text as typed: for a text on one line with no white
    space at its ends, [add], white space and the text is Create with
    exactly that text, in all three revisions. *)
Theorem add_stores_the_text (c ws : string) (s : Sender) (db : DB) :
  c ≠ "" → all_chars cls_dot c = true → Strings.TrimSpace c = c →
  ws ≠ "" → all_chars cls_s ws = true →
  let text := "add" +:+ ws +:+ c in
  Plain.HandleChat
    {| Plain.Request_Message := {| Message_Text := text; Message_Sender := s |} |} db
  = Plain.wrap "failed to add task" (Plain.addTask c (resolveUserID s) db)
  ∧ Cards.HandleChat (textRequest text s) db
    = wrapErr "failed to add task" (Cards.addTask c (resolveUserID s) db)
  ∧ Text.HandleChat (textRequest text s) db
    = wrapErr "failed to add task" (Text.addTask c (resolveUserID s) db).
Proof.
  intros Hc Hdot Hown Hws Hs text.
  destruct (TrimSpace_own c Hown) as [Hfc Hbc].
  destruct (cls_s_ascii ws Hws Hs) as (z0 & z & Hz & Hz0).
  assert (Strings.TrimSpace text = text) as Htrim.
  { apply TrimSpace_fixed.
    - subst text. rewrite append_cons. by apply fwd_ascii.
    - subst text. rewrite !rev_append, append_assoc, Hz, append_cons.
      apply bwd_app_ascii; [done | by apply rev_nonempty | done]. }
  destruct (find_MatchString _ _ _ (find_add ws c Hws Hs Hc Hdot Hfc)) as [Hm Hf].
  fold text in Hm, Hf.
  assert (Strings.TrimSpace (FindStringSubmatch addCmd text !!! 1%nat) = c) as Hcap.
  { rewrite Hf. by change ([text; c] !!! 1%nat) with c. }
  unfold Plain.HandleChat, Cards.HandleChat, Text.HandleChat, textRequest.
  cbn [Request_Action Request_Message Plain.Request_Message Message_Text Message_Sender].
  by rewrite Htrim, Hm, Hcap.
Qed.

Lemma add_stores_the_text_witness :
  Text.HandleChat (textRequest "add Feed cat" (sender "" "alice")) sampleDB
  = wrapErr "failed to add task" (Text.addTask "Feed cat" "alice" sampleDB).
Proof.
  assert ("Feed cat" ≠ "") as Hc by (intros H; discriminate H).
  assert (" " ≠ "") as Hws by (intros H; discriminate H).
  pose proof (add_stores_the_text "Feed cat" " " (sender "" "alice") sampleDB
                Hc eq_refl eq_refl Hws eq_refl) as (_ & _ & H).
  exact H.
Defined.

(** X14. [edit] replaces the content by the text as typed: [edit], white space,
    the id in decimal, white space and a one-line text with no white space
    at its ends is Edit of that task with exactly that text. *)
Theorem edit_replaces_with_the_text (n : Z) (c ws ws' : string) (s : Sender) (db : DB) :
  0 ≤ n < 2 ^ 63 →
  c ≠ "" → all_chars cls_dot c = true → Strings.TrimSpace c = c →
  ws ≠ "" → all_chars cls_s ws = true → ws' ≠ "" → all_chars cls_s ws' = true →
  let text := "edit" +:+ ws +:+ Strconv.Itoa n +:+ ws' +:+ c in
  Text.HandleChat (textRequest text s) db
  = wrapErr "failed to edit task" (Text.editTask n c (resolveUserID s) db).
Proof.
  intros Hn Hc Hdot Hown Hws Hs Hws' Hs' text.
  destruct (Itoa_digits n) as [Hne Hd]; [lia|].
  destruct (TrimSpace_own c Hown) as [Hfc Hbc].
  destruct (cls_s_ascii ws' Hws' Hs') as (z0 & z & Hz & Hz0).
  assert (Strings.TrimSpace text = text) as Htrim.
  { apply TrimSpace_fixed.
    - subst text. rewrite append_cons. by apply fwd_ascii.
    - subst text. rewrite !rev_append, !append_assoc, Hz, append_cons.
      apply bwd_app_ascii; [done | by apply rev_nonempty | done]. }
  destruct (find_MatchString _ _ _
              (find_edit ws _ ws' c Hws Hs Hne Hd Hws' Hs' Hc Hdot Hfc)) as [Hm Hf].
  fold text in Hm, Hf.
  destruct (only_edit _ Hm) as (Ha & Hl & Hdn).
  assert (Strconv.Atoi (FindStringSubmatch editCmd text !!! 1%nat) = (n, None)) as Hid.
  { rewrite Hf. change ([text; Strconv.Itoa n; c] !!! 1%nat) with (Strconv.Itoa n).
    apply Atoi_Itoa. lia. }
  assert (Strings.TrimSpace (FindStringSubmatch editCmd text !!! 2%nat) = c) as Hcap.
  { rewrite Hf. by change ([text; Strconv.Itoa n; c] !!! 2%nat) with c. }
  unfold Text.HandleChat, textRequest.
  cbn [Request_Action Request_Message Message_Text Message_Sender].
  by rewrite Htrim, Ha, Hl, Hdn, Hm, Hid, Hcap.
Qed.

Lemma edit_replaces_with_the_text_witness :
  Text.HandleChat (textRequest "edit 1 Buy oat milk" (sender "" "alice")) sampleDB
  = wrapErr "failed to edit task" (Text.editTask 1 "Buy oat milk" "alice" sampleDB).
Proof.
  assert (0 ≤ 1 < 2 ^ 63) as Hn by lia.
  assert ("Buy oat milk" ≠ "") as Hc by (intros H; discriminate H).
  assert (" " ≠ "") as Hws by (intros H; discriminate H).
  exact (edit_replaces_with_the_text 1 "Buy oat milk" " " " " (sender "" "alice") sampleDB
           Hn Hc eq_refl eq_refl Hws eq_refl Hws eq_refl).
Defined.

(** ** White space around a message *)

Lemma trimWith_skip p2 p3 ws x :
  all_chars Strings.asciiSpace ws = true →
  Strings.trimWith p2 p3 (ws +:+ x) = Strings.trimWith p2 p3 x.
Proof.
  induction ws as [|c ws IH]; intros Hall; [done|].
  simpl in Hall. apply andb_true_iff in Hall as [Hc Hall].
  rewrite append_cons. simpl. rewrite Hc. by apply IH.
Qed.

Lemma fwd_app_space x ws :
  fwd x = None → x ≠ "" → all_chars Strings.asciiSpace ws = true →
  fwd (x +:+ ws) = None.
Proof.
  intros Hf Hne Hall. destruct x as [|c0 [|c1 [|c2 x]]]; [done | | |].
  - simpl in Hf. rewrite append_cons. change ("" +:+ ws) with ws.
    simpl. destruct (Strings.asciiSpace c0); [done|].
    destruct ws as [|w0 ws]; [done|].
    simpl in Hall. apply andb_true_iff in Hall as [Hw0 Hall].
    assert (Strings.space2 c0 w0 = false) as -> by bytes.
    destruct ws as [|w1 ws]; [done|].
    assert (Strings.space3 c0 w0 w1 = false) as -> by bytes. done.
  - simpl in Hf. rewrite !append_cons. change ("" +:+ ws) with ws.
    simpl. destruct (Strings.asciiSpace c0); [done|].
    destruct (Strings.space2 c0 c1); [done|].
    destruct ws as [|w0 ws]; [done|].
    simpl in Hall. apply andb_true_iff in Hall as [Hw0 Hall].
    assert (Strings.space3 c0 c1 w0 = false) as -> by bytes. done.
  - simpl in Hf. rewrite !append_cons. simpl.
    destruct (Strings.asciiSpace c0); [done|].
    destruct (Strings.space2 c0 c1); [done|].
    by destruct (Strings.space3 c0 c1 c2).
Qed.

Lemma TrimLeftSpace_app_space n x ws :
  (String.length x ≤ n)%nat → all_chars Strings.asciiSpace ws = true →
  Strings.TrimLeftSpace (x +:+ ws)
  = match Strings.TrimLeftSpace x with
    | EmptyString => ""
    | String c y => String c y +:+ ws
    end.
Proof.
  revert x. induction n as [|n IH]; intros x Hlen Hall.
  { destruct x; [|simpl in Hlen; lia]. change ("" +:+ ws) with ws.
    unfold Strings.TrimLeftSpace. rewrite <- (append_empty_r ws).
    by rewrite trimWith_skip. }
  unfold Strings.TrimLeftSpace in *.
  rewrite (trimWith_unfold _ _ x). destruct (fwd x) as [rest|] eqn:Hf.
  - rewrite trimWith_unfold, (leading_app _ _ _ _ ws Hf).
    destruct (leading_split _ _ _ _ Hf) as (rune & -> & Hr).
    rewrite append_length in Hlen. apply IH; [lia | done].
  - destruct x as [|c y].
    + change ("" +:+ ws) with ws. rewrite <- (append_empty_r ws).
      by rewrite trimWith_skip.
    + apply trimWith_fixed. by apply fwd_app_space.
Qed.

Lemma TrimRightSpace_app_space y ws :
  all_chars Strings.asciiSpace ws = true →
  Strings.TrimRightSpace (y +:+ ws) = Strings.TrimRightSpace y.
Proof.
  intros Hall. unfold Strings.TrimRightSpace.
  rewrite rev_append, trimWith_skip; [done|]. by rewrite all_chars_rev.
Qed.

Lemma TrimSpace_surrounded ws1 text ws2 :
  all_chars Strings.asciiSpace ws1 = true → all_chars Strings.asciiSpace ws2 = true →
  Strings.TrimSpace (ws1 +:+ text +:+ ws2) = Strings.TrimSpace text.
Proof.
  intros H1 H2. unfold Strings.TrimSpace.
  unfold Strings.TrimLeftSpace at 1. rewrite trimWith_skip by done.
  fold (Strings.TrimLeftSpace (text +:+ ws2)).
  rewrite (TrimLeftSpace_app_space _ text ws2 (le_n _) H2).
  destruct (Strings.TrimLeftSpace text) as [|c y]; [done|].
  by apply TrimRightSpace_app_space.
Qed.

(** X15. Blanks, tabs and line breaks before and after a message do not change
    how it is handled, in any revision. *)
Theorem surrounding_space_ignored (ws1 text ws2 : string) (s : Sender) (db : DB) :
  all_chars Strings.asciiSpace ws1 = true → all_chars Strings.asciiSpace ws2 = true →
  Plain.HandleChat
    {| Plain.Request_Message :=
         {| Message_Text := ws1 +:+ text +:+ ws2; Message_Sender := s |} |} db
  = Plain.HandleChat
      {| Plain.Request_Message := {| Message_Text := text; Message_Sender := s |} |} db
  ∧ Cards.HandleChat (textRequest (ws1 +:+ text +:+ ws2) s) db
    = Cards.HandleChat (textRequest text s) db
  ∧ Text.HandleChat (textRequest (ws1 +:+ text +:+ ws2) s) db
    = Text.HandleChat (textRequest text s) db.
Proof.
  intros H1 H2.
  unfold Plain.HandleChat, Cards.HandleChat, Text.HandleChat, textRequest.
  cbn [Request_Action Request_Message Plain.Request_Message Message_Text Message_Sender].
  by rewrite TrimSpace_surrounded.
Qed.

Lemma surrounding_space_ignored_witness :
  Text.HandleChat (textRequest ("  " +:+ "list" +:+ String "010" "") (sender "" "bob"))
    sampleDB
  = Text.HandleChat (textRequest "list" (sender "" "bob")) sampleDB.
Proof.
  exact (proj2 (proj2 (surrounding_space_ignored "  " "list" (String "010" "")
                         (sender "" "bob") sampleDB eq_refl eq_refl))).
Defined.

(** ** The task list as text *)










(** ** The edit form *)


(** ** The rejection of empty content *)

Lemma wrapErr_Ok prefix r x : (wrapErr prefix r).1 = Ok x → r.1 = Ok x.
Proof. unfold wrapErr. by destruct r.1. Qed.

Lemma guarded_const_cases {R : Type} q (nf ok : R) db :
  (∃ e, (guarded q nf (λ d, (Ok ok, d)) db).1 = Err e)
  ∨ (guarded q nf (λ d, (Ok ok, d)) db).1 = Ok nf
  ∨ (guarded q nf (λ d, (Ok ok, d)) db).1 = Ok ok.
Proof.
  unfold guarded. destruct (Exec q db) as [[n|e] d]; [|left; by exists e].
  destruct (n =? 0); [right; by left | right; by right].
Qed.

Lemma Cards_listTasks_not_rejection userID db :
  (Cards.listTasks userID db).1 ≠ Ok (textResponse emptyContentText).
Proof.
  unfold Cards.listTasks. destruct (Query userID db) as [[rows|e] d]; [|done].
  case_bool_decide as Hlen; simpl; [by intros [= H]|].
  unfold cardsResponse, textResponse. by intros [= H].
Qed.

Lemma Text_listTasks_not_rejection userID db :
  (Text.listTasks userID db).1 ≠ Ok (textResponse emptyContentText).
Proof.
  unfold Text.listTasks. destruct (Query userID db) as [[rows|e] d]; [|done].
  case_bool_decide; simpl; by intros [= Hr].
Qed.

Lemma notFound_not_rejection taskID : notFoundText taskID ≠ emptyContentText.
Proof. unfold notFoundText, emptyContentText. simpl. discriminate. Qed.

Lemma callText_not_rejection c userID db :
  (∀ taskID, c ≠ CallEdit taskID "") →
  (callText c userID db).1 ≠ Ok (textResponse emptyContentText).
Proof.
  intros Hc. destruct c as [|taskID|taskID|taskID newContent|taskID]; unfold callText.
  - apply Text_listTasks_not_rejection.
  - rewrite Text_markTaskDone_guarded.
    destruct (guarded_const_cases (UpdateDone taskID userID)
                (textResponse (notFoundText taskID))
                (textResponse ("✅ Task " +:+ Strconv.Itoa taskID +:+ " marked as done!"))
                db) as [[e ->]|[->| ->]]; [done | by intros [= Hr] | by intros [= Hr]].
  - rewrite Text_deleteTask_guarded.
    destruct (guarded_const_cases (DeleteTask taskID userID)
                (textResponse (notFoundText taskID))
                (textResponse ("🗑️ Task " +:+ Strconv.Itoa taskID +:+ " deleted!"))
                db) as [[e ->]|[->| ->]]; [done | by intros [= Hr] | by intros [= Hr]].
  - assert (newContent ≠ "") as Hne by (intros ->; by apply (Hc taskID)).
    rewrite Text_editTask_guarded by done.
    destruct (guarded_const_cases (UpdateContent newContent taskID userID)
                (textResponse (notFoundText taskID))
                (textResponse ("✏️ Task " +:+ Strconv.Itoa taskID +:+ " updated to: "
                               +:+ newContent))
                db) as [[e ->]|[->| ->]]; [done | by intros [= Hr] | by intros [= Hr]].
  - unfold Text.showEditForm.
    destruct (QueryRowContent taskID userID db) as [[current|e] d]; simpl.
    + unfold Text.editFormText. by intros [= H].
    + by intros [= Hr].
Qed.

Lemma guarded_list_not_rejection q userID db :
  (guarded q (textResponse (notFoundText (target q).1)) (Cards.listTasks userID) db).1
  ≠ Ok (textResponse emptyContentText).
Proof.
  unfold guarded. destruct (Exec q db) as [[n|e] d]; [|done].
  destruct (n =? 0); [|apply Cards_listTasks_not_rejection].
  by intros [= Hr].
Qed.

Lemma callCards_not_rejection c userID db :
  (∀ taskID, c ≠ CallEdit taskID "") →
  (callCards c userID db).1 ≠ Ok (textResponse emptyContentText).
Proof.
  intros Hc. destruct c as [|taskID|taskID|taskID newContent|taskID]; unfold callCards.
  - apply Cards_listTasks_not_rejection.
  - rewrite Cards_markTaskDone_guarded.
    apply (guarded_list_not_rejection (UpdateDone taskID userID)).
  - rewrite Cards_deleteTask_guarded.
    apply (guarded_list_not_rejection (DeleteTask taskID userID)).
  - assert (newContent ≠ "") as Hne by (intros ->; by apply (Hc taskID)).
    rewrite Cards_editTask_guarded by done.
    apply (guarded_list_not_rejection (UpdateContent newContent taskID userID)).
  - unfold Cards.showEditForm.
    destruct (QueryRowContent taskID userID db) as [[current|e] d]; simpl.
    + by intros [= H].
    + by intros [= Hr].
Qed.

(** A card action is answered with one of three fixed texts, or it is a
    store call; the call is never Edit with empty content. *)
Lemma handleCardAction_cases req db :
  (∃ t, t ∈ [invalidActionText; invalidTaskIDText; unknownActionText]
        ∧ Cards.handleCardAction req db = (Ok (textResponse t), db)
        ∧ Text.handleCardAction req db = (Ok (textResponse t), db))
  ∨ ∃ c, (∀ taskID, c ≠ CallEdit taskID "")
         ∧ Cards.handleCardAction req db
           = callCards c (resolveUserID (Message_Sender (Request_Message req))) db
         ∧ Text.handleCardAction req db
           = callText c (resolveUserID (Message_Sender (Request_Message req))) db.
Proof.
  unfold Cards.handleCardAction, Text.handleCardAction.
  destruct (Request_Action req) as [action|];
    [|left; exists invalidActionText; split; [repeat constructor | done]].
  destruct (Strconv.Atoi _) as [taskID [err|]].
  { destruct (bool_decide (_ = "markDone"));
      [left; exists invalidTaskIDText; split; [repeat constructor | done]|].
    destruct (bool_decide (_ = "deleteTask"));
      [left; exists invalidTaskIDText; split; [repeat constructor | done]|].
    destruct (bool_decide (_ = "editTask"));
      [left; exists invalidTaskIDText; split; [repeat constructor | done]|].
    destruct (bool_decide (_ = "list")); [right; by exists CallList|].
    left; exists unknownActionText; split; [repeat constructor | done]. }
  destruct (bool_decide (_ = "markDone")); [right; by exists (CallSetDone taskID)|].
  destruct (bool_decide (_ = "deleteTask")); [right; by exists (CallDelete taskID)|].
  destruct (bool_decide (_ = "editTask")).
  { right. case_bool_decide as Hc; simpl.
    - by exists (CallReadContent taskID).
    - eexists (CallEdit taskID _). split; [|done]. by intros t [= _ H]. }
  destruct (bool_decide (_ = "list")); [right; by exists CallList|].
  left; exists unknownActionText; split; [repeat constructor | done].
Qed.

(** X18. No request at any endpoint of the card and text revisions is ever
    answered with the empty-content rejection: a chat [edit] always carries
    text after trimming, and the card action goes to the edit form when the
    content is empty, so the check in [editTask] is never the one that
    answers. *)
Theorem empty_content_reply_unreachable (req : ChatRequest) (db : DB) :
  (Cards.HandleChat req db).1 ≠ Ok (textResponse emptyContentText)
  ∧ (Cards.HandleCardAction req db).1 ≠ Ok (textResponse emptyContentText)
  ∧ (Text.HandleChat req db).1 ≠ Ok (textResponse emptyContentText)
  ∧ (Text.HandleCardAction req db).1 ≠ Ok (textResponse emptyContentText).
Proof.
  assert ((Cards.handleCardAction req db).1 ≠ Ok (textResponse emptyContentText)
          ∧ (Text.handleCardAction req db).1 ≠ Ok (textResponse emptyContentText))
    as [HCa HTa].
  { destruct (handleCardAction_cases req db)
      as [(t & Ht & -> & ->)|(c & Hc & -> & ->)].
    - repeat (apply elem_of_cons in Ht as [-> | Ht]); [..|by apply elem_of_nil in Ht];
        split; by intros [= H].
    - split; [by apply callCards_not_rejection | by apply callText_not_rejection]. }
  split_and!; [|done| |done].
  - unfold Cards.HandleChat. destruct (Request_Action req); [done|].
    destruct (MatchString addCmd _).
    { intros H%wrapErr_Ok. unfold Cards.addTask in H.
      destruct (QueryRowInsert _ _ _) as [[id|e] d]; cbn [fst] in H; by inversion H. }
    destruct (MatchString listCmd _).
    { intros H%wrapErr_Ok. by apply (callCards_not_rejection CallList) in H. }
    destruct (MatchString doneCmd _); [|by intros [= H]].
    intros H%wrapErr_Ok. by apply (callCards_not_rejection (CallSetDone _)) in H.
  - unfold Text.HandleChat. destruct (Request_Action req); [done|].
    destruct (MatchString addCmd _).
    { intros H%wrapErr_Ok. unfold Text.addTask in H.
      destruct (QueryRowInsert _ _ _) as [[id|e] d]; cbn [fst] in H; by inversion H. }
    destruct (MatchString listCmd _).
    { intros H%wrapErr_Ok. by apply (callText_not_rejection CallList) in H. }
    destruct (MatchString doneCmd _).
    { intros H%wrapErr_Ok. by apply (callText_not_rejection (CallSetDone _)) in H. }
    destruct (MatchString editCmd _) eqn:He.
    { intros H%wrapErr_Ok. apply (callText_not_rejection (CallEdit _ _)) in H; [done|].
      intros t [= _ Hempty]. by apply edit_capture_nonempty in He. }
    destruct (MatchString testCmd _); by intros [= H].
Qed.
